(** * Adjutant / StackTask: the Task-Action orchestration engine

    A shallow embedding of the approval workflow of the repository:

    - [api_v1/models.py]: the Registration (Task), Token and Notification
      tables;
    - [base/models.py]: the Action table, [BaseAction] and the three
      concrete actions [NewUser], [NewProject], [ResetUser];
    - [api_v1/views.py]: the first generation of the views (module [ApiV1]);
    - [stacktask/api/v1/views.py]: the second generation of the views, with
      e-mail, token re-issue and the update path (module [StackTask]).

    Python code is stateful and raises exceptions; it is modelled in a
    state-and-exception monad over an explicit world (the database tables,
    the identity backend, the clock reading counter).  Dictionaries are
    [gmap]s, sets are [gset]s. *)

From Stdlib Require Import ZArith String Ascii List Sorted Permutation.
From stdpp Require Import base option gmap sets list strings sorting pretty.

Local Open Scope Z_scope.
Local Open Scope string_scope.
Local Open Scope list_scope.

(** ** Python values and exceptions *)

(** The JSON values that occur in request payloads, requester attributes
    and response bodies. *)
Inductive pyval :=
| VStr (s : string)
| VBool (b : bool)
| VList (l : list string)
| VInts (l : list nat)
| VDict (d : gmap string (list string))
| VUuid (u : nat).

Global Instance pyval_eq_dec : EqDecision pyval.
Proof. solve_decision. Defined.

(** Exceptions, with the text Python prints for [str(e)]. *)
Inductive exn :=
| KeyError (key : string)
| AttributeError (msg : string)
| TypeError (msg : string)
| NotImplementedError
| DoesNotExist (model : string)
| SMTPException (msg : string)
| TemplateDoesNotExist (name : string)
| ClientException (msg : string).

Global Instance exn_eq_dec : EqDecision exn.
Proof. solve_decision. Defined.

Definition exn_str (e : exn) : string :=
  match e with
  | KeyError k => "'" +:+ k +:+ "'"
  | AttributeError m => m
  | TypeError m => m
  | NotImplementedError => ""
  | DoesNotExist m => m +:+ " matching query does not exist."
  | SMTPException m => m
  | TemplateDoesNotExist n => n
  | ClientException m => m
  end.

Definition is_KeyError (e : exn) : bool :=
  match e with KeyError _ => true | _ => false end.

Definition is_SMTPException (e : exn) : bool :=
  match e with SMTPException _ => true | _ => false end.

Inductive result (A : Type) :=
| Ok (a : A)
| Raise (e : exn).
Arguments Ok {A} a.
Arguments Raise {A} e.

Definition result_map {A B} (f : A → B) (r : result A) : result B :=
  match r with Ok a => Ok (f a) | Raise e => Raise e end.

(** [fmt % args] for formats that use only the [%s] conversion: every
    [%s] consumes one argument; too few or too many arguments are a
    [TypeError], as in Python. *)
Fixpoint py_format (fmt : string) (args : list string) : result string :=
  match fmt with
  | EmptyString =>
      match args with
      | [] => Ok EmptyString
      | _ :: _ =>
          Raise (TypeError
                   "not all arguments converted during string formatting")
      end
  | String c rest =>
      match rest with
      | String c' rest' =>
          if (Ascii.eqb c "%" && Ascii.eqb c' "s")%bool then
            match args with
            | [] => Raise (TypeError "not enough arguments for format string")
            | a :: args' => result_map (String.append a) (py_format rest' args')
            end
          else result_map (String c) (py_format rest args)
      | EmptyString => result_map (String c) (py_format rest args)
      end
  end.

(** [str(l)] for a list of strings: [['a', 'b']]. *)
Fixpoint str_join (sep : string) (l : list string) : string :=
  match l with
  | [] => ""
  | [x] => x
  | x :: l' => x +:+ sep +:+ str_join sep l'
  end.

Definition str_list (l : list string) : string :=
  "[" +:+ str_join ", " (map (λ s, "'" +:+ s +:+ "'") l) +:+ "]".

(** [needle in haystack] on Python strings. *)
Fixpoint str_contains (needle hay : string) : bool :=
  if String.prefix needle hay then true
  else match hay with
       | EmptyString => false
       | String _ hay' => str_contains needle hay'
       end.

(** ** The state-and-exception monad

    A computation takes the state, returns a value or raises, and leaves
    a new state behind; what was written before an exception stays
    written (nothing in the sources runs in a transaction). *)
Definition M (S A : Type) : Type := S → result A * S.

Definition ret {S A} (a : A) : M S A := λ s, (Ok a, s).
Definition raise {S A} (e : exn) : M S A := λ s, (Raise e, s).
Definition bind {S A B} (m : M S A) (f : A → M S B) : M S B :=
  λ s, match m s with
       | (Ok a, s') => f a s'
       | (Raise e, s') => (Raise e, s')
       end.
(** [try: m except Exception as e: h e] *)
Definition try_except {S A} (m : M S A) (h : exn → M S A) : M S A :=
  λ s, match m s with
       | (Ok a, s') => (Ok a, s')
       | (Raise e, s') => h e s'
       end.
Definition gets {S A} (f : S → A) : M S A := λ s, (Ok (f s), s).
Definition modify {S} (f : S → S) : M S unit := λ s, (Ok tt, f s).
Definition lift_result {S A} (r : result A) : M S A := λ s, (r, s).

Global Instance M_ret {S} : MRet (M S) := λ A, ret.
Global Instance M_bind {S} : MBind (M S) := λ A B f m, bind m f.

(** A Python [for] loop whose body may [return]: the body either continues
    with the updated local variables ([inl]) or returns from the enclosing
    function ([inr]). *)
Fixpoint for_ {S A Acc R} (l : list A) (acc : Acc)
    (body : A → Acc → M S (Acc + R)) : M S (Acc + R) :=
  match l with
  | [] => ret (inl acc)
  | x :: l' =>
      bind (body x acc) (λ r,
        match r with
        | inl acc' => for_ l' acc' body
        | inr v => ret (inr v)
        end)
  end.

(** A [for] loop that runs to the end, threading its local variables. *)
Fixpoint foldM {S A Acc} (l : list A) (acc : Acc)
    (body : A → Acc → M S Acc) : M S Acc :=
  match l with
  | [] => ret acc
  | x :: l' => bind (body x acc) (λ acc', foldM l' acc' body)
  end.

(** [try: m except <class> as e: h e]: an exception of another class
    propagates. *)
Definition try_except_on {S A} (caught : exn → bool) (m : M S A)
    (h : exn → M S A) : M S A :=
  try_except m (λ e, if caught e then h e else raise e).

(** [d[k]] on a dictionary. *)
Definition getitem {S V} (d : gmap string V) (k : string) : M S V :=
  match d !! k with
  | Some v => ret v
  | None => raise (KeyError k)
  end.

(** ** The database models ([api_v1/models.py], [base/models.py])

    Primary keys: a Registration's [uuid] and a Token's [token] are drawn
    from [uuid4]; they are opaque, so they are numbered here in the order
    they are drawn.  An Action's and a Notification's key is its position
    in its table (rows of these tables are never deleted). *)

Record Registration := {
  uuid : nat;
  reg_ip : string;
  keystone_user : gmap string pyval;
  reg_notes : gmap string pyval;
  reg_errors : gmap string pyval;
  approved : bool;
  completed : bool;
  reg_created : Z;
  approved_on : option Z;
  completed_on : option Z;
  action_view : string;
}.

Record Token := {
  tok_registration : nat;
  token : nat;
  tok_created : Z;
  expires : Z;
}.

Record Notification := {
  ntf_notes : gmap string pyval;
  ntf_registration : nat;
  ntf_created : Z;
  acknowledged : bool;
}.

Record Action := {
  act_id : nat;
  action_name : string;
  action_data : gmap string string;
  cache : gmap string string;
  state : string;
  valid : bool;
  need_token : bool;
  act_registration : nat;
  order : Z;
  act_created : Z;
}.

Definition set_approved (t : Z) (r : Registration) : Registration :=
  {| uuid := uuid r; reg_ip := reg_ip r; keystone_user := keystone_user r;
     reg_notes := reg_notes r; reg_errors := reg_errors r;
     approved := true; completed := completed r;
     reg_created := reg_created r; approved_on := Some t;
     completed_on := completed_on r; action_view := action_view r |}.

Definition set_completed (t : Z) (r : Registration) : Registration :=
  {| uuid := uuid r; reg_ip := reg_ip r; keystone_user := keystone_user r;
     reg_notes := reg_notes r; reg_errors := reg_errors r;
     approved := approved r; completed := true;
     reg_created := reg_created r; approved_on := approved_on r;
     completed_on := Some t; action_view := action_view r |}.

Definition set_acknowledged (n : Notification) : Notification :=
  {| ntf_notes := ntf_notes n; ntf_registration := ntf_registration n;
     ntf_created := ntf_created n; acknowledged := true |}.

Definition with_flags (v nt : bool) (st : string) (a : Action) : Action :=
  {| act_id := act_id a; action_name := action_name a;
     action_data := action_data a; cache := cache a; state := st;
     valid := v; need_token := nt; act_registration := act_registration a;
     order := order a; act_created := act_created a |}.

Definition with_cache (c : gmap string string) (a : Action) : Action :=
  {| act_id := act_id a; action_name := action_name a;
     action_data := action_data a; cache := c; state := state a;
     valid := valid a; need_token := need_token a;
     act_registration := act_registration a;
     order := order a; act_created := act_created a |}.

Definition with_action_data (d : gmap string string) (a : Action) : Action :=
  {| act_id := act_id a; action_name := action_name a;
     action_data := d; cache := cache a; state := state a;
     valid := valid a; need_token := need_token a;
     act_registration := act_registration a;
     order := order a; act_created := act_created a |}.

(** ** The identity backend

    [base/models.py] imports [IdentityManager] from its sibling
    [user_store] module, which is not among the sources; it is taken as a
    parameter.  Its interface is the one [base/models.py] calls, and its
    contract is the one of [stacktask/actions/user_store.py]: a [find_*] or
    [get_*] call answers [None] when nothing matches, [add_user_role]
    swallows a conflict, everything else the client raises propagates.
    [KS] is the state of the backend. *)

Record User := { usr_id : string; usr_name : string; usr_email : string }.
Record Project := { prj_id : string; prj_name : string }.
Record Role := { role_id : string; role_name : string }.

Class IdentityManager (KS : Type) := {
  find_user : string → M KS (option User);
  create_user : string → pyval → string → string → M KS User;
  update_user_password : option User → pyval → M KS unit;
  find_role : string → M KS (option Role);
  add_user_role : option User → option Role → option string → M KS unit;
  find_project : string → M KS (option Project);
  get_project : string → M KS (option Project);
  create_project : string → M KS Project;
}.

(** ** Actions ([base/models.py])

    An action object wraps one row of the Action table.  Its methods read
    and write that row ([self.action]), read the row's Registration
    ([self.action.registration]), call the identity backend and write the
    class-level [Registration.cache] dictionary; nothing else.  Every
    assignment to the row in the sources is followed by [self.action.save()]
    before anything that can raise, so the row in memory and the row in
    the table agree whenever control is outside a method. *)

Record ActSt (KS : Type) := {
  st_action : Action;
  st_registration : option Registration;
  st_ks : KS;
  st_registration_cache : gmap string string;
}.
Arguments st_action {KS} _.
Arguments st_registration {KS} _.
Arguments st_ks {KS} _.
Arguments st_registration_cache {KS} _.

Abbreviation Act KS := (M (ActSt KS)).

(** An instance, as a record of its bound methods. [obj_get_email] is
    [None] for a class that does not define [get_email]. *)
Record ActionObject (KS : Type) := {
  obj_unicode : string;
  obj_token_fields : list string;
  obj_pre_approve : Act KS (list string);
  obj_post_approve : Act KS (list string);
  obj_submit : gmap string pyval → Act KS (list string);
  obj_get_email : option (option string);
}.
Arguments obj_unicode {KS} _.
Arguments obj_token_fields {KS} _.
Arguments obj_pre_approve {KS} _.
Arguments obj_post_approve {KS} _.
Arguments obj_submit {KS} _ _.
Arguments obj_get_email {KS} _.

(** A class: its name, its [required] and [token_fields] lists, and the
    part of [__init__] that copies the required fields out of the data
    (the part that may raise). *)
Record ActionClass (KS : Type) := {
  cls_name : string;
  cls_required : list string;
  cls_token_fields : list string;
  cls_new : gmap string string → result (ActionObject KS);
}.
Arguments cls_name {KS} _.
Arguments cls_required {KS} _.
Arguments cls_token_fields {KS} _.
Arguments cls_new {KS} _ _.

(** A serializer applied to the request data: either valid, with the
    validated data, or invalid, with one error list per failing field.
    The serializer modules are not among the sources; they are
    parameters. *)
Inductive serializer :=
| SerValid (validated_data : gmap string string)
| SerInvalid (field_errors : gmap string (list string)).

Definition is_valid (s : serializer) : bool :=
  match s with SerValid _ => true | SerInvalid _ => false end.
Definition validated_data (s : serializer) : gmap string string :=
  match s with SerValid d => d | SerInvalid _ => ∅ end.
Definition serializer_errors (s : serializer) : gmap string (list string) :=
  match s with SerValid _ => ∅ | SerInvalid e => e end.

Definition Serializer := gmap string pyval → serializer.

Section BaseModels.
Context {KS : Type} `{!IdentityManager KS}.

Definition id_manager {A} (m : M KS A) : Act KS A :=
  λ st, let '(r, k) := m (st_ks st) in
        (r, {| st_action := st_action st;
               st_registration := st_registration st;
               st_ks := k;
               st_registration_cache := st_registration_cache st |}).

(** [self.action.<field> = ...; self.action.save()] *)
Definition save_action (f : Action → Action) : Act KS unit :=
  modify (λ st, {| st_action := f (st_action st);
                   st_registration := st_registration st;
                   st_ks := st_ks st;
                   st_registration_cache := st_registration_cache st |}).

(** [self.action.registration] *)
Definition self_registration : Act KS Registration :=
  r ← gets st_registration;
  match r with
  | Some r => ret r
  | None => raise (DoesNotExist "Registration")
  end.

(** [self.action.registration.cache[key] = value] *)
Definition set_registration_cache (key value : string) : Act KS unit :=
  _ ← self_registration;
  modify (λ st, {| st_action := st_action st;
                   st_registration := st_registration st;
                   st_ks := st_ks st;
                   st_registration_cache :=
                     <[key := value]> (st_registration_cache st) |}).

(** [BaseAction.valid] *)
Definition self_valid : Act KS bool := gets (λ st, valid (st_action st)).

Definition get_cache (key : string) : Act KS string :=
  c ← gets (λ st, cache (st_action st));
  getitem c key.

Definition set_cache (key value : string) : Act KS unit :=
  save_action (λ a, with_cache (<[key := value]> (cache a)) a).

(** [self.<field>] on the instance built by [__init__]. *)
Definition getattr {S} (cls : string) (attrs : gmap string string)
    (field : string) : M S string :=
  match attrs !! field with
  | Some v => ret v
  | None =>
      raise (AttributeError
               ("'" +:+ cls +:+ "' object has no attribute '" +:+ field +:+ "'"))
  end.

(** [BaseAction.__init__]: [for field in self.required: setattr(self,
    field, data[field])]. *)
Fixpoint BaseAction_init (required : list string) (data : gmap string string)
    : result (gmap string string) :=
  match required with
  | [] => Ok ∅
  | field :: rest =>
      match data !! field with
      | None => Raise (KeyError field)
      | Some v => result_map (λ attrs, <[field := v]> attrs)
                             (BaseAction_init rest data)
      end
  end.

(** [list.remove(x)]: drops the first occurrence. *)
Fixpoint list_remove (x : string) (l : list string) : list string :=
  match l with
  | [] => []
  | y :: l' => if bool_decide (x = y) then l' else y :: list_remove x l'
  end.

(** [UserAction.__init__].  With [USERNAME_IS_EMAIL] the class's
    [required] list loses ["username"] (in place, so for every later
    instance as well) and the username is the email. *)
Definition UserAction_init (USERNAME_IS_EMAIL : bool) (cls : string)
    (required : list string) (data : gmap string string)
    : result (gmap string string) :=
  if USERNAME_IS_EMAIL then
    match BaseAction_init (list_remove "username" required) data with
    | Raise e => Raise e
    | Ok attrs =>
        match attrs !! "email" with
        | Some email => Ok (<["username" := email]> attrs)
        | None =>
            Raise (AttributeError
                     ("'" +:+ cls +:+ "' object has no attribute 'email'"))
        end
    end
  else BaseAction_init required data.

(** [needle in v] *)
Definition py_in {S} (needle : string) (v : pyval) : M S bool :=
  match v with
  | VList l => ret (bool_decide (needle ∈ l))
  | VStr s => ret (str_contains needle s)
  | VInts _ => ret false
  | VDict d => ret (bool_decide (is_Some (d !! needle)))
  | VBool _ => raise (TypeError "argument of type 'bool' is not iterable")
  | VUuid _ => raise (TypeError "argument of type 'int' is not iterable")
  end.

(** *** NewUser *)
Section Actions.
Variable attrs : gmap string string.

Definition NewUser_validate : Act KS (list string) :=
  username ← getattr "NewUser" attrs "username";
  user ← id_manager (find_user username);
  reg ← self_registration;
  let keystone_user := keystone_user reg in
  roles ← getitem keystone_user "roles";
  is_admin ← py_in "admin" roles;
  authorized ← (if is_admin : bool then ret true
                else
                  pid ← getitem keystone_user "project_id";
                  project_id ← getattr "NewUser" attrs "project_id";
                  ret (bool_decide (pid = VStr project_id)));
  if negb authorized
  then ret ["Project id does not match keystone user project."]
  else
    project_id ← getattr "NewUser" attrs "project_id";
    project ← id_manager (get_project project_id);
    match project with
    | None => ret ["Project does exist."]
    | Some _ =>
        match user with
        | Some u =>
            email ← getattr "NewUser" attrs "email";
            if bool_decide (usr_email u = email) then
              _ ← save_action (with_flags true false "existing");
              ret ["Existing user with matching email."]
            else ret ["Existing user with non-matching email."]
        | None =>
            _ ← save_action (λ a, with_flags true (need_token a) (state a) a);
            ret ["No user present with username"]
        end
    end.

Definition NewUser_submit (token_data : gmap string pyval)
    : Act KS (list string) :=
  notes ← NewUser_validate;
  v ← self_valid;
  if v : bool then
    st ← gets (λ st, state (st_action st));
    if bool_decide (st = "default") then
      username ← getattr "NewUser" attrs "username";
      password ← getitem token_data "password";
      email ← getattr "NewUser" attrs "email";
      project_id ← getattr "NewUser" attrs "project_id";
      user ← id_manager (create_user username password email project_id);
      role_name ← getattr "NewUser" attrs "role";
      role ← id_manager (find_role role_name);
      _ ← id_manager (add_user_role (Some user) role (Some project_id));
      note ← lift_result
        (py_format "User %s has been created, with role %s in project %s."
                   [username; role_name; project_id]);
      ret (notes ++ [note])
    else if bool_decide (st = "existing") then
      username ← getattr "NewUser" attrs "username";
      user ← id_manager (find_user username);
      role_name ← getattr "NewUser" attrs "role";
      role ← id_manager (find_role role_name);
      project_id ← getattr "NewUser" attrs "project_id";
      _ ← id_manager (add_user_role user role (Some project_id));
      note ← lift_result
        (py_format "Existing user %s has been given role %s in project %s."
                   [username; role_name; project_id]);
      ret (notes ++ [note])
    else ret notes
  else ret notes.

(** *** NewProject *)
Definition default_roles : list string := ["Member"; "project_owner"].

(** The user half of the validation, shared (as duplicated text in the
    source) by [_validate_project] and [_validate_user]. *)
Definition NewProject_check_user (user : option User)
    : Act KS (list string) :=
  match user with
  | Some u =>
      email ← getattr "NewProject" attrs "email";
      if bool_decide (usr_email u = email) then
        _ ← save_action (with_flags true false "existing");
        note ← lift_result
          (py_format "Existing user '%s' with matching email." [email]);
        ret [note]
      else
        username ← getattr "NewProject" attrs "username";
        note ← lift_result
          (py_format "Existing user '%s' with non-matching email." [username]);
        ret [note]
  | None =>
      _ ← save_action (λ a, with_flags true (need_token a) (state a) a);
      username ← getattr "NewProject" attrs "username";
      note ← lift_result
        (py_format "No user present with username '%s'." [username]);
      ret [note]
  end.

Definition NewProject_validate_project : Act KS (list string) :=
  username ← getattr "NewProject" attrs "username";
  user ← id_manager (find_user username);
  project_name ← getattr "NewProject" attrs "project_name";
  project ← id_manager (find_project project_name);
  notes ← NewProject_check_user user;
  match project with
  | Some _ =>
      _ ← save_action (λ a, with_flags false (need_token a) (state a) a);
      project_name ← getattr "NewProject" attrs "project_name";
      note ← lift_result
        (py_format "Existing project with name '%s'." [project_name]);
      ret (notes ++ [note])
  | None =>
      project_name ← getattr "NewProject" attrs "project_name";
      note ← lift_result
        (py_format "No existing project with name '%s'." [project_name]);
      ret (notes ++ [note])
  end.

Definition NewProject_validate_user : Act KS (list string) :=
  username ← getattr "NewProject" attrs "username";
  user ← id_manager (find_user username);
  NewProject_check_user user.

Definition NewProject_post_approve : Act KS (list string) :=
  notes ← NewProject_validate_project;
  v ← self_valid;
  if v : bool then
    project_name ← getattr "NewProject" attrs "project_name";
    project ← id_manager (create_project project_name);
    _ ← set_registration_cache "project_id" (prj_id project);
    _ ← set_cache "project_id" (prj_id project);
    project_name ← getattr "NewProject" attrs "project_name";
    note ← lift_result (py_format "New project '%s' created." [project_name]);
    ret (notes ++ [note])
  else ret notes.

(** [for role in self.default_roles: ks_role = id_manager.find_role(role);
    id_manager.add_user_role(user, ks_role, project)] *)
Fixpoint NewProject_grant_roles (user : option User)
    (project : option Project) (roles : list string) : Act KS unit :=
  match roles with
  | [] => ret tt
  | role :: roles' =>
      ks_role ← id_manager (find_role role);
      _ ← id_manager (add_user_role user ks_role (prj_id <$> project));
      NewProject_grant_roles user project roles'
  end.

Definition NewProject_submit (token_data : gmap string pyval)
    : Act KS (list string) :=
  notes ← NewProject_validate_user;
  v ← self_valid;
  if v : bool then
    project_id ← get_cache "project_id";
    _ ← set_registration_cache "project_id" project_id;
    project ← id_manager (get_project project_id);
    st ← gets (λ st, state (st_action st));
    if bool_decide (st = "default") then
      username ← getattr "NewProject" attrs "username";
      password ← getitem token_data "password";
      email ← getattr "NewProject" attrs "email";
      pid ← (match project with
             | Some p => ret (prj_id p)
             | None => raise (AttributeError
                                "'NoneType' object has no attribute 'id'")
             end);
      user ← id_manager (create_user username password email pid);
      _ ← NewProject_grant_roles (Some user) project default_roles;
      username ← getattr "NewProject" attrs "username";
      project_name ← getattr "NewProject" attrs "project_name";
      note ← lift_result
        (py_format "New user '%s' created for project %s with roles: %s"
                   [username; project_name; str_list default_roles]);
      ret (notes ++ [note])
    else if bool_decide (st = "existing") then
      username ← getattr "NewProject" attrs "username";
      user ← id_manager (find_user username);
      _ ← NewProject_grant_roles user project default_roles;
      (* [a + b % (x, y, z)]: the [%] binds tighter than the [+], so the
         three arguments are applied to the second literal alone. *)
      username ← getattr "NewProject" attrs "username";
      project_name ← getattr "NewProject" attrs "project_name";
      tail ← lift_result
        (py_format " with roles: %s"
                   [username; project_name; str_list default_roles]);
      ret (notes ++ ["Existing user '%s' attached to project %s" +:+ tail])
    else ret notes
  else ret notes.

(** *** ResetUser *)
Definition ResetUser_validate : Act KS (list string) :=
  username ← getattr "ResetUser" attrs "username";
  user ← id_manager (find_user username);
  match user with
  | Some u =>
      email ← getattr "ResetUser" attrs "email";
      if bool_decide (usr_email u = email) then
        _ ← save_action (λ a, with_flags true (need_token a) (state a) a);
        ret ["Existing user with matching email."]
      else ret ["Existing user with non-matching email."]
  | None => ret ["No user present with username"]
  end.

Definition ResetUser_submit (token_data : gmap string pyval)
    : Act KS (list string) :=
  notes ← ResetUser_validate;
  v ← self_valid;
  if v : bool then
    username ← getattr "ResetUser" attrs "username";
    user ← id_manager (find_user username);
    password ← getitem token_data "password";
    _ ← id_manager (update_user_password user password);
    username ← getattr "ResetUser" attrs "username";
    note ← lift_result
      (py_format "User %s password has been changed." [username]);
    ret (notes ++ [note])
  else ret notes.

End Actions.

(** *** The classes and the registry *)
Section Registry.
Variable USERNAME_IS_EMAIL : bool.

Definition NewUser : ActionClass KS :=
  let required := ["username"; "email"; "project_id"; "role"] in
  {| cls_name := "NewUser";
     cls_required := required;
     cls_token_fields := ["password"];
     cls_new := λ data,
       result_map
         (λ attrs, {| obj_unicode := "NewUser";
                      obj_token_fields := ["password"];
                      obj_pre_approve := NewUser_validate attrs;
                      obj_post_approve := NewUser_validate attrs;
                      obj_submit := NewUser_submit attrs;
                      obj_get_email := None |})
         (UserAction_init USERNAME_IS_EMAIL "NewUser" required data) |}.

Definition NewProject : ActionClass KS :=
  let required := ["project_name"; "username"; "email"] in
  {| cls_name := "NewProject";
     cls_required := required;
     cls_token_fields := ["password"];
     cls_new := λ data,
       result_map
         (λ attrs, {| obj_unicode := "NewProject";
                      obj_token_fields := ["password"];
                      obj_pre_approve := NewProject_validate_project attrs;
                      obj_post_approve := NewProject_post_approve attrs;
                      obj_submit := NewProject_submit attrs;
                      obj_get_email := None |})
         (UserAction_init USERNAME_IS_EMAIL "NewProject" required data) |}.

Definition ResetUser : ActionClass KS :=
  let required := ["username"; "email"] in
  {| cls_name := "ResetUser";
     cls_required := required;
     cls_token_fields := ["password"];
     cls_new := λ data,
       result_map
         (λ attrs, {| obj_unicode := "ResetUser";
                      obj_token_fields := ["password"];
                      obj_pre_approve := ResetUser_validate attrs;
                      obj_post_approve := ResetUser_validate attrs;
                      obj_submit := ResetUser_submit attrs;
                      obj_get_email := None |})
         (UserAction_init USERNAME_IS_EMAIL "ResetUser" required data) |}.

(** The dictionary of [(<ActionClass>, <ActionSerializer>)] pairs that the
    module adds to [settings.ACTION_CLASSES]. *)
Definition action_classes
    (NewUserSerializer NewProjectSerializer ResetUserSerializer : Serializer)
    : gmap string (ActionClass KS * option Serializer) :=
  <["NewUser" := (NewUser, Some NewUserSerializer)]>
  (<["NewProject" := (NewProject, Some NewProjectSerializer)]>
  (<["ResetUser" := (ResetUser, Some ResetUserSerializer)]> ∅)).

End Registry.
End BaseModels.

(** ** Role management ([stacktask/actions/user_store.py]) *)

(** [get_managable_roles(user_roles)] of [stacktask/actions/user_store.py];
    [settings.ROLES_MAPPING] is its parameter. *)
Definition get_managable_roles (ROLES_MAPPING : gmap string (list string))
    (user_roles : list string) : gset string :=
  let manage_mapping := ROLES_MAPPING in
  let managable_role_names :=
    role_name ← user_roles;
    match manage_mapping !! role_name with
    | Some mroles => mroles
    | None => []
    end in
  list_to_set managable_role_names.

(** ** Settings and external collaborators

    [django.conf.settings], the clock, the template loader and the mail
    transport are not part of the repository; they are the fields of
    [Env].  [timezone_now k] is the value of the [k]-th call of
    [timezone.now()]: the world counts the calls. *)

Record ClassConf := {
  conf_actions : option (list string);
  conf_emails : option (gmap string (gmap string string));
}.

Class Env (KS : Type) := {
  timezone_now : nat → Z;
  ACTION_CLASSES : gmap string (ActionClass KS * option Serializer);
  API_ACTIONS : gmap string (list string);
  ACTIONVIEW_SETTINGS : gmap string ClassConf;
  loader_get_template : string → result unit;
  template_render : string → nat → list string → option nat → result string;
  send_mail : string → string → string → string → string → result unit;
}.

(** ** The world *)

(** The calls of the three lifecycle methods, in the order they were
    made.  This history is ghost state: the views only append to it and
    nothing reads it; it is what "method m ran on action a" means in the
    statements below. *)
Inductive Call :=
| CallPreApprove (action : nat)
| CallPostApprove (action : nat)
| CallSubmit (action : nat) (token_data : gmap string pyval).

Record LogEntry := { log_level : string; log_text : string }.

Record World (KS : Type) := {
  registrations : gmap nat Registration;
  actions : list Action;
  tokens : gmap nat Token;
  notifications : list Notification;
  ks : KS;
  registration_cache : gmap string string;
  ticks : nat;
  uuids : nat;
  calls : list Call;
  logger : list LogEntry;
}.
Arguments registrations {KS} _.
Arguments actions {KS} _.
Arguments tokens {KS} _.
Arguments notifications {KS} _.
Arguments ks {KS} _.
Arguments registration_cache {KS} _.
Arguments ticks {KS} _.
Arguments uuids {KS} _.
Arguments calls {KS} _.
Arguments logger {KS} _.

Section WorldUpdates.
Context {KS : Type}.
Implicit Types w : World KS.

Definition with_registrations (f : gmap nat Registration → gmap nat Registration)
    w : World KS :=
  {| registrations := f (registrations w); actions := actions w;
     tokens := tokens w; notifications := notifications w; ks := ks w;
     registration_cache := registration_cache w; ticks := ticks w;
     uuids := uuids w; calls := calls w; logger := logger w |}.

Definition with_actions (f : list Action → list Action) w : World KS :=
  {| registrations := registrations w; actions := f (actions w);
     tokens := tokens w; notifications := notifications w; ks := ks w;
     registration_cache := registration_cache w; ticks := ticks w;
     uuids := uuids w; calls := calls w; logger := logger w |}.

Definition with_tokens (f : gmap nat Token → gmap nat Token) w : World KS :=
  {| registrations := registrations w; actions := actions w;
     tokens := f (tokens w); notifications := notifications w; ks := ks w;
     registration_cache := registration_cache w; ticks := ticks w;
     uuids := uuids w; calls := calls w; logger := logger w |}.

Definition with_notifications (f : list Notification → list Notification)
    w : World KS :=
  {| registrations := registrations w; actions := actions w;
     tokens := tokens w; notifications := f (notifications w); ks := ks w;
     registration_cache := registration_cache w; ticks := ticks w;
     uuids := uuids w; calls := calls w; logger := logger w |}.

Definition with_backend (k : KS) (c : gmap string string) w : World KS :=
  {| registrations := registrations w; actions := actions w;
     tokens := tokens w; notifications := notifications w; ks := k;
     registration_cache := c; ticks := ticks w;
     uuids := uuids w; calls := calls w; logger := logger w |}.

Definition with_ticks (n : nat) w : World KS :=
  {| registrations := registrations w; actions := actions w;
     tokens := tokens w; notifications := notifications w; ks := ks w;
     registration_cache := registration_cache w; ticks := n;
     uuids := uuids w; calls := calls w; logger := logger w |}.

Definition with_uuids (n : nat) w : World KS :=
  {| registrations := registrations w; actions := actions w;
     tokens := tokens w; notifications := notifications w; ks := ks w;
     registration_cache := registration_cache w; ticks := ticks w;
     uuids := n; calls := calls w; logger := logger w |}.

Definition with_calls (f : list Call → list Call) w : World KS :=
  {| registrations := registrations w; actions := actions w;
     tokens := tokens w; notifications := notifications w; ks := ks w;
     registration_cache := registration_cache w; ticks := ticks w;
     uuids := uuids w; calls := f (calls w); logger := logger w |}.

Definition with_logger (f : list LogEntry → list LogEntry) w : World KS :=
  {| registrations := registrations w; actions := actions w;
     tokens := tokens w; notifications := notifications w; ks := ks w;
     registration_cache := registration_cache w; ticks := ticks w;
     uuids := uuids w; calls := calls w; logger := f (logger w) |}.

Definition empty_world (k : KS) : World KS :=
  {| registrations := ∅; actions := []; tokens := ∅; notifications := [];
     ks := k; registration_cache := ∅; ticks := 0%nat; uuids := 0%nat;
     calls := []; logger := [] |}.

End WorldUpdates.

(** ** Requests and responses *)

Inductive body :=
| BDict (d : gmap string pyval)
| BList (l : list string).

Record Response := { data : body; status : Z }.

Record Request := {
  req_data : gmap string pyval;
  req_keystone_user : gmap string pyval;
  REMOTE_ADDR : string;
}.

(** Truth value of a Python object. *)
Definition py_truthy (v : pyval) : bool :=
  match v with
  | VStr s => negb (bool_decide (s = ""))
  | VBool b => b
  | VList l => negb (bool_decide (l = []))
  | VInts l => negb (bool_decide (l = []))
  | VDict d => negb (bool_decide (d = ∅))
  | VUuid n => negb (bool_decide (n = 0%nat))
  end.

(** What [process_actions] returns: a dictionary that holds either the
    new registration, or the per-field errors of the serializers, or the
    one-line server error. *)
Inductive processed :=
| ProcRegistration (registration : Registration)
| ProcFieldErrors (errors : gmap string (list string))
| ProcServerError (errors : list string).

(** An action object bound to its row. *)
Record BoundAction (KS : Type) := {
  ba_id : nat;
  ba_obj : ActionObject KS;
}.
Arguments ba_id {KS} _.
Arguments ba_obj {KS} _.

(** ** The engine's primitives: model managers and the lifecycle calls *)
Section Engine.
Context {KS : Type} `{!Env KS}.

Abbreviation W := (World KS).

(** [timezone.now()] *)
Definition now : M W Z :=
  λ w, (Ok (timezone_now (ticks w)), with_ticks (S (ticks w)) w).

Definition timedelta_hours (h : Z) : Z := h * 3600.

(** [uuid4().hex] *)
Definition uuid4_hex : M W nat :=
  λ w, (Ok (uuids w), with_uuids (S (uuids w)) w).

Definition logger_log (level text : string) : M W unit :=
  modify (with_logger (λ l, l ++ [{| log_level := level; log_text := text |}])).

(** [self.logger.critical(("(%s) - Exception escaped! %s\n" + "Trace:
    \n%s") % (timezone.now(), e, trace))] *)
Definition logger_critical_escaped (e : exn) : M W unit :=
  _ ← now;
  logger_log "CRITICAL" ("Exception escaped! " +:+ exn_str e).

(** [self.logger.info("(%s) - ..." % timezone.now())] *)
Definition logger_info (text : string) : M W unit :=
  _ ← now;
  logger_log "INFO" text.

(** [Registration.objects.create(...)]: the defaults draw the uuid, then
    read the clock. *)
Definition Registration_objects_create (ip : string)
    (ku : gmap string pyval) (view : string) : M W Registration :=
  u ← uuid4_hex;
  t ← now;
  let r := {| uuid := u; reg_ip := ip; keystone_user := ku;
              reg_notes := ∅; reg_errors := ∅;
              approved := false; completed := false;
              reg_created := t; approved_on := None; completed_on := None;
              action_view := view |} in
  _ ← modify (with_registrations (<[u := r]>));
  ret r.

(** [Registration.objects.get(uuid=uuid)], [None] for [DoesNotExist]. *)
Definition Registration_objects_get (u : nat) : M W (option Registration) :=
  gets (λ w, registrations w !! u).

(** [registration.save()] *)
Definition Registration_save (r : Registration) : M W unit :=
  modify (with_registrations (<[uuid r := r]>)).

(** [Action.objects.create(...)] *)
Definition Action_objects_create (name : string) (d : gmap string string)
    (registration : nat) (i : Z) : M W Action :=
  t ← now;
  n ← gets (λ w, length (actions w));
  let a := {| act_id := n; action_name := name; action_data := d;
              cache := ∅; state := "default"; valid := false;
              need_token := true; act_registration := registration;
              order := i; act_created := t |} in
  _ ← modify (with_actions (λ l, l ++ [a]));
  ret a.

(** [action.save()] for a row of the table. *)
Definition Action_save (a : Action) : M W unit :=
  modify (with_actions (<[act_id a := a]>)).

Definition order_le (a b : Action) : Prop := (order a ≤ order b)%Z.
Global Instance order_le_dec a b : Decision (order_le a b).
Proof. unfold order_le. apply _. Defined.

(** [registration.actions]: [self.action_set.order_by('order')] *)
Definition registration_actions (u : nat) : M W (list Action) :=
  gets (λ w, merge_sort order_le
               (filter (λ a, act_registration a = u) (actions w))).

(** [Action.get_action]:
    [settings.ACTION_CLASSES[self.action_name][0](data=data,
    action_model=self)] *)
Definition get_action (row : Action) : M W (BoundAction KS) :=
  entry ← getitem ACTION_CLASSES (action_name row);
  obj ← lift_result (cls_new (fst entry) (action_data row));
  ret {| ba_id := act_id row; ba_obj := obj |}.

(** [cls(data=data, registration=registration, order=i)]: the fields are
    copied first, then the row is created. *)
Definition new_action (cls : ActionClass KS) (d : gmap string string)
    (registration : Registration) (i : Z) : M W (BoundAction KS) :=
  obj ← lift_result (cls_new cls d);
  row ← Action_objects_create (cls_name cls) d (uuid registration) i;
  ret {| ba_id := act_id row; ba_obj := obj |}.

(** Run a method of an action object on its row: the method sees the
    row, the row's registration, the backend and the class-level
    registration cache, and what it leaves behind is stored, whether it
    returns or raises. *)
Definition run_method {A} (pk : nat) (m : Act KS A) : M W A :=
  λ w, match actions w !! pk with
       | None => (Raise (DoesNotExist "Action"), w)
       | Some row =>
           let st := {| st_action := row;
                        st_registration :=
                          registrations w !! act_registration row;
                        st_ks := ks w;
                        st_registration_cache := registration_cache w |} in
           let '(r, st') := m st in
           (r, with_backend (st_ks st') (st_registration_cache st')
                 (with_actions (<[pk := st_action st']>) w))
       end.

(** [BaseAction.pre_approve], [post_approve] and [submit]. *)
Definition pre_approve (a : BoundAction KS) : M W (list string) :=
  _ ← modify (with_calls (λ l, l ++ [CallPreApprove (ba_id a)]));
  run_method (ba_id a) (obj_pre_approve (ba_obj a)).

Definition post_approve (a : BoundAction KS) : M W (list string) :=
  _ ← modify (with_calls (λ l, l ++ [CallPostApprove (ba_id a)]));
  run_method (ba_id a) (obj_post_approve (ba_obj a)).

Definition submit (a : BoundAction KS) (token_data : gmap string pyval)
    : M W (list string) :=
  _ ← modify (with_calls (λ l, l ++ [CallSubmit (ba_id a) token_data]));
  run_method (ba_id a) (obj_submit (ba_obj a) token_data).

(** [action.valid] and [action.need_token] read off the row. *)
Definition action_valid (a : BoundAction KS) : M W bool :=
  gets (λ w, from_option valid false (actions w !! ba_id a)).
Definition action_need_token (a : BoundAction KS) : M W bool :=
  gets (λ w, from_option need_token true (actions w !! ba_id a)).

(** [create_notification(registration, notes)] *)
Definition create_notification (registration : Registration)
    (notes : gmap string pyval) : M W unit :=
  t ← now;
  modify (with_notifications
            (λ l, l ++ [{| ntf_notes := notes;
                           ntf_registration := uuid registration;
                           ntf_created := t; acknowledged := false |}])).

(** [Token.objects.get(token=id)], [None] for [DoesNotExist]. *)
Definition Token_objects_get (id : nat) : M W (option Token) :=
  gets (λ w, tokens w !! id).

(** [token.delete()] *)
Definition Token_delete (t : Token) : M W unit :=
  modify (with_tokens (delete (token t))).

(** [token.registration] *)
Definition token_registration (t : Token) : M W Registration :=
  r ← Registration_objects_get (tok_registration t);
  match r with
  | Some r => ret r
  | None => raise (DoesNotExist "Registration")
  end.

(** [create_token(registration)]: the expiry is computed first, then the
    token string is drawn, then the row is created (its [created] default
    reads the clock again). *)
Definition create_token (registration : Registration) : M W Token :=
  t ← now;
  let expire := t + timedelta_hours 24 in
  u ← uuid4_hex;
  c ← now;
  let tok := {| tok_registration := uuid registration; token := u;
                tok_created := c; expires := expire |} in
  _ ← modify (with_tokens (<[u := tok]>));
  ret tok.

(** The notes of a failed step:
    [{'errors': [(fmt) % e], 'registration': registration.uuid}] *)
Definition error_notes (fmt : string) (e : exn) (registration : Registration)
    : M W (gmap string pyval) :=
  msg ← lift_result (py_format fmt [exn_str e]);
  ret (<["errors" := VList [msg]]>
       (<["registration" := VUuid (uuid registration)]> ∅)).

Definition server_error : list string :=
  ["Error: Something went wrong on the server. " +:+
   "It will be looked into shortly."].

(** *** Text that the two generations of the views share verbatim *)

Definition field_errors_response (errors : gmap string (list string))
    : Response :=
  {| data := BDict (VList <$> errors); status := 400 |}.

(** [set(v)] *)
Definition py_set (v : pyval) : M W (list string) :=
  match v with
  | VList l => ret l
  | VStr s => ret ((λ c, String c EmptyString) <$> list_ascii_of_string s)
  | VInts _ => ret []
  | VDict d => ret (elements (dom d))
  | VBool _ => raise (TypeError "'bool' object is not iterable")
  | VUuid _ => raise (TypeError "'int' object is not iterable")
  end.

(** One entry of [act_list]. *)
Record ActEntry := {
  ae_name : string;
  ae_action : ActionClass KS;
  ae_serializer : option serializer;
}.

(** The first loop of [process_actions] (and of [RegistrationDetail.put]):
    resolve each action and run its serializer on the request data. *)
Definition run_serializers (names : list string) (request : Request)
    : M W (list ActEntry * bool) :=
  foldM names ([], true)
    (λ action '(act_list, valid),
       entry ← getitem ACTION_CLASSES action;
       let serializer := (λ f : Serializer, f (req_data request)) <$> snd entry in
       ret (act_list ++ [{| ae_name := action; ae_action := fst entry;
                            ae_serializer := serializer |}],
            match serializer with
            | Some s => if is_valid s then valid else false
            | None => valid
            end)).

(** [errors = {}; for act in act_list: errors.update(serializer.errors)] *)
Definition collect_errors (sers : list (option serializer))
    : gmap string (list string) :=
  foldl (λ errors ser,
           match ser with
           | Some s => serializer_errors s ∪ errors
           | None => errors
           end) ∅ sers.

Definition entry_data (ser : option serializer) : gmap string string :=
  match ser with
  | Some s => validated_data s
  | None => ∅
  end.

(** The first loop of [ActionView.approve]: wrap the rows and check the
    [valid] flags left by [pre_approve]. *)
Definition wrap_actions (rows : list Action)
    : M W (list (BoundAction KS) * bool) :=
  foldM rows ([], true)
    (λ action '(acts, valid),
       act ← get_action action;
       v ← action_valid act;
       ret (acts ++ [act], if v : bool then valid else false)).

(** The second loop of [ActionView.approve]: [post_approve] on every
    action; the locals are [(valid, need_token)]. *)
Definition post_approve_all (acts : list (BoundAction KS))
    (failed : exn → M W Response) : M W (bool * bool + Response) :=
  for_ acts (true, false)
    (λ action '(valid, need_token),
       r ← try_except (_ ← post_approve action; ret None)
                      (λ e, resp ← failed e; ret (Some resp));
       match r with
       | Some resp => ret (inr resp)
       | None =>
           v ← action_valid action;
           nt ← action_need_token action;
           ret (inl (if v : bool then valid else false,
                     if nt : bool then true else need_token))
       end).

(** The loop of [RegistrationDetail.post]: wrap each row and run its
    [post_approve]; the locals are [(actions, valid, need_token)]. *)
Definition post_approve_rows (rows : list Action)
    (failed : exn → M W Response)
    : M W (list (BoundAction KS) * bool * bool + Response) :=
  for_ rows ([], true, false)
    (λ action '(acts, valid, need_token),
       act_model ← get_action action;
       r ← try_except (_ ← post_approve act_model; ret None)
                      (λ e, resp ← failed e; ret (Some resp));
       match r with
       | Some resp => ret (inr resp)
       | None =>
           v ← action_valid act_model;
           nt ← action_need_token act_model;
           ret (inl (acts ++ [act_model],
                     if v : bool then valid else false,
                     if nt : bool then true else need_token))
       end).

(** [for field in fields: if field not in l: l.append(field)] *)
Fixpoint list_union (l : list string) (fields : list string) : list string :=
  match fields with
  | [] => l
  | f :: fields' =>
      list_union (if bool_decide (f ∈ l) then l else l ++ [f]) fields'
  end.

(** [for field in required_fields: try: data[field] =
    request.data[field] except KeyError: errors[field] = [...]] *)
Definition collect_fields (required_fields : gset string)
    (request_data : gmap string pyval)
    : gmap string pyval * gmap string (list string) :=
  foldl (λ '(data_, errors) field,
           match request_data !! field with
           | Some v => (<[field := v]> data_, errors)
           | None => (data_, <[field := ["This field is required."]]> errors)
           end) (∅, ∅) (elements required_fields).

(** [errors = processed.get('errors', None); if errors: return
    Response(errors, status=400)]: the response, when there is one. *)
Definition processed_errors (p : processed) : option Response :=
  match p with
  | ProcRegistration _ => None
  | ProcFieldErrors errors =>
      if bool_decide (errors = ∅) then None
      else Some (field_errors_response errors)
  | ProcServerError errors =>
      if bool_decide (errors = []) then None
      else Some {| data := BList errors; status := 400 |}
  end.

(** [processed['registration']] *)
Definition processed_registration (p : processed) : M W Registration :=
  match p with
  | ProcRegistration registration => ret registration
  | _ => raise (KeyError "registration")
  end.

End Engine.

(** ** The views of [stacktask/api/v1/views.py] *)
Module StackTask.
Section Views.
Context {KS : Type} `{!Env KS}.

Abbreviation W := (World KS).

Definition Response_ (d : gmap string pyval) (s : Z) : Response :=
  {| data := BDict d; status := s |}.

Definition authenticated (request : Request) : bool :=
  from_option py_truthy false (req_keystone_user request !! "authenticated").

Definition request_roles (request : Request) : pyval :=
  default (VList []) (req_keystone_user request !! "roles").

(** The [@admin_or_owner] decorator. *)
Definition admin_or_owner (func : Request → M W Response) (request : Request)
    : M W Response :=
  let req_roles := ["admin"; "project_owner"; "project_mod"] in
  if negb (authenticated request) then
    ret (Response_ {["errors" := VList ["Credentials incorrect or none given."]]}
                   401)
  else
    roles ← py_set (request_roles request);
    if bool_decide (Exists (λ r, r ∈ req_roles) roles) then func request
    else
      msg ← lift_result (py_format "Must have one of the following roles: %s"
                                   [str_list req_roles]);
      ret (Response_ {["errors" := VList [msg]]} 403).

(** The [@admin] decorator. *)
Definition admin (func : Request → M W Response) (request : Request)
    : M W Response :=
  if negb (authenticated request) then
    ret (Response_ {["errors" := VList ["Credentials incorrect or none given."]]}
                   401)
  else
    is_admin ← py_in "admin" (request_roles request);
    if is_admin : bool then func request
    else ret (Response_ {["errors" := VList ["Must be admin."]]} 403).

(** [send_email(registration, email_conf, token=None)] *)
Definition send_email (registration : Registration)
    (email_conf : option (gmap string string)) (token_ : option Token)
    : M W unit :=
  match email_conf with
  | None => ret tt
  | Some conf =>
      if bool_decide (conf = ∅) then ret tt
      else
        template ← getitem conf "template";
        _ ← lift_result (loader_get_template template);
        html_template ← getitem conf "html_template";
        _ ← lift_result (loader_get_template html_template);
        rows ← registration_actions (uuid registration);
        found ← foldM rows ((∅ : gset string), [])
          (λ action '(emails, acts),
             act ← get_action action;
             email ← match obj_get_email (ba_obj act) with
                     | Some email => ret email
                     | None =>
                         raise (AttributeError
                                  ("'" +:+ obj_unicode (ba_obj act) +:+
                                   "' object has no attribute 'get_email'"))
                     end;
             match email with
             | Some email =>
                 if bool_decide (email = "") then ret (emails, acts)
                 else ret ({[email]} ∪ emails,
                           acts ++ [obj_unicode (ba_obj act)])
             | None => ret (emails, acts)
             end);
        let '(emails, acts) := found in
        if bool_decide (1 < size emails)%nat then
          note ← lift_result
            (py_format ("Error: Unable to send token, More than one email for" +:+
                        " registration: %s") [pretty (uuid registration)]);
          create_notification registration {["notes" := VStr note]}
        else
          try_except_on is_SMTPException
            (message ← lift_result
               (template_render template (uuid registration) acts
                                (token <$> token_));
             html_message ← lift_result
               (template_render html_template (uuid registration) acts
                                (token <$> token_));
             subject ← getitem conf "subject";
             reply ← getitem conf "reply";
             recipient ← match elements emails with
                         | email :: _ => ret email
                         | [] => raise (KeyError "pop from an empty set")
                         end;
             lift_result (send_mail subject message reply recipient html_message))
            (λ e,
               note ← lift_result
                 (py_format "Error: '%s' while emailing token for registration: %s"
                            [exn_str e; pretty (uuid registration)]);
               create_notification registration {["notes" := VStr note]})
  end.

(** [settings.ACTIONVIEW_SETTINGS[view]['emails']['token']] *)
Definition token_email_conf (view : string) : M W (gmap string string) :=
  class_conf ← getitem ACTIONVIEW_SETTINGS view;
  emails ← match conf_emails class_conf with
           | Some emails => ret emails
           | None => raise (KeyError "emails")
           end;
  getitem emails "token".

(** [settings.ACTIONVIEW_SETTINGS.get(view, {}).get('emails',
    {}).get(kind, None)] *)
Definition optional_email_conf (view kind : string)
    : option (gmap string string) :=
  class_conf ← ACTIONVIEW_SETTINGS !! view;
  emails ← conf_emails class_conf;
  emails !! kind.

(** The [except KeyError] handler around the token e-mail. *)
Definition token_email_failed (registration : Registration) (e : exn)
    : M W Response :=
  notes ← error_notes
    ("Error: '%s' while sending " +:+ "token. See registration " +:+
     "itself for details.") e registration;
  _ ← create_notification registration notes;
  _ ← logger_critical_escaped e;
  ret (Response_ {["errors" := VList server_error]} 500).

(** The class of a view that starts a registration. *)
Record ActionView := { class_name : string; default_action : string }.

(** [actions = [self.default_action, ]; actions +=
    class_conf.get('actions', [])] *)
Definition view_actions (self : ActionView) : list string :=
  let class_conf := ACTIONVIEW_SETTINGS !! class_name self in
  default_action self :: default [] (class_conf ≫= conf_actions).

Definition process_actions (self : ActionView) (request : Request)
    : M W processed :=
  '(act_list, valid) ← run_serializers (view_actions self) request;
  if valid : bool then
    registration ← Registration_objects_create
      (REMOTE_ADDR request) (req_keystone_user request) (class_name self);
    r ← for_ (imap (λ i act, (Z.of_nat i, act)) act_list) tt
      (λ '(i, act) _,
         action ← new_action (ae_action act) (entry_data (ae_serializer act))
                             registration i;
         try_except (_ ← pre_approve action; ret (inl tt))
           (λ e,
              notes ← error_notes
                ("Error: '%s' while setting up registration. " +:+
                 "See registration itself for details.") e registration;
              _ ← create_notification registration notes;
              _ ← logger_critical_escaped e;
              ret (inr server_error)));
    match r with
    | inr errors => ret (ProcServerError errors)
    | inl _ =>
        _ ← send_email registration
              (optional_email_conf (class_name self) "initial") None;
        ret (ProcRegistration registration)
    end
  else
    ret (ProcFieldErrors (collect_errors (ae_serializer <$> act_list))).

(** The loop [for action in actions: try: action.submit(data) except
    Exception as e: ...], with the response of the [except] branch. *)
Definition submit_all (acts : list (BoundAction KS))
    (token_data : gmap string pyval) (failed : exn → M W Response)
    : M W (unit + Response) :=
  for_ acts tt
    (λ action _,
       try_except (_ ← submit action token_data; ret (inl tt))
         (λ e, resp ← failed e; ret (inr resp))).

(** The [except] branch of a failed step that answers with the generic
    server error. *)
Definition step_failed_generic (fmt : string) (registration : Registration)
    (e : exn) : M W Response :=
  notes ← error_notes fmt e registration;
  _ ← create_notification registration notes;
  _ ← logger_critical_escaped e;
  ret (Response_ {["errors" := VList server_error]} 500).

(** The [except] branch of a failed step that answers with the notes. *)
Definition step_failed_notes (fmt : string) (registration : Registration)
    (e : exn) : M W Response :=
  notes ← error_notes fmt e registration;
  _ ← create_notification registration notes;
  _ ← logger_critical_escaped e;
  ret (Response_ notes 500).

Definition approving_fmt : string :=
  "Error: '%s' while approving registration. " +:+
  "See registration itself for details.".

Definition submitting_fmt : string :=
  "Error: '%s' while submitting " +:+ "registration. See registration " +:+
  "itself for details.".

(** The branch [if need_token: ...] of [approve] and of
    [RegistrationDetail.post]. *)
Definition issue_token (view : string) (registration : Registration)
    : M W Response :=
  tok ← create_token registration;
  try_except_on is_KeyError
    (email_conf ← token_email_conf view;
     _ ← send_email registration (Some email_conf) (Some tok);
     ret (Response_ {["notes" := VList ["created token"]]} 200))
    (token_email_failed registration).

(** The tail of the [else] branch: mark completed and send the
    confirmation e-mail. *)
Definition complete (view : string) (registration : Registration)
    (message : string) : M W Response :=
  t ← now;
  let registration := set_completed t registration in
  _ ← Registration_save registration;
  _ ← send_email registration (optional_email_conf view "completed") None;
  ret (Response_ {["notes" := VStr message]} 200).

Definition actions_invalid : Response :=
  Response_ {["errors" := VList ["actions invalid"]]} 400.

(** What [approve] and [RegistrationDetail.post] do once every action is
    valid: [if need_token: <token> else: <submit all, complete>]. *)
Definition finish (view : string) (registration : Registration)
    (acts : list (BoundAction KS)) (need_token : bool)
    (failed : exn → M W Response) : M W Response :=
  if need_token then issue_token view registration
  else
    r ← submit_all acts ∅ failed;
    match r with
    | inr resp => ret resp
    | inl _ =>
        complete view registration "Registration completed successfully."
    end.

Definition approve (self : ActionView) (registration : Registration)
    : M W Response :=
  t ← now;
  let registration := set_approved t registration in
  _ ← Registration_save registration;
  action_models ← registration_actions (uuid registration);
  '(acts, valid) ← wrap_actions action_models;
  if valid : bool then
    r ← post_approve_all acts
          (step_failed_generic approving_fmt registration);
    match r with
    | inr resp => ret resp
    | inl (valid, need_token) =>
        if valid : bool then
          finish (class_name self) registration acts need_token
                 (step_failed_generic submitting_fmt registration)
        else ret actions_invalid
    end
  else ret actions_invalid.

Definition already_completed : Response :=
  Response_ {["errors" :=
                VList ["This registration has already been completed."]]} 400.

Definition no_registration : Response :=
  Response_ {["errors" := VList ["No registration with this id."]]} 404.

(** [RegistrationDetail.put] *)
Definition RegistrationDetail_put_ (uuid_ : nat) (request : Request)
    : M W Response :=
  registration ← Registration_objects_get uuid_;
  match registration with
  | None => ret no_registration
  | Some registration =>
      if completed registration then ret already_completed
      else
        rows ← registration_actions (uuid registration);
        '(act_list, valid) ← foldM rows ([], true)
          (λ action '(act_list, valid),
             entry ← getitem ACTION_CLASSES (action_name action);
             let serializer :=
               (λ f : Serializer, f (req_data request)) <$> snd entry in
             ret (act_list ++ [(action, serializer)],
                  match serializer with
                  | Some s => if is_valid s then valid else false
                  | None => valid
                  end));
        if valid : bool then
          r ← for_ act_list tt
            (λ '(action, serializer) _,
               let action := with_action_data (entry_data serializer) action in
               _ ← Action_save action;
               try_except
                 (act ← get_action action;
                  _ ← pre_approve act;
                  ret (inl tt))
                 (λ e,
                    resp ← step_failed_generic
                      ("Error: '%s' while updating registration. " +:+
                       "See registration itself for details.") registration e;
                    ret (inr resp)));
          match r with
          | inr resp => ret resp
          | inl _ =>
              ret (Response_
                     {["notes" := VList ["Registration successfully updated."]]}
                     200)
          end
        else
          ret (Response_
                 {["errors" := VDict (collect_errors (snd <$> act_list))]} 400)
  end.

Definition RegistrationDetail_put (uuid_ : nat) : Request → M W Response :=
  admin (RegistrationDetail_put_ uuid_).

(** [RegistrationDetail.post] *)
Definition RegistrationDetail_post_ (uuid_ : nat) (request : Request)
    : M W Response :=
  registration ← Registration_objects_get uuid_;
  match registration with
  | None => ret no_registration
  | Some registration =>
      if bool_decide (req_data request !! "approved" = Some (VBool true)) then
        if completed registration then ret already_completed
        else
          rows ← registration_actions (uuid registration);
          r ← post_approve_rows rows
                (step_failed_notes approving_fmt registration);
          match r with
          | inr resp => ret resp
          | inl (acts, valid, need_token) =>
              if valid : bool then
                t ← now;
                let registration := set_approved t registration in
                _ ← Registration_save registration;
                finish (action_view registration) registration acts
                       need_token
                       (step_failed_notes submitting_fmt registration)
              else ret actions_invalid
          end
      else
        ret (Response_ {["approved" := VList ["this field is required."]]} 400)
  end.

Definition RegistrationDetail_post (uuid_ : nat) : Request → M W Response :=
  admin (RegistrationDetail_post_ uuid_).

(** Modelled from the spec: [Registration.tokens] is a property of
    [stacktask/api/models.py], which is not among the sources; "reissuing
    deletes prior tokens for that Task", so it is the Task's tokens. *)
Definition registration_tokens (registration : Registration)
    : M W (list Token) :=
  gets (λ w, filter (λ t, tok_registration t = uuid registration)
                    (snd <$> map_to_list (tokens w))).

(** [TokenList.post]: reissue a token. *)
Definition TokenList_post_ (request : Request) : M W Response :=
  match req_data request !! "registration" with
  | None =>
      ret (Response_ {["registration" := VList ["This field is required."]]}
                     400)
  | Some uuid_ =>
      registration ← match uuid_ with
                     | VUuid u => Registration_objects_get u
                     | _ => ret None
                     end;
      match registration with
      | None => ret no_registration
      | Some registration =>
          if negb (approved registration) then
            ret (Response_
                   {["errors" :=
                       VList ["This registration has not been approved."]]}
                   400)
          else
            toks ← registration_tokens registration;
            _ ← foldM toks tt (λ tok _, Token_delete tok);
            tok ← create_token registration;
            try_except_on is_KeyError
              (email_conf ← token_email_conf (action_view registration);
               _ ← send_email registration (Some email_conf) (Some tok);
               ret (Response_ {["notes" := VList ["Token reissued."]]} 200))
              (token_email_failed registration)
      end
  end.

Definition TokenList_post : Request → M W Response := admin TokenList_post_.

(** [TokenList.delete]: delete all expired tokens. *)
Definition TokenList_delete_ (request : Request) : M W Response :=
  t ← now;
  _ ← modify (with_tokens (filter (λ kt, ¬ (expires (snd kt) < t)%Z)));
  ret (Response_ {["notes" := VList ["Deleted all expired tokens."]]} 200).

Definition TokenList_delete : Request → M W Response :=
  admin TokenList_delete_.

Definition no_token : Response :=
  Response_ {["errors" := VList ["This token does not exist."]]} 404.

Definition token_expired : Response :=
  Response_ {["errors" := VList ["This token has expired."]]} 400.

(** The preconditions shared by [TokenDetail.get] and [TokenDetail.post];
    [inr] is the early response. *)
Definition check_token (id : nat) : M W (Token * Registration + Response) :=
  tok ← Token_objects_get id;
  match tok with
  | None => ret (inr no_token)
  | Some tok =>
      registration ← token_registration tok;
      if completed registration then ret (inr already_completed)
      else
        t ← now;
        if bool_decide (expires tok < t)%Z then
          _ ← Token_delete tok;
          ret (inr token_expired)
        else ret (inl (tok, registration))
  end.

(** [TokenDetail.get] *)
Definition TokenDetail_get (id : nat) (request : Request) : M W Response :=
  checked ← check_token id;
  match checked with
  | inr resp => ret resp
  | inl (tok, registration) =>
      rows ← registration_actions (uuid registration);
      '(required_fields, acts) ← foldM rows ([], [])
        (λ action '(required_fields, acts),
           act ← get_action action;
           ret (list_union required_fields (obj_token_fields (ba_obj act)),
                acts ++ [act]));
      ret (Response_
             (<["actions" := VList ((λ a, obj_unicode (ba_obj a)) <$> acts)]>
              {["required_fields" := VList required_fields]}) 200)
  end.

(** [TokenDetail.post] *)
Definition TokenDetail_post (id : nat) (request : Request) : M W Response :=
  checked ← check_token id;
  match checked with
  | inr resp => ret resp
  | inl (tok, registration) =>
      rows ← registration_actions (uuid registration);
      '(required_fields, acts) ← foldM rows ((∅ : gset string), [])
        (λ action '(required_fields, acts),
           act ← get_action action;
           ret (list_to_set (obj_token_fields (ba_obj act)) ∪ required_fields,
                acts ++ [act]));
      let '(data_, errors) := collect_fields required_fields (req_data request) in
      if negb (bool_decide (errors = ∅)) then ret (field_errors_response errors)
      else
        r ← submit_all acts data_
              (step_failed_generic
                 ("Error: '%s' while submitting registration. " +:+
                  "See registration itself for details.") registration);
        match r with
        | inr resp => ret resp
        | inl _ =>
            t ← now;
            let registration := set_completed t registration in
            _ ← Registration_save registration;
            _ ← Token_delete tok;
            _ ← send_email registration
                  (optional_email_conf (action_view registration) "completed")
                  None;
            ret (Response_ {["notes" := VStr "Token submitted successfully."]}
                           200)
        end
  end.

(** [NotificationList.post]: acknowledge notifications. *)
Definition NotificationList_post_ (request : Request) : M W Response :=
  match req_data request !! "notifications" with
  | Some (VInts (pk :: pks)) =>
      _ ← modify (with_notifications
                    (imap (λ i n, if bool_decide (i ∈ pk :: pks)
                                  then set_acknowledged n else n)));
      ret (Response_ {["notes" := VList ["Notifications acknowledged."]]} 200)
  | _ =>
      ret (Response_
             {["notifications" :=
                 VList ["this field is required" +:+ "needs to be a list."]]}
             400)
  end.

Definition NotificationList_post : Request → M W Response :=
  admin NotificationList_post_.

(** [NotificationDetail.post]: acknowledge one notification. *)
Definition NotificationDetail_post_ (pk : nat) (request : Request)
    : M W Response :=
  n ← gets (λ w, notifications w !! pk);
  match n with
  | None =>
      ret (Response_ {["errors" := VList ["No notification with this id."]]} 404)
  | Some n =>
      if bool_decide (req_data request !! "acknowledged" = Some (VBool true))
      then
        _ ← modify (with_notifications (<[pk := set_acknowledged n]>));
        ret (Response_ {["notes" := VList ["Notification acknowledged."]]} 200)
      else
        ret (Response_ {["acknowledged" := VList ["this field is required."]]}
                       400)
  end.

Definition NotificationDetail_post (pk : nat) : Request → M W Response :=
  admin (NotificationDetail_post_ pk).

Definition CreateProject : ActionView :=
  {| class_name := "CreateProject"; default_action := "NewProject" |}.
Definition AttachUser : ActionView :=
  {| class_name := "AttachUser"; default_action := "NewUser" |}.
Definition ResetPassword : ActionView :=
  {| class_name := "ResetPassword"; default_action := "ResetUser" |}.

Definition CreateProject_post (request : Request) : M W Response :=
  _ ← logger_info "Starting new project registration.";
  processed ← process_actions CreateProject request;
  match processed_errors processed with
  | Some resp =>
      _ ← logger_info "Validation errors with registration.";
      ret resp
  | None =>
      registration ← processed_registration processed;
      _ ← create_notification registration
            {["notes" := VList ["New registration for CreateProject."]]};
      _ ← logger_info "Registration created.";
      ret (Response_ {["notes" := VList ["registration created"]]} 200)
  end.

Definition AttachUser_post_ (request : Request) : M W Response :=
  _ ← logger_info "New AttachUser request.";
  processed ← process_actions AttachUser request;
  match processed_errors processed with
  | Some resp =>
      _ ← logger_info "Validation errors with registration.";
      ret resp
  | None =>
      registration ← processed_registration processed;
      _ ← logger_info "AutoApproving AttachUser request.";
      approve AttachUser registration
  end.

Definition AttachUser_post : Request → M W Response :=
  admin_or_owner AttachUser_post_.

Definition ResetPassword_post (request : Request) : M W Response :=
  _ ← logger_info "New ResetUser request.";
  processed ← process_actions ResetPassword request;
  match processed_errors processed with
  | Some resp =>
      _ ← logger_info "Validation errors with registration.";
      ret resp
  | None =>
      registration ← processed_registration processed;
      _ ← logger_info "AutoApproving Resetuser request.";
      approve ResetPassword registration
  end.

(** The endpoints that change the world, as the requests a client can
    send. *)
Inductive Endpoint :=
| POST_project
| POST_user
| POST_reset
| PUT_registration (uuid_ : nat)
| POST_registration (uuid_ : nat)
| POST_token_list
| DELETE_token_list
| GET_token (id : nat)
| POST_token (id : nat)
| POST_notification_list
| POST_notification (pk : nat).

Definition dispatch (e : Endpoint) : Request → M W Response :=
  match e with
  | POST_project => CreateProject_post
  | POST_user => AttachUser_post
  | POST_reset => ResetPassword_post
  | PUT_registration u => RegistrationDetail_put u
  | POST_registration u => RegistrationDetail_post u
  | POST_token_list => TokenList_post
  | DELETE_token_list => TokenList_delete
  | GET_token id => TokenDetail_get id
  | POST_token id => TokenDetail_post id
  | POST_notification_list => NotificationList_post
  | POST_notification pk => NotificationDetail_post pk
  end.

(** The worlds the service can be in: it starts with empty tables, serves
    requests one after the other (a response or an exception that escapes
    the view both leave their writes behind), and the identity backend
    may change in between. *)
Inductive reachable : W → Prop :=
| reachable_init k : reachable (empty_world k)
| reachable_request w e request :
    reachable w → reachable (snd (dispatch e request w))
| reachable_backend w k :
    reachable w → reachable (with_backend k (registration_cache w) w).

End Views.
End StackTask.

(** ** The views of [api_v1/views.py] *)
Module ApiV1.
Section Views.
Context {KS : Type} `{!Env KS}.

Abbreviation W := (World KS).

Definition Response_ (d : gmap string pyval) (s : Z) : Response :=
  {| data := BDict d; status := s |}.

Definition request_roles (request : Request) : pyval :=
  default (VList []) (req_keystone_user request !! "roles").

(** The [@admin_or_owner] decorator. *)
Definition admin_or_owner (func : Request → M W Response) (request : Request)
    : M W Response :=
  let req_roles := ["admin"; "project_owner"] in
  roles ← py_set (request_roles request);
  if bool_decide (Exists (λ r, r ∈ req_roles) roles) then func request
  else
    msg ← lift_result (py_format "Must have one of the following roles: %s"
                                 [str_list req_roles]);
    ret (Response_ {["notes" := VList [msg]]} 403).

(** The [@admin] decorator. *)
Definition admin (func : Request → M W Response) (request : Request)
    : M W Response :=
  is_admin ← py_in "admin" (request_roles request);
  if is_admin : bool then func request
  else ret (Response_ {["notes" := VList ["Must be admin."]]} 403).

(** The [except] branch of a failed step: notify and answer with the
    notes. *)
Definition step_failed (fmt : string) (registration : Registration) (e : exn)
    : M W Response :=
  notes ← error_notes fmt e registration;
  _ ← create_notification registration notes;
  ret (Response_ notes 500).

Definition approving_fmt : string :=
  "Error: '%s' while approving registration. " +:+
  "See registration itself for details.".

Definition submitting_fmt : string :=
  "Error: '%s' while submitting " +:+ "registration. See registration " +:+
  "itself for details.".

Definition actions_invalid : Response :=
  Response_ {["notes" := VList ["actions invalid"]]} 400.

Definition no_registration : Response :=
  Response_ {["notes" := VList ["No registration with this id."]]} 404.

Definition already_completed : Response :=
  Response_ {["notes" :=
                VList ["This registration has already been completed."]]} 400.

(** The loop [for action in actions: try: action.submit(data) except
    Exception as e: ...]. *)
Definition submit_all (acts : list (BoundAction KS))
    (token_data : gmap string pyval) (registration : Registration)
    (fmt : string) : M W (unit + Response) :=
  for_ acts tt
    (λ action _,
       try_except (_ ← submit action token_data; ret (inl tt))
         (λ e, resp ← step_failed fmt registration e; ret (inr resp))).

(** The branch taken once every action is valid: a token, or the
    submission and the completion. *)
Definition finish (registration : Registration)
    (acts : list (BoundAction KS)) (need_token : bool) : M W Response :=
  if need_token then
    _ ← create_token registration;
    ret (Response_ {["notes" := VList ["created token"]]} 200)
  else
    r ← submit_all acts ∅ registration submitting_fmt;
    match r with
    | inr resp => ret resp
    | inl _ =>
        t ← now;
        let registration := set_completed t registration in
        _ ← Registration_save registration;
        ret (Response_
               {["notes" := VStr "Registration completed successfully."]} 200)
    end.

(** [RegistrationDetail.post] *)
Definition RegistrationDetail_post_ (uuid_ : nat) (request : Request)
    : M W Response :=
  registration ← Registration_objects_get uuid_;
  match registration with
  | None => ret no_registration
  | Some registration =>
      if bool_decide (req_data request !! "approved" = Some (VBool true)) then
        if completed registration then ret already_completed
        else
          t ← now;
          let registration := set_approved t registration in
          _ ← Registration_save registration;
          rows ← registration_actions (uuid registration);
          r ← post_approve_rows rows (step_failed approving_fmt registration);
          match r with
          | inr resp => ret resp
          | inl (acts, valid, need_token) =>
              if valid : bool then finish registration acts need_token
              else ret actions_invalid
          end
      else
        ret (Response_ {["approved" := VList ["this field is required."]]} 400)
  end.

Definition RegistrationDetail_post (uuid_ : nat) : Request → M W Response :=
  admin (RegistrationDetail_post_ uuid_).

Definition no_token : Response :=
  Response_ {["notes" := VList ["This token does not exist."]]} 404.

Definition token_expired : Response :=
  Response_ {["notes" := VList ["This token has expired."]]} 400.

(** The preconditions shared by [TokenDetail.get] and [TokenDetail.post];
    [inr] is the early response. *)
Definition check_token (id : nat) : M W (Token + Response) :=
  tok ← Token_objects_get id;
  match tok with
  | None => ret (inr no_token)
  | Some tok =>
      t ← now;
      if bool_decide (expires tok < t)%Z then
        _ ← Token_delete tok;
        ret (inr token_expired)
      else ret (inl tok)
  end.

(** [TokenDetail.get] *)
Definition TokenDetail_get (id : nat) (request : Request) : M W Response :=
  checked ← check_token id;
  match checked with
  | inr resp => ret resp
  | inl tok =>
      registration ← token_registration tok;
      rows ← registration_actions (uuid registration);
      '(required_fields, acts) ← foldM rows ([], [])
        (λ action '(required_fields, acts),
           act ← get_action action;
           ret (list_union required_fields
                  (obj_token_fields (ba_obj act)),
                acts ++ [act]));
      ret (Response_
             (<["actions" := VList ((λ a, obj_unicode (ba_obj a)) <$> acts)]>
              {["required_fields" := VList required_fields]}) 200)
  end.

(** [TokenDetail.post] *)
Definition TokenDetail_post (id : nat) (request : Request) : M W Response :=
  checked ← check_token id;
  match checked with
  | inr resp => ret resp
  | inl tok =>
      registration ← token_registration tok;
      rows ← registration_actions (uuid registration);
      '(required_fields, acts) ← foldM rows ((∅ : gset string), [])
        (λ action '(required_fields, acts),
           act ← get_action action;
           ret (list_to_set (obj_token_fields (ba_obj act)) ∪ required_fields,
                acts ++ [act]));
      let '(data_, errors) :=
        collect_fields required_fields (req_data request) in
      if negb (bool_decide (errors = ∅)) then
        ret (Response_ (VList <$> errors) 400)
      else
        r ← submit_all acts data_ registration
              ("Error: '%s' while submitting registration. " +:+
               "See registration itself for details.");
        match r with
        | inr resp => ret resp
        | inl _ =>
            t ← now;
            let registration := set_completed t registration in
            _ ← Registration_save registration;
            _ ← Token_delete tok;
            ret (Response_ {["notes" := VStr "Token submitted successfully."]}
                           200)
        end
  end.

(** The class of a view that starts a registration. *)
Record ActionView := { class_name : string; default_action : string }.

(** [actions = [self.default_action, ]; actions +=
    settings.API_ACTIONS.get(self.__class__.__name__, [])] *)
Definition view_actions (self : ActionView) : list string :=
  default_action self :: default [] (API_ACTIONS !! class_name self).

Definition process_actions (self : ActionView) (request : Request)
    : M W processed :=
  '(act_list, valid) ← run_serializers (view_actions self) request;
  if valid : bool then
    registration ← Registration_objects_create
      (REMOTE_ADDR request) (req_keystone_user request) "";
    r ← for_ (imap (λ i act, (Z.of_nat i, act)) act_list) tt
      (λ '(i, act) _,
         action ← new_action (ae_action act)
                    (entry_data (ae_serializer act))
                    registration i;
         try_except (_ ← pre_approve action; ret (inl tt))
           (λ e,
              notes ← error_notes
                ("Error: '%s' while setting up registration. " +:+
                 "See registration itself for details.") e registration;
              _ ← create_notification registration notes;
              ret (inr server_error)));
    match r with
    | inr errors => ret (ProcServerError errors)
    | inl _ => ret (ProcRegistration registration)
    end
  else
    ret (ProcFieldErrors
           (collect_errors (ae_serializer <$> act_list))).

Definition approve (registration : Registration) : M W Response :=
  t ← now;
  let registration := set_approved t registration in
  _ ← Registration_save registration;
  action_models ← registration_actions (uuid registration);
  '(acts, valid) ← wrap_actions action_models;
  if valid : bool then
    r ← post_approve_all acts (step_failed approving_fmt registration);
    match r with
    | inr resp => ret resp
    | inl (valid, need_token) =>
        if valid : bool then finish registration acts need_token
        else ret actions_invalid
    end
  else ret actions_invalid.

Definition CreateProject : ActionView :=
  {| class_name := "CreateProject"; default_action := "NewProject" |}.
Definition AttachUser : ActionView :=
  {| class_name := "AttachUser"; default_action := "NewUser" |}.
Definition ResetPassword : ActionView :=
  {| class_name := "ResetPassword"; default_action := "ResetUser" |}.

Definition CreateProject_post (request : Request) : M W Response :=
  processed ← process_actions CreateProject request;
  match processed_errors processed with
  | Some resp => ret resp
  | None =>
      registration ← processed_registration processed;
      _ ← create_notification registration
            {["notes" := VList ["New registration for CreateProject."]]};
      ret (Response_ {["notes" := VList ["registration created"]]} 200)
  end.

Definition AttachUser_post_ (request : Request) : M W Response :=
  processed ← process_actions AttachUser request;
  match processed_errors processed with
  | Some resp => ret resp
  | None =>
      registration ← processed_registration processed;
      approve registration
  end.

Definition AttachUser_post : Request → M W Response :=
  admin_or_owner AttachUser_post_.

Definition ResetPassword_post (request : Request) : M W Response :=
  processed ← process_actions ResetPassword request;
  match processed_errors processed with
  | Some resp => ret resp
  | None =>
      registration ← processed_registration processed;
      approve registration
  end.

Inductive Endpoint :=
| POST_project
| POST_user
| POST_reset
| POST_registration (uuid_ : nat)
| GET_token (id : nat)
| POST_token (id : nat).

Definition dispatch (e : Endpoint) : Request → M W Response :=
  match e with
  | POST_project => CreateProject_post
  | POST_user => AttachUser_post
  | POST_reset => ResetPassword_post
  | POST_registration u => RegistrationDetail_post u
  | GET_token id => TokenDetail_get id
  | POST_token id => TokenDetail_post id
  end.

Inductive reachable : W → Prop :=
| reachable_init k : reachable (empty_world k)
| reachable_request w e request :
    reachable w → reachable (snd (dispatch e request w))
| reachable_backend w k :
    reachable w → reachable (with_backend k (registration_cache w) w).

End Views.
End ApiV1.

(** ** A test bench

    An in-memory identity backend in the manner of the [FakeManager] of the
    test-suite, serializers that require their fields, and settings for
    the three views.  The closed examples below run on it. *)
Module Bench.

Record FakeKS := {
  fk_users : list (User * pyval);
  fk_projects : list Project;
  fk_roles : list Role;
  fk_grants : list (string * string * string);
  fk_down : option string;
}.

Definition fk_with_users (f : list (User * pyval) → list (User * pyval))
    (k : FakeKS) : FakeKS :=
  {| fk_users := f (fk_users k); fk_projects := fk_projects k;
     fk_roles := fk_roles k; fk_grants := fk_grants k; fk_down := fk_down k |}.

Definition fk_with_projects (f : list Project → list Project) (k : FakeKS)
    : FakeKS :=
  {| fk_users := fk_users k; fk_projects := f (fk_projects k);
     fk_roles := fk_roles k; fk_grants := fk_grants k; fk_down := fk_down k |}.

Definition fk_with_grants
    (f : list (string * string * string) → list (string * string * string))
    (k : FakeKS) : FakeKS :=
  {| fk_users := fk_users k; fk_projects := fk_projects k;
     fk_roles := fk_roles k; fk_grants := f (fk_grants k);
     fk_down := fk_down k |}.

(** Every call fails while the backend is down. *)
Definition fk_call {A} (m : M FakeKS A) : M FakeKS A :=
  λ k, match fk_down k with
       | Some msg => (Raise (ClientException msg), k)
       | None => m k
       end.

Definition fk_find_user (name : string) : M FakeKS (option User) :=
  fk_call (gets (λ k, (λ r, fst (snd r)) <$>
                      list_find (λ u, usr_name (fst u) = name) (fk_users k))).

Definition fk_create_user (name : string) (password : pyval)
    (email project_id : string) : M FakeKS User :=
  fk_call
    (existing ← gets (λ k, list_find (λ u, usr_name (fst u) = name)
                                     (fk_users k));
     match existing with
     | Some _ => raise (ClientException "Conflict occurred attempting to store user")
     | None =>
         n ← gets (λ k, length (fk_users k));
         let u := {| usr_id := "user_id_" +:+ pretty n; usr_name := name;
                     usr_email := email |} in
         _ ← modify (fk_with_users (λ l, l ++ [(u, password)]));
         ret u
     end).

Definition fk_update_user_password (user : option User) (password : pyval)
    : M FakeKS unit :=
  fk_call
    match user with
    | None => raise (ClientException "Could not find user: None")
    | Some u =>
        modify (fk_with_users
                  (fmap (λ up, if bool_decide (usr_id (fst up) = usr_id u)
                               then (fst up, password) else up)))
    end.

Definition fk_find_role (name : string) : M FakeKS (option Role) :=
  fk_call (gets (λ k, snd <$> list_find (λ r, role_name r = name)
                                        (fk_roles k))).

Definition fk_add_user_role (user : option User) (role : option Role)
    (project : option string) : M FakeKS unit :=
  fk_call
    match user, role, project with
    | Some u, Some r, Some p =>
        modify (fk_with_grants
                  (λ l, if bool_decide ((usr_id u, role_name r, p) ∈ l)
                        then l else l ++ [(usr_id u, role_name r, p)]))
    | _, _, _ => raise (ClientException "Could not grant role")
    end.

Definition fk_find_project (name : string) : M FakeKS (option Project) :=
  fk_call (gets (λ k, snd <$> list_find (λ p, prj_name p = name)
                                        (fk_projects k))).

Definition fk_get_project (id : string) : M FakeKS (option Project) :=
  fk_call (gets (λ k, snd <$> list_find (λ p, prj_id p = id)
                                        (fk_projects k))).

Definition fk_create_project (name : string) : M FakeKS Project :=
  fk_call
    (existing ← gets (λ k, list_find (λ p, prj_name p = name) (fk_projects k));
     match existing with
     | Some _ =>
         raise (ClientException "Conflict occurred attempting to store project")
     | None =>
         n ← gets (λ k, length (fk_projects k));
         let p := {| prj_id := "project_id_" +:+ pretty n; prj_name := name |} in
         _ ← modify (fk_with_projects (λ l, l ++ [p]));
         ret p
     end).

Global Instance FakeManager : IdentityManager FakeKS := {|
  find_user := fk_find_user;
  create_user := fk_create_user;
  update_user_password := fk_update_user_password;
  find_role := fk_find_role;
  add_user_role := fk_add_user_role;
  find_project := fk_find_project;
  get_project := fk_get_project;
  create_project := fk_create_project;
|}.

(** A serializer that requires the given fields to be strings. *)
Definition is_str (v : option pyval) : bool :=
  match v with
  | Some (VStr _) => true
  | _ => false
  end.

Definition require_fields (fields : list string) : Serializer :=
  λ request_data,
    let missing := filter (λ f, is_str (request_data !! f) = false) fields in
    match missing with
    | [] =>
        SerValid (list_to_map
                    (omap (λ f, match request_data !! f with
                                | Some (VStr s) => Some (f, s)
                                | _ => None
                                end) fields))
    | _ :: _ =>
        SerInvalid (list_to_map
                      ((λ f, (f, ["This field is required."])) <$> missing))
    end.

(** No e-mail template is configured: the token e-mail of every view is
    the empty configuration, which [send_email] skips. *)
Definition bench_conf : ClassConf :=
  {| conf_actions := None; conf_emails := Some {["token" := ∅]} |}.

Global Instance bench_env : Env FakeKS := {|
  timezone_now := λ k, 1000 + Z.of_nat k;
  ACTION_CLASSES :=
    action_classes false
      (require_fields ["username"; "email"; "project_id"; "role"])
      (require_fields ["project_name"; "username"; "email"])
      (require_fields ["username"; "email"]);
  API_ACTIONS := ∅;
  ACTIONVIEW_SETTINGS :=
    <["CreateProject" := bench_conf]>
    (<["AttachUser" := bench_conf]> {["ResetPassword" := bench_conf]});
  loader_get_template := λ _, Ok tt;
  template_render := λ _ _ _ _, Ok "";
  send_mail := λ _ _ _ _ _, Ok tt;
|}.

Definition roles_fixture : list Role :=
  [{| role_id := "r0"; role_name := "Member" |};
   {| role_id := "r1"; role_name := "project_owner" |};
   {| role_id := "r2"; role_name := "_member_" |}].

Definition empty_backend : FakeKS :=
  {| fk_users := []; fk_projects := []; fk_roles := roles_fixture;
     fk_grants := []; fk_down := None |}.

Definition alice : User :=
  {| usr_id := "user_id_0"; usr_name := "alice";
     usr_email := "alice@example.com" |}.

(** A backend that knows [alice]. *)
Definition backend_with_alice : FakeKS :=
  {| fk_users := [(alice, VStr "old_password")]; fk_projects := [];
     fk_roles := roles_fixture; fk_grants := []; fk_down := None |}.

Definition anonymous (d : gmap string pyval) : Request :=
  {| req_data := d; req_keystone_user := ∅; REMOTE_ADDR := "10.0.0.1" |}.

Definition as_admin (d : gmap string pyval) : Request :=
  {| req_data := d;
     req_keystone_user :=
       <["authenticated" := VBool true]>
       (<["roles" := VList ["admin"; "_member_"]]>
       {["project_id" := VStr "admin_project_id"]});
     REMOTE_ADDR := "10.0.0.2" |}.

Definition new_project_data : gmap string pyval :=
  <["project_name" := VStr "test_project"]>
  (<["username" := VStr "alice"]> {["email" := VStr "alice@example.com"]}).

Definition reset_data (email : string) : gmap string pyval :=
  <["username" := VStr "alice"]> {["email" := VStr email]}.

Definition approved_data : gmap string pyval := {["approved" := VBool true]}.

(** The world a request leaves behind. *)
Definition after {A} (m : M (World FakeKS) A) (w : World FakeKS)
    : World FakeKS := snd (m w).

(** A backend that knows [alice] and the project of [new_project_data]. *)
Definition test_project : Project :=
  {| prj_id := "project_id_0"; prj_name := "test_project" |}.

Definition backend_with_project : FakeKS :=
  fk_with_projects (λ _, [test_project]) backend_with_alice.

(** A backend that knows [alice] under another e-mail address. *)
Definition backend_with_other_alice : FakeKS :=
  {| fk_users := [({| usr_id := "user_id_0"; usr_name := "alice";
                      usr_email := "alice@elsewhere.example" |},
                   VStr "old_password")];
     fk_projects := []; fk_roles := roles_fixture; fk_grants := [];
     fk_down := None |}.

(** The backend [k], unreachable. *)
Definition backend_down (msg : string) (k : FakeKS) : FakeKS :=
  {| fk_users := fk_users k; fk_projects := fk_projects k;
     fk_roles := fk_roles k; fk_grants := fk_grants k; fk_down := Some msg |}.

(** The settings of the test-suite, where [USERNAME_IS_EMAIL] is set: a
    request names the user by the e-mail address alone. *)
Definition bench_env_email : Env FakeKS := {|
  timezone_now := λ k, 1000 + Z.of_nat k;
  ACTION_CLASSES :=
    action_classes true
      (require_fields ["email"; "project_id"; "role"])
      (require_fields ["project_name"; "email"])
      (require_fields ["email"]);
  API_ACTIONS := ∅;
  ACTIONVIEW_SETTINGS :=
    <["CreateProject" := bench_conf]>
    (<["AttachUser" := bench_conf]> {["ResetPassword" := bench_conf]});
  loader_get_template := λ _, Ok tt;
  template_render := λ _ _ _ _, Ok "";
  send_mail := λ _ _ _ _ _, Ok tt;
|}.

Definition backend_by_email : FakeKS :=
  {| fk_users := [({| usr_id := "user_id_0";
                      usr_name := "alice@example.com";
                      usr_email := "alice@example.com" |},
                   VStr "old_password")];
     fk_projects := []; fk_roles := roles_fixture; fk_grants := [];
     fk_down := None |}.

(** An action row and its registration, for running a method of an
    action on its own. *)
Definition valid_row : Action :=
  {| act_id := 0; action_name := "NewUser"; action_data := ∅; cache := ∅;
     state := "default"; valid := true; need_token := true;
     act_registration := 0; order := 0; act_created := 1000 |}.

Definition admin_registration : Registration :=
  {| uuid := 0; reg_ip := "10.0.0.2";
     keystone_user := req_keystone_user (as_admin ∅);
     reg_notes := ∅; reg_errors := ∅; approved := false; completed := false;
     reg_created := 1000; approved_on := None; completed_on := None;
     action_view := "AttachUser" |}.

Definition valid_state : ActSt FakeKS :=
  {| st_action := valid_row; st_registration := Some admin_registration;
     st_ks := backend_with_project; st_registration_cache := ∅ |}.

Definition other_email_attrs : gmap string string :=
  <["username" := "alice"]>
  (<["email" := "alice@elsewhere.example"]>
  (<["project_id" := "project_id_0"]> {["role" := "Member"]})).

(** The bench at rest, a signup for a new project by [alice], and an
    administrator's approval. *)
Definition w0 : World FakeKS := empty_world backend_with_alice.
Definition signup : Request := anonymous new_project_data.
Definition approval : Request := as_admin approved_data.

(** The fields of a [NewProject] action for [new_project_data]. *)
Definition signup_attrs : gmap string string :=
  <["project_name" := "test_project"]>
  (<["username" := "alice"]> {["email" := "alice@example.com"]}).

(** A backend that knows the project and no user. *)
Definition backend_with_only_project : FakeKS :=
  {| fk_users := []; fk_projects := [test_project];
     fk_roles := roles_fixture; fk_grants := []; fk_down := None |}.

(** The row of an approved [NewProject] action, and its state. *)
Definition approved_row : Action :=
  {| act_id := 0; action_name := "NewProject"; action_data := signup_attrs;
     cache := {["project_id" := "project_id_0"]};
     state := "default"; valid := true; need_token := true;
     act_registration := 0; order := 0; act_created := 1000 |}.

Definition approved_state : ActSt FakeKS :=
  {| st_action := approved_row; st_registration := Some admin_registration;
     st_ks := backend_with_only_project; st_registration_cache := ∅ |}.

(** The state of a [NewProject] action before its approval. *)
Definition pending_state : ActSt FakeKS :=
  {| st_action := valid_row; st_registration := Some admin_registration;
     st_ks := backend_with_alice; st_registration_cache := ∅ |}.

(** The data of a request that names the user by the e-mail address,
    and the fields of the action built from it. *)
Definition email_data : gmap string string :=
  {["email" := "alice@example.com"]}.

Definition email_attrs : gmap string string :=
  <["username" := "alice@example.com"]> email_data.

(** A view configured with an action that is not registered. *)
Definition misconfigured_view : StackTask.ActionView :=
  {| StackTask.class_name := "CreateProject";
     StackTask.default_action := "NoSuchAction" |}.

(** The bench after a password reset for [alice]. *)
Definition reset_requested : World FakeKS :=
  after (StackTask.dispatch StackTask.POST_reset
           (anonymous (reset_data "alice@example.com"))) w0.

End Bench.

(** * Part II: the vocabulary of the statements

    The relations, assertions and outcomes in which the theorems of
    Part III are stated. *)

Section RespectsDef.
Context {S : Type} (R : relation S).

(** A computation respects [R] when every run, whether it returns or
    raises, leaves a state related to the one it started in. *)
Definition respects {A} (m : M S A) : Prop := ∀ s, R s (snd (m s)).

End RespectsDef.

(** ** Relations on worlds that the bookkeeping cannot break

    Three classes of preorders on worlds, by what may change across
    them: [Quiet] relations hold across clock readings and across any
    change to the log and to the notifications; [Rows] relations hold
    moreover across any change to the Action table and to the backend
    (what a method of an action can do); [Lax] relations hold moreover
    across any change to the call history. *)
Class Quiet {KS} (R : relation (World KS)) := {
  quiet_preorder :: PreOrder R;
  quiet_ticks w n : (ticks w ≤ n)%nat → R w (with_ticks n w);
  quiet_logger w f : R w (with_logger f w);
  quiet_notifications w f : R w (with_notifications f w);
}.

Class Rows {KS} (R : relation (World KS)) := {
  rows_quiet :: Quiet R;
  rows_actions w f : R w (with_actions f w);
  rows_backend w k c : R w (with_backend k c w);
}.

Class Lax {KS} (R : relation (World KS)) := {
  lax_rows :: Rows R;
  lax_calls w f : R w (with_calls f w);
}.

Section Vocabulary.
Context {KS : Type} `{!Env KS}.
Implicit Types w : World KS.

(** ** Relations between the world before and the world after *)

(** The Registration and Token tables and the uuid counter are the
    same. *)
Definition unchanged w w' : Prop :=
  registrations w' = registrations w ∧ tokens w' = tokens w ∧
  uuids w' = uuids w.

(** The Registration table is the same, tokens were at most deleted, and
    uuids were at most drawn. *)
Definition frame w w' : Prop :=
  registrations w' = registrations w ∧ tokens w' ⊆ tokens w ∧
  (uuids w ≤ uuids w')%nat.

(** Only the clock, the log and the notifications may differ. *)
Definition bookkeeping w w' : Prop :=
  registrations w' = registrations w ∧ tokens w' = tokens w ∧
  uuids w' = uuids w ∧ actions w' = actions w ∧ ks w' = ks w ∧
  registration_cache w' = registration_cache w ∧ calls w' = calls w.

(** The Registration and Token tables, the uuid counter and the call
    history are the same: what a method of an action leaves alone. *)
Definition kept w w' : Prop :=
  registrations w' = registrations w ∧ tokens w' = tokens w ∧
  uuids w' = uuids w ∧ calls w' = calls w.

Definition later w w' : Prop := (ticks w ≤ ticks w')%nat.

(** Every token of the later world was there before, or expires 24
    hours after a clock reading taken in between. *)
(** Every token of [w'] was already in [w] or expires 24 hours after a
    clock reading taken between [w] and [w']. *)
Definition issued w w' : Prop :=
  (ticks w ≤ ticks w')%nat ∧
  ∀ k t, tokens w' !! k = Some t →
         tokens w !! k = Some t ∨
         ∃ n, (ticks w ≤ n < ticks w')%nat ∧
              expires t = timezone_now n + 24 * 3600.

(** ** The workflow invariant and a small program logic *)

(** Every row is stored under its own uuid and is approved if it is
    completed. *)
Definition regs_ok w : Prop :=
  ∀ u r, registrations w !! u = Some r →
         uuid r = u ∧ (completed r = true → approved r = true).

(** Every token belongs to an approved registration. *)
Definition toks_ok w : Prop :=
  ∀ k t, tokens w !! k = Some t →
         ∃ r, registrations w !! tok_registration t = Some r ∧
              approved r = true.

(** The uuids in use have been drawn. *)
Definition fresh_ok w : Prop :=
  ∀ u r, registrations w !! u = Some r → (u < uuids w)%nat.

Definition Inv w : Prop := regs_ok w ∧ toks_ok w ∧ fresh_ok w.

(** The invariant, and the row [r] is in the table as it is in memory. *)
Definition InDB (r : Registration) w : Prop :=
  Inv w ∧ registrations w !! uuid r = Some r.

(** The invariant, and the row [u] is approved in the table. *)
Definition Appr (u : nat) w : Prop :=
  Inv w ∧ ∃ r, registrations w !! u = Some r ∧ approved r = true.

Definition stable (P : World KS → Prop) : Prop :=
  ∀ w w', frame w w' → P w → P w'.

Definition triple {A} (P : World KS → Prop) (m : M (World KS) A)
    (Q : A → World KS → Prop) (E : World KS → Prop) : Prop :=
  ∀ w, P w → match m w with
             | (Ok a, w') => Q a w'
             | (Raise _, w') => E w'
             end.

Definition processed_ok (p : processed) (w : World KS) : Prop :=
  match p with
  | ProcRegistration r => InDB r w
  | _ => Inv w
  end.

Definition checked_ok (c : Token * Registration + Response) (w : World KS)
    : Prop :=
  match c with
  | inl (tok, r) => Appr (uuid r) w ∧ approved r = true
  | inr _ => Inv w
  end.

Definition checked_ok_v1 (c : Token + Response) (w : World KS) : Prop :=
  match c with
  | inl tok => Appr (tok_registration tok) w
  | inr _ => Inv w
  end.

(** Every token in the table expires 24 hours after one of the clock
    readings taken so far. *)
Definition lifetimes_ok w : Prop :=
  ∀ k t, tokens w !! k = Some t →
         ∃ n, (n < ticks w)%nat ∧ expires t = timezone_now n + 24 * 3600.

(** ** Intake *)

(** The validators configured for a list of action names, applied to the
    request (an action registered without a serializer has none). *)
Definition configured_serializers (names : list string) (request : Request)
    : list (option serializer) :=
  (λ n, match ACTION_CLASSES !! n with
        | Some entry => (λ f : Serializer, f (req_data request)) <$> snd entry
        | None => None
        end) <$> names.

Definition all_valid (sers : list (option serializer)) : bool :=
  forallb (λ s, from_option is_valid true s) sers.

(** The row that [Registration.objects.create] inserts in the world
    [w]. *)
Definition new_registration (request : Request) (view : string) w
    : Registration :=
  {| uuid := uuids w; reg_ip := REMOTE_ADDR request;
     keystone_user := req_keystone_user request;
     reg_notes := ∅; reg_errors := ∅; approved := false; completed := false;
     reg_created := timezone_now (ticks w); approved_on := None;
     completed_on := None; action_view := view |}.

(** ** Approval *)

(** The row [u] is marked approved, with the approval time [t]. *)
Definition approved_at (u : nat) (t : Z) w : Prop :=
  ∃ r, registrations w !! u = Some r ∧
       approved r = true ∧ approved_on r = Some t.

Definition stays_approved (u : nat) (t : Z) w w' : Prop :=
  approved_at u t w → approved_at u t w'.

(** What the branch [need_token = true] leaves behind: one more token,
    for this registration; the Registration table, the Action table, the
    backend and the call history are as before. *)
Definition token_outcome (r : Registration) w w' : Prop :=
  tokens w'
  = <[uuids w := {| tok_registration := uuid r; token := uuids w;
                    tok_created := timezone_now (S (ticks w));
                    expires := timezone_now (ticks w) + 24 * 3600 |}]>
      (tokens w) ∧
  registrations w' = registrations w ∧ actions w' = actions w ∧
  ks w' = ks w ∧ calls w' = calls w.

(** What the branch [need_token = false] leaves behind: no token;
    [submit] was called with the empty dictionary on the first [n] actions,
    in their order; either these are all the actions and the registration
    is saved completed, or the last of them raised, the registration is
    not saved and the answer has status 500. *)
Definition submit_outcome (r : Registration) (acts : list (BoundAction KS))
    w (res : result Response) w' : Prop :=
  tokens w' = tokens w ∧
  ∃ n, (n ≤ length acts)%nat ∧
       calls w' = calls w ++ ((λ a, CallSubmit (ba_id a) ∅) <$> take n acts) ∧
       ((n = length acts ∧
         ∃ k, (ticks w ≤ k)%nat ∧
              registrations w'
              = <[uuid r := set_completed (timezone_now k) r]>
                  (registrations w)) ∨
        ((0 < n)%nat ∧ registrations w' = registrations w ∧
         ∃ resp, res = Ok resp ∧ status resp = 500)).

(** ** Failures *)

(** The notes of a failed step: the text of the exception between the
    quotes, and the uuid of the registration. *)
Definition failure_notes (step : string) (e : exn) (r : Registration)
    : gmap string pyval :=
  <["errors" := VList ["Error: '" +:+ exn_str e +:+ "' while " +:+ step +:+
                       " registration. See registration itself for details."]]>
  (<["registration" := VUuid (uuid r)]> ∅).

Definition notified (notes : gmap string pyval) (r : Registration) w w'
    : Prop :=
  notifications w'
  = notifications w ++ [{| ntf_notes := notes; ntf_registration := uuid r;
                           ntf_created := timezone_now (ticks w);
                           acknowledged := false |}].

(** ** Reads and keys *)

(** A read: the Registration table, the Action table, the backend and
    the call history are the same, and tokens were at most deleted. *)
Definition reading w w' : Prop :=
  registrations w' = registrations w ∧ actions w' = actions w ∧
  ks w' = ks w ∧ calls w' = calls w ∧ tokens w' ⊆ tokens w.

(** Every token is stored under its own key, and the key has been
    drawn. *)
Definition keys_ok w : Prop :=
  ∀ k t, tokens w !! k = Some t → token t = k ∧ (k < uuids w)%nat.

Definition keyed w w' : Prop := keys_ok w → keys_ok w'.

End Vocabulary.

Section StickyDef.
Context {KS : Type}.

(** If the row was valid before, it is valid after. *)
Definition sticky (st st' : ActSt KS) : Prop :=
  valid (st_action st) = true → valid (st_action st') = true.

(** The flags [need_token] and [state] of the row are the same. *)
Definition same_flags (st st' : ActSt KS) : Prop :=
  need_token (st_action st') = need_token (st_action st) ∧
  state (st_action st') = state (st_action st).

(** The row is the same. *)
Definition same_action (st st' : ActSt KS) : Prop :=
  st_action st' = st_action st.

End StickyDef.

(** A relation that every write of the views to the Registration and
    Token tables respects. *)
Class Tabled {KS} `{!Env KS} (R : relation (World KS)) := {
  tabled_lax :: Lax R;
  tabled_uuid4_hex : respects R uuid4_hex;
  tabled_Token_delete t : respects R (Token_delete t);
  tabled_purge (t : Z) :
    respects R
      (modify (with_tokens (KS:=KS)
                 (filter (λ kt : nat * Token, ¬ (expires (snd kt) < t)%Z))));
  tabled_registrations f : respects R (modify (with_registrations (KS:=KS) f));
  tabled_create_token r : respects R (create_token r);
}.

(** * Part III: proofs *)

(** ** Computations that respect a preorder on states *)
Section Respects.
Context {S : Type} (R : relation S) `{!PreOrder R}.

Lemma respects_ret {A} (a : A) : respects R (ret a).
Proof. intros s. reflexivity. Qed.

Lemma respects_mret {A} (a : A) : respects R (mret a).
Proof. intros s. reflexivity. Qed.

Lemma respects_raise {A} (e : exn) : respects R (@raise S A e).
Proof. intros s. reflexivity. Qed.

Lemma respects_gets {A} (f : S → A) : respects R (gets f).
Proof. intros s. reflexivity. Qed.

Lemma respects_lift_result {A} (r : result A) : respects R (lift_result r).
Proof. intros s. reflexivity. Qed.

Lemma respects_getitem {V} (d : gmap string V) k : respects R (getitem d k).
Proof. intros s. unfold getitem. destruct (d !! k); reflexivity. Qed.

Lemma respects_modify (f : S → S) : (∀ s, R s (f s)) → respects R (modify f).
Proof. intros H s. apply H. Qed.

Lemma respects_bind {A B} (m : M S A) (f : A → M S B) :
  respects R m → (∀ a, respects R (f a)) → respects R (m ≫= f).
Proof.
  intros Hm Hf s. unfold mbind, M_bind, bind. specialize (Hm s).
  destruct (m s) as [[a|e] s']; simpl in *; [|done].
  etrans; [exact Hm | apply Hf].
Qed.

Lemma respects_try_except {A} (m : M S A) (h : exn → M S A) :
  respects R m → (∀ e, respects R (h e)) → respects R (try_except m h).
Proof.
  intros Hm Hh s. unfold try_except. specialize (Hm s).
  destruct (m s) as [[a|e] s']; simpl in *; [done|].
  etrans; [exact Hm | apply Hh].
Qed.

Lemma respects_try_except_on {A} c (m : M S A) (h : exn → M S A) :
  respects R m → (∀ e, respects R (h e)) → respects R (try_except_on c m h).
Proof.
  intros Hm Hh. apply respects_try_except; [done|].
  intros e. destruct (c e); [apply Hh | apply respects_raise].
Qed.

Lemma respects_for_ {A Acc B} (l : list A) (acc : Acc)
    (body : A → Acc → M S (Acc + B)) :
  (∀ x acc, respects R (body x acc)) → respects R (for_ l acc body).
Proof.
  intros Hb. revert acc. induction l as [|x l IH]; intros acc; simpl.
  - apply respects_ret.
  - apply (respects_bind (body x acc)); [apply Hb|].
    intros [acc'|v]; [apply IH | apply respects_ret].
Qed.

Lemma respects_foldM {A Acc} (l : list A) (acc : Acc)
    (body : A → Acc → M S Acc) :
  (∀ x acc, respects R (body x acc)) → respects R (foldM l acc body).
Proof.
  intros Hb. revert acc. induction l as [|x l IH]; intros acc; simpl.
  - apply respects_ret.
  - apply (respects_bind (body x acc)); [apply Hb | apply IH].
Qed.

End Respects.

Lemma respects_weaken {S A} (R R' : relation S) (m : M S A) :
  (∀ s s', R s s' → R' s s') → respects R m → respects R' m.
Proof. intros H Hm s. apply H, Hm. Qed.

(** Running the combinators. *)
Lemma run_bind {S A B} (m : M S A) (f : A → M S B) s :
  (m ≫= f) s = match m s with
               | (Ok a, s') => f a s'
               | (Raise e, s') => (Raise e, s')
               end.
Proof. reflexivity. Qed.

Lemma run_foldM_cons {S A Acc} (x : A) (l : list A) (acc : Acc)
    (body : A → Acc → M S Acc) s :
  foldM (x :: l) acc body s
  = match body x acc s with
    | (Ok acc', s') => foldM l acc' body s'
    | (Raise e, s') => (Raise e, s')
    end.
Proof. reflexivity. Qed.

Lemma run_for_cons {S A Acc R} (x : A) (l : list A) (acc : Acc)
    (body : A → Acc → M S (Acc + R)) s :
  for_ (x :: l) acc body s
  = match body x acc s with
    | (Ok (inl acc'), s') => for_ l acc' body s'
    | (Ok (inr v), s') => (Ok (inr v), s')
    | (Raise e, s') => (Raise e, s')
    end.
Proof.
  simpl. unfold bind. by destruct (body x acc s) as [[[?|?]|?] ?].
Qed.

Lemma run_getitem_Some {S V} (d : gmap string V) k v (s : S) :
  d !! k = Some v → getitem d k s = (Ok v, s).
Proof. intros H. unfold getitem. by rewrite H. Qed.

(** Decompose a computation along its structure. *)
Ltac respects_step :=
  lazymatch goal with
  | |- respects ?R (mbind _ _) => apply (respects_bind R); [|intros]
  | |- respects ?R (bind _ _) => apply (respects_bind R); [|intros]
  | |- respects ?R (mret _) => apply (respects_mret R)
  | |- respects ?R (ret _) => apply (respects_ret R)
  | |- respects ?R (raise _) => apply (respects_raise R)
  | |- respects ?R (gets _) => apply (respects_gets R)
  | |- respects ?R (lift_result _) => apply (respects_lift_result R)
  | |- respects ?R (getitem _ _) => apply (respects_getitem R)
  | |- respects ?R (try_except_on _ _ _) =>
      apply (respects_try_except_on R); [|intros]
  | |- respects ?R (try_except _ _) =>
      apply (respects_try_except R); [|intros]
  | |- respects ?R (for_ _ _ _) => apply (respects_for_ R); intros
  | |- respects ?R (foldM _ _ _) => apply (respects_foldM R); intros
  | |- respects _ (match ?x with _ => _ end) => destruct x
  | |- respects _ ((match ?x with _ => _ end) _) => destruct x
  | |- respects _ ((match ?x with _ => _ end) _ _) => destruct x
  end.

Create HintDb respects discriminated.

Ltac respects_auto :=
  repeat first [ solve [eauto with respects] | respects_step ].

Section QuietBlocks.
Context {KS : Type} `{!Env KS} (R : relation (World KS)) `{!Quiet R}.

Lemma respects_now : respects R now.
Proof. intros w. simpl. apply quiet_ticks. lia. Qed.

Lemma respects_logger_log l t : respects R (logger_log l t).
Proof. intros w. apply quiet_logger. Qed.

Hint Resolve respects_now respects_logger_log : respects.

Lemma respects_logger_critical_escaped e :
  respects R (logger_critical_escaped e).
Proof. unfold logger_critical_escaped. respects_auto. Qed.

Lemma respects_logger_info t : respects R (logger_info t).
Proof. unfold logger_info. respects_auto. Qed.

Lemma respects_with_notifications f :
  respects R (modify (with_notifications f)).
Proof. intros w. apply quiet_notifications. Qed.

Hint Resolve respects_with_notifications : respects.

Lemma respects_registration_actions u : respects R (registration_actions u).
Proof. unfold registration_actions. respects_auto. Qed.

Lemma respects_get_action row : respects R (get_action row).
Proof. unfold get_action. respects_auto. Qed.

Lemma respects_action_valid a : respects R (action_valid a).
Proof. unfold action_valid. respects_auto. Qed.

Lemma respects_action_need_token a : respects R (action_need_token a).
Proof. unfold action_need_token. respects_auto. Qed.

Lemma respects_create_notification r n : respects R (create_notification r n).
Proof. unfold create_notification. respects_auto. Qed.

Lemma respects_Token_objects_get id : respects R (Token_objects_get id).
Proof. unfold Token_objects_get. respects_auto. Qed.

Lemma respects_Registration_objects_get u :
  respects R (Registration_objects_get u).
Proof. unfold Registration_objects_get. respects_auto. Qed.

Hint Resolve respects_registration_actions respects_get_action
  respects_action_valid respects_action_need_token
  respects_create_notification respects_Token_objects_get
  respects_Registration_objects_get : respects.

Lemma respects_token_registration t : respects R (token_registration t).
Proof. unfold token_registration. respects_auto. Qed.

Lemma respects_error_notes f e r : respects R (error_notes f e r).
Proof. unfold error_notes. respects_auto. Qed.

Lemma respects_py_set v : respects R (py_set v).
Proof. unfold py_set. respects_auto. Qed.

Lemma respects_py_in n v : respects R (py_in n v).
Proof. unfold py_in. respects_auto. Qed.

Lemma respects_run_serializers names request :
  respects R (run_serializers names request).
Proof. unfold run_serializers. respects_auto. Qed.

Hint Resolve respects_token_registration respects_error_notes
  respects_py_set respects_py_in respects_run_serializers : respects.

Lemma respects_wrap_actions rows : respects R (wrap_actions rows).
Proof. unfold wrap_actions. respects_auto. Qed.

Lemma respects_processed_registration p :
  respects R (processed_registration p).
Proof. unfold processed_registration. respects_auto. Qed.

End QuietBlocks.

#[global] Hint Extern 1 (Quiet _) => typeclasses eauto : respects.
#[global] Hint Resolve respects_now respects_logger_log
  respects_logger_critical_escaped respects_logger_info
  respects_with_notifications respects_registration_actions
  respects_get_action respects_action_valid respects_action_need_token
  respects_create_notification respects_Token_objects_get
  respects_Registration_objects_get respects_token_registration
  respects_error_notes respects_py_set respects_py_in
  respects_run_serializers respects_wrap_actions
  respects_processed_registration : respects.

Section QuietViews.
Context {KS : Type} `{!Env KS} (R : relation (World KS)) `{!Quiet R}.

Lemma respects_send_email r c t : respects R (StackTask.send_email r c t).
Proof. unfold StackTask.send_email. respects_auto. Qed.

Lemma respects_token_email_conf v : respects R (StackTask.token_email_conf v).
Proof. unfold StackTask.token_email_conf. respects_auto. Qed.

Lemma respects_token_email_failed r e :
  respects R (StackTask.token_email_failed r e).
Proof. unfold StackTask.token_email_failed. respects_auto. Qed.

Lemma respects_step_failed_generic f r e :
  respects R (StackTask.step_failed_generic f r e).
Proof. unfold StackTask.step_failed_generic. respects_auto. Qed.

Lemma respects_step_failed_notes f r e :
  respects R (StackTask.step_failed_notes f r e).
Proof. unfold StackTask.step_failed_notes. respects_auto. Qed.

Lemma respects_step_failed_v1 f r e : respects R (ApiV1.step_failed f r e).
Proof. unfold ApiV1.step_failed. respects_auto. Qed.

End QuietViews.

#[global] Hint Resolve respects_send_email respects_token_email_conf
  respects_token_email_failed respects_step_failed_generic
  respects_step_failed_notes respects_step_failed_v1 : respects.

Section RowsBlocks.
Context {KS : Type} `{!Env KS} (R : relation (World KS)) `{!Rows R}.

Lemma respects_with_actions f : respects R (modify (with_actions f)).
Proof. intros w. apply rows_actions. Qed.

Hint Resolve respects_with_actions : respects.

Lemma respects_Action_objects_create n d u i :
  respects R (Action_objects_create n d u i).
Proof. unfold Action_objects_create. respects_auto. Qed.

Lemma respects_Action_save a : respects R (Action_save a).
Proof. unfold Action_save. respects_auto. Qed.

Hint Resolve respects_Action_objects_create : respects.

Lemma respects_new_action cls d r i : respects R (new_action cls d r i).
Proof. unfold new_action. respects_auto. Qed.

Lemma respects_run_method {A} pk (m : Act KS A) : respects R (run_method pk m).
Proof.
  intros w. unfold run_method. destruct (actions w !! pk); [|reflexivity].
  destruct (m _) as [r st']. simpl.
  etrans; [apply rows_actions | apply rows_backend].
Qed.

End RowsBlocks.

#[global] Hint Extern 1 (Rows _) => typeclasses eauto : respects.
#[global] Hint Resolve respects_with_actions respects_Action_objects_create
  respects_Action_save respects_new_action respects_run_method : respects.

Section LaxBlocks.
Context {KS : Type} `{!Env KS} (R : relation (World KS)) `{!Lax R}.

Lemma respects_with_calls f : respects R (modify (with_calls f)).
Proof. intros w. apply lax_calls. Qed.

Hint Resolve respects_with_calls : respects.

Lemma respects_pre_approve a : respects R (pre_approve a).
Proof. unfold pre_approve. respects_auto. Qed.

Lemma respects_post_approve a : respects R (post_approve a).
Proof. unfold post_approve. respects_auto. Qed.

Lemma respects_submit a d : respects R (submit a d).
Proof. unfold submit. respects_auto. Qed.

Hint Resolve respects_pre_approve respects_post_approve respects_submit
  : respects.

Lemma respects_post_approve_all acts failed :
  (∀ e, respects R (failed e)) → respects R (post_approve_all acts failed).
Proof. intros. unfold post_approve_all. respects_auto. Qed.

Lemma respects_post_approve_rows rows failed :
  (∀ e, respects R (failed e)) → respects R (post_approve_rows rows failed).
Proof. intros. unfold post_approve_rows. respects_auto. Qed.

Lemma respects_submit_all acts d failed :
  (∀ e, respects R (failed e)) →
  respects R (StackTask.submit_all acts d failed).
Proof. intros. unfold StackTask.submit_all. respects_auto. Qed.

Lemma respects_submit_all_v1 acts d r f :
  respects R (ApiV1.submit_all acts d r f).
Proof. unfold ApiV1.submit_all. respects_auto. Qed.

End LaxBlocks.

#[global] Hint Extern 1 (Lax _) => typeclasses eauto : respects.
#[global] Hint Resolve respects_with_calls respects_pre_approve
  respects_post_approve respects_submit respects_post_approve_all
  respects_post_approve_rows respects_submit_all respects_submit_all_v1
  : respects.

(** Prove that a relation given by equations on the tables is in one of
    the classes. *)
Ltac split_lax := split; [split; [split; [split|..]|..]|..].
Ltac solve_lax := split_lax; try (intros; by repeat split).

(** ** Three relations *)
Section Relations.
Context {KS : Type} `{!Env KS}.
Implicit Types w : World KS.

Global Instance unchanged_lax : @Lax KS unchanged.
Proof.
  solve_lax.
  intros w1 w2 w3 (?&?&?) (?&?&?). repeat split; congruence.
Qed.

Global Instance frame_lax : @Lax KS frame.
Proof.
  solve_lax.
  intros w1 w2 w3 (?&?&?) (?&?&?). repeat split; [congruence|..].
  - by etrans.
  - lia.
Qed.

Lemma unchanged_frame w w' : unchanged w w' → frame w w'.
Proof. intros (?&H&?). repeat split; [done|by rewrite H|lia]. Qed.

Lemma frame_uuid4_hex : respects (frame (KS:=KS)) uuid4_hex.
Proof. intros w. repeat split; simpl; [done|lia]. Qed.

Lemma frame_Token_delete t : respects (frame (KS:=KS)) (Token_delete t).
Proof. intros w. repeat split; simpl; [apply delete_subseteq|lia]. Qed.

End Relations.

(** ** The workflow invariant and a small program logic *)
Section Invariant.
Context {KS : Type} `{!Env KS}.
Implicit Types w : World KS.

Lemma stable_Inv : stable (KS:=KS) Inv.
Proof.
  intros w w' (Hr & Ht & Hu) (H1 & H2 & H3). split; [|split].
  - intros u r Hur. rewrite Hr in Hur. by apply H1.
  - intros k t Hk. rewrite Hr. eapply H2, lookup_weaken; eauto.
  - intros u r Hur. rewrite Hr in Hur. specialize (H3 _ _ Hur). lia.
Qed.

Lemma stable_InDB r : stable (KS:=KS) (InDB r).
Proof.
  intros w w' Hf [HI Hr]. split; [by eapply stable_Inv|].
  destruct Hf as (-> & _). done.
Qed.

Lemma stable_Appr u : stable (KS:=KS) (Appr u).
Proof.
  intros w w' Hf [HI Hr]. split; [by eapply stable_Inv|].
  destruct Hf as (-> & _). done.
Qed.

Lemma InDB_Inv r w : InDB r w → Inv w.
Proof. by intros []. Qed.

Lemma Appr_Inv u w : Appr u w → Inv w.
Proof. by intros []. Qed.

Lemma InDB_Appr r w : approved r = true → InDB r w → Appr (uuid r) w.
Proof. intros ? []. split; eauto. Qed.

Lemma triple_ret {A} (P : World KS → Prop) (a : A) Q E :
  (∀ w, P w → Q a w) → triple P (ret a) Q E.
Proof. intros H w Hw. by apply H. Qed.

Lemma triple_bind {A B} P (m : M (World KS) A) Q (f : A → M (World KS) B)
    Q' E :
  triple P m Q E → (∀ a, triple (Q a) (f a) Q' E) → triple P (m ≫= f) Q' E.
Proof.
  intros Hm Hf w Hw. specialize (Hm w Hw).
  unfold mbind, M_bind, bind. destruct (m w) as [[a|e] w']; [|done].
  by apply Hf.
Qed.

Lemma triple_conseq {A} (P P' : World KS → Prop) (m : M (World KS) A)
    (Q Q' : A → World KS → Prop) (E E' : World KS → Prop) :
  (∀ w, P' w → P w) → (∀ a w, Q a w → Q' a w) → (∀ w, E w → E' w) →
  triple P m Q E → triple P' m Q' E'.
Proof.
  intros HP HQ HE Hm w Hw. specialize (Hm w (HP _ Hw)).
  destruct (m w) as [[a|e] w']; eauto.
Qed.

(** Strengthen the precondition, taking a pure fact out of it. *)
Lemma triple_pure {A} (P : World KS → Prop) (φ : Prop) (P' : World KS → Prop)
    (m : M (World KS) A) Q E :
  (∀ w, P' w → P w ∧ φ) → (φ → triple P m Q E) → triple P' m Q E.
Proof. intros HP Hm w Hw. destruct (HP _ Hw) as [? ?]. by apply Hm. Qed.

Lemma triple_frame {A} (P : World KS → Prop) (m : M (World KS) A) E :
  stable P → (∀ w, P w → E w) → respects frame m →
  triple P m (λ _, P) E.
Proof.
  intros HP HE Hm w Hw. specialize (Hm w).
  destruct (m w) as [[a|e] w']; simpl in *; eauto.
Qed.

(** A computation that keeps an assertion, whatever it returns. *)
Lemma triple_keeps {A} (P : World KS → Prop) (m : M (World KS) A)
    (Q : A → World KS → Prop) E :
  stable P → (∀ a w, P w → Q a w) → (∀ w, P w → E w) → respects frame m →
  triple P m Q E.
Proof.
  intros HP HQ HE Hm w Hw. specialize (Hm w).
  destruct (m w) as [[a|e] w']; simpl in *; eauto.
Qed.

Lemma triple_Registration_objects_get u :
  triple Inv (Registration_objects_get u)
    (λ o w, match o with Some r => InDB r w | None => Inv w end) Inv.
Proof.
  intros w HI. simpl. destruct (registrations w !! u) as [r|] eqn:Hr; [|done].
  split; [done|]. destruct HI as (H1 & _). by destruct (H1 _ _ Hr) as [-> _].
Qed.

Lemma Inv_insert_registration w r :
  Inv w → (uuid r < uuids w)%nat →
  (completed r = true → approved r = true) →
  (∀ r0, registrations w !! uuid r = Some r0 → approved r0 = true →
         approved r = true) →
  Inv (with_registrations (<[uuid r := r]>) w).
Proof.
  intros (H1 & H2 & H3) Hlt Hc Ha. split; [|split]; unfold regs_ok, toks_ok, fresh_ok; simpl.
  - intros u r1 [[<- <-]|[_ H]]%lookup_insert_Some; [done|]. by apply H1.
  - intros k t Hk. destruct (H2 _ _ Hk) as (r0 & Hr0 & Hap).
    destruct (decide (tok_registration t = uuid r)) as [He|Hne].
    + exists r. rewrite He, lookup_insert_eq. split; [done|].
      rewrite He in Hr0. eauto.
    + exists r0. by rewrite lookup_insert_ne.
  - intros u r1 [[<- <-]|[_ H]]%lookup_insert_Some; [done|]. eauto.
Qed.

Lemma triple_Registration_save_approved r t :
  triple (KS:=KS) (InDB r) (Registration_save (set_approved t r))
    (λ _, Appr (uuid r)) Inv.
Proof.
  intros w [HI Hr]. simpl. split.
  - apply (Inv_insert_registration w (set_approved t r)); simpl; try done.
    + destruct HI as (_ & _ & H3). eauto.
  - exists (set_approved t r). simpl. by rewrite lookup_insert_eq.
Qed.

Lemma triple_Registration_save_completed r t :
  approved r = true →
  triple (KS:=KS) (Appr (uuid r)) (Registration_save (set_completed t r))
    (λ _, Inv) Inv.
Proof.
  intros Hap w [HI (r0 & Hr0 & _)]. simpl.
  apply (Inv_insert_registration w (set_completed t r)); simpl; try done.
  destruct HI as (_ & _ & H3). eauto.
Qed.

Lemma triple_Registration_objects_create ip ku view :
  triple Inv (Registration_objects_create ip ku view) InDB Inv.
Proof.
  intros w (H1 & H2 & H3). simpl.
  assert (registrations w !! uuids w = None) as Hnone.
  { destruct (registrations w !! uuids w) eqn:Hu; [|done].
    apply H3 in Hu. lia. }
  split; [|simpl; by rewrite lookup_insert_eq].
  split; [|split]; unfold regs_ok, toks_ok, fresh_ok; simpl.
  - intros u r1 [[<- <-]|[_ H]]%lookup_insert_Some; [done|]. by apply H1.
  - intros k t Hk. destruct (H2 _ _ Hk) as (r0 & Hr0 & Hap).
    exists r0. split; [|done]. rewrite lookup_insert_ne; [done|]. congruence.
  - intros u r1 [[<- <-]|[_ H]]%lookup_insert_Some; [lia|].
    apply H3 in H. lia.
Qed.

Lemma triple_create_token r :
  triple (Appr (uuid r)) (create_token r) (λ _, Inv) Inv.
Proof.
  intros w ((H1 & H2 & H3) & r0 & Hr0 & Hap). simpl.
  split; [|split]; unfold regs_ok, toks_ok, fresh_ok; simpl.
  - done.
  - intros k t [[<- <-]|[_ H]]%lookup_insert_Some; simpl; eauto.
  - intros u r1 Hu. apply H3 in Hu. lia.
Qed.

End Invariant.

Create HintDb stable discriminated.
#[global] Hint Resolve stable_Inv stable_InDB stable_Appr : stable.
#[global] Hint Resolve InDB_Inv Appr_Inv : stable.
#[global] Hint Resolve frame_uuid4_hex frame_Token_delete : respects.

(** A block that only does bookkeeping keeps the current assertion. *)
Ltac keeps :=
  cbv beta iota;
  apply triple_keeps;
  [ solve [eauto with stable]
  | solve [intros; eauto with stable]
  | solve [intros; eauto with stable]
  | respects_auto ].

(** Step over such a block in front of the rest. *)
Tactic Notation "over" "as" simple_intropattern(p) :=
  cbv beta iota;
  eapply triple_bind;
  [ apply triple_frame;
    [ solve [eauto with stable]
    | solve [intros; eauto with stable]
    | respects_auto ]
  | intros p ].
Tactic Notation "over" := over as ?.

Section StackTaskInvariant.
Context {KS : Type} `{!Env KS}.

Lemma triple_issue_token view r :
  triple (Appr (uuid r)) (StackTask.issue_token view r) (λ _, Inv) Inv.
Proof.
  unfold StackTask.issue_token.
  eapply triple_bind; [apply triple_create_token|intros tok]. keeps.
Qed.

Lemma triple_complete view r msg :
  approved r = true →
  triple (Appr (uuid r)) (StackTask.complete view r msg) (λ _, Inv) Inv.
Proof.
  intros Hap. unfold StackTask.complete. over.
  eapply triple_bind; [by apply triple_Registration_save_completed|intros []].
  keeps.
Qed.

Lemma triple_finish view r acts need_token failed :
  approved r = true → (∀ e, respects frame (failed e)) →
  triple (Appr (uuid r)) (StackTask.finish view r acts need_token failed)
    (λ _, Inv) Inv.
Proof.
  intros Hap Hf. unfold StackTask.finish. destruct need_token.
  - apply triple_issue_token.
  - over as [[]|resp].
    + by apply triple_complete.
    + keeps.
Qed.

Lemma triple_approve self r :
  triple (InDB r) (StackTask.approve self r) (λ _, Inv) Inv.
Proof.
  unfold StackTask.approve. over as t.
  eapply triple_bind; [apply triple_Registration_save_approved|intros []].
  over as rows. over as [acts valid]. destruct valid; [|keeps].
  over as [[valid need_token]|resp]; [|keeps].
  destruct valid; [|keeps].
  apply (triple_finish _ (set_approved t r)); [done|].
  intros e. respects_auto.
Qed.

Lemma triple_process_actions self request :
  triple Inv (StackTask.process_actions self request) processed_ok Inv.
Proof.
  unfold StackTask.process_actions. over as [act_list valid].
  destruct valid; [|by apply triple_ret].
  eapply triple_bind; [apply triple_Registration_objects_create|intros r].
  over as [[]|errors].
  - over. by apply triple_ret.
  - apply triple_ret. intros w. apply InDB_Inv.
Qed.

(** A view behind a decorator: the decorator answers itself or runs the
    view. *)
Lemma triple_admin (func : Request → M (World KS) Response) request :
  triple Inv (func request) (λ _, Inv) Inv →
  triple Inv (StackTask.admin func request) (λ _, Inv) Inv.
Proof.
  intros Hf. unfold StackTask.admin.
  destruct (negb _); [keeps|]. over as is_admin.
  destruct is_admin; [done|keeps].
Qed.

Lemma triple_admin_or_owner (func : Request → M (World KS) Response) request :
  triple Inv (func request) (λ _, Inv) Inv →
  triple Inv (StackTask.admin_or_owner func request) (λ _, Inv) Inv.
Proof.
  intros Hf. unfold StackTask.admin_or_owner.
  destruct (negb _); [keeps|]. over. case_bool_decide; [done|keeps].
Qed.

(** The tail shared by the three views that start a registration. *)
Lemma triple_processed p (k : Registration → M (World KS) Response) :
  (∀ r, triple (InDB r) (k r) (λ _, Inv) Inv) →
  triple (processed_ok p)
    (match processed_errors p with
     | Some resp => _ ← logger_info "Validation errors with registration.";
                    ret resp
     | None => registration ← processed_registration p; k registration
     end) (λ _, Inv) Inv.
Proof.
  intros Hk. destruct p as [r|errors|errors]; simpl.
  - eapply triple_bind; [|intros r'; apply Hk].
    intros w Hw. done.
  - case_bool_decide; [|keeps].
    eapply triple_bind; [|intros r'; apply Hk]. intros w Hw. done.
  - case_bool_decide; [|keeps].
    eapply triple_bind; [|intros r'; apply Hk]. intros w Hw. done.
Qed.

Lemma triple_CreateProject_post request :
  triple Inv (StackTask.CreateProject_post request) (λ _, Inv) Inv.
Proof.
  unfold StackTask.CreateProject_post. over.
  eapply triple_bind; [apply triple_process_actions|intros p].
  apply triple_processed. intros r. keeps.
Qed.

Lemma triple_AttachUser_post request :
  triple Inv (StackTask.AttachUser_post request) (λ _, Inv) Inv.
Proof.
  apply triple_admin_or_owner. unfold StackTask.AttachUser_post_. over.
  eapply triple_bind; [apply triple_process_actions|intros p].
  apply triple_processed. intros r. over. apply triple_approve.
Qed.

Lemma triple_ResetPassword_post request :
  triple Inv (StackTask.ResetPassword_post request) (λ _, Inv) Inv.
Proof.
  unfold StackTask.ResetPassword_post. over.
  eapply triple_bind; [apply triple_process_actions|intros p].
  apply triple_processed. intros r. over. apply triple_approve.
Qed.

Lemma triple_RegistrationDetail_put u request :
  triple Inv (StackTask.RegistrationDetail_put u request) (λ _, Inv) Inv.
Proof.
  apply triple_admin. unfold StackTask.RegistrationDetail_put_. keeps.
Qed.

Lemma triple_RegistrationDetail_post u request :
  triple Inv (StackTask.RegistrationDetail_post u request) (λ _, Inv) Inv.
Proof.
  apply triple_admin. unfold StackTask.RegistrationDetail_post_.
  eapply triple_bind; [apply triple_Registration_objects_get|intros [r|]];
    [|keeps].
  case_bool_decide; [|keeps]. destruct (completed r); [keeps|].
  over as rows. over as [[[acts valid] need_token]|resp]; [|keeps].
  destruct valid; [|keeps]. over as t.
  eapply triple_bind; [apply triple_Registration_save_approved|intros []].
  apply (triple_finish _ (set_approved t r)); [done|].
  intros e. respects_auto.
Qed.

Lemma frame_delete_expired (t : Z) :
  respects frame
    (modify (with_tokens (KS:=KS)
               (filter (λ kt : nat * Token, ¬ (expires (snd kt) < t)%Z)))).
Proof.
  intros w. repeat split; simpl; [apply map_filter_subseteq|lia].
Qed.

Lemma respects_registration_tokens (R : relation (World KS)) `{!Lax R} r :
  respects R (StackTask.registration_tokens r).
Proof. unfold StackTask.registration_tokens. respects_auto. Qed.

Hint Resolve frame_delete_expired respects_registration_tokens : respects.

Lemma triple_TokenList_post request :
  triple Inv (StackTask.TokenList_post request) (λ _, Inv) Inv.
Proof.
  apply triple_admin. unfold StackTask.TokenList_post_.
  destruct (req_data request !! "registration") as [v|]; [|keeps].
  eapply triple_bind with
    (Q := λ o w, match o with Some r => InDB r w | None => Inv w end).
  { destruct v; try by apply triple_ret.
    apply triple_Registration_objects_get. }
  intros [r|]; [|keeps]. destruct (approved r) eqn:Hap; simpl; [|keeps].
  apply (triple_pure (Appr (uuid r)) True);
    [intros w; split; [by apply InDB_Appr|done]|intros _].
  over as toks. over as []. 
  eapply triple_bind; [apply triple_create_token|intros tok]. keeps.
Qed.

Lemma triple_TokenList_delete request :
  triple Inv (StackTask.TokenList_delete request) (λ _, Inv) Inv.
Proof. apply triple_admin. unfold StackTask.TokenList_delete_. keeps. Qed.

Lemma triple_check_token id :
  triple Inv (StackTask.check_token id) checked_ok Inv.
Proof.
  intros w HI. unfold StackTask.check_token, mbind, M_bind, bind. simpl.
  destruct (tokens w !! id) as [tok|] eqn:Htok; simpl; [|done].
  destruct HI as (H1 & H2 & H3).
  destruct (H2 _ _ Htok) as (r & Hr & Hap).
  unfold token_registration, Registration_objects_get, gets, mbind, M_bind,
    bind.
  rewrite Hr. simpl. destruct (completed r); simpl; [done|].
  assert (Inv (with_ticks (S (ticks w)) w)) as HI' by done.
  case_bool_decide; simpl.
  - eapply stable_Inv; [|exact HI'].
    repeat split; simpl; [apply delete_subseteq|lia].
  - split; [|done]. split; [done|]. exists r.
    destruct (H1 _ _ Hr) as [-> _]. done.
Qed.

Lemma triple_TokenDetail_get id request :
  triple Inv (StackTask.TokenDetail_get id request) (λ _, Inv) Inv.
Proof.
  unfold StackTask.TokenDetail_get.
  eapply triple_bind; [apply triple_check_token|intros [[tok r]|resp]];
    [|keeps].
  apply (triple_pure Inv True); [by intros w [[] _]|intros _]. keeps.
Qed.

Lemma triple_TokenDetail_post id request :
  triple Inv (StackTask.TokenDetail_post id request) (λ _, Inv) Inv.
Proof.
  unfold StackTask.TokenDetail_post.
  eapply triple_bind; [apply triple_check_token|intros [[tok r]|resp]];
    [|keeps].
  apply (triple_pure (Appr (uuid r)) (approved r = true)); [done|intros Hap].
  over as rows. over as [required_fields acts].
  destruct (collect_fields _ _) as [data_ errors].
  destruct (negb _); [keeps|]. over as [[]|resp]; [|keeps]. over as t.
  eapply triple_bind; [by apply triple_Registration_save_completed|intros []].
  keeps.
Qed.

Lemma triple_NotificationList_post request :
  triple Inv (StackTask.NotificationList_post (KS:=KS) request) (λ _, Inv)
    Inv.
Proof.
  apply triple_admin. unfold StackTask.NotificationList_post_. keeps.
Qed.

Lemma triple_NotificationDetail_post pk request :
  triple Inv (StackTask.NotificationDetail_post (KS:=KS) pk request)
    (λ _, Inv) Inv.
Proof.
  apply triple_admin. unfold StackTask.NotificationDetail_post_. keeps.
Qed.

Lemma triple_dispatch e request :
  triple Inv (StackTask.dispatch e request) (λ _, Inv) Inv.
Proof.
  destruct e; simpl;
    auto using triple_CreateProject_post, triple_AttachUser_post,
      triple_ResetPassword_post, triple_RegistrationDetail_put,
      triple_RegistrationDetail_post, triple_TokenList_post,
      triple_TokenList_delete, triple_TokenDetail_get,
      triple_TokenDetail_post, triple_NotificationList_post,
      triple_NotificationDetail_post.
Qed.

Lemma Inv_empty_world (k : KS) : Inv (empty_world k).
Proof. split; [|split]; intros ? ? Hl; simpl in Hl; by rewrite lookup_empty in Hl. Qed.

Lemma reachable_Inv w : StackTask.reachable w → Inv w.
Proof.
  induction 1 as [k|w e request _ IH|w k _ IH].
  - apply Inv_empty_world.
  - pose proof (triple_dispatch e request w IH) as H.
    by destruct (StackTask.dispatch e request w) as [[?|?] ?].
  - done.
Qed.

End StackTaskInvariant.

Section ApiV1Invariant.
Context {KS : Type} `{!Env KS}.

Lemma triple_finish_v1 r acts need_token :
  approved r = true →
  triple (Appr (uuid r)) (ApiV1.finish r acts need_token) (λ _, Inv) Inv.
Proof.
  intros Hap. unfold ApiV1.finish. destruct need_token.
  - eapply triple_bind; [apply triple_create_token|intros tok]. keeps.
  - over as [[]|resp]; [|keeps]. over as t.
    eapply triple_bind; [by apply triple_Registration_save_completed|intros []].
    keeps.
Qed.

Lemma triple_admin_v1 (func : Request → M (World KS) Response) request :
  triple Inv (func request) (λ _, Inv) Inv →
  triple Inv (ApiV1.admin func request) (λ _, Inv) Inv.
Proof.
  intros Hf. unfold ApiV1.admin. over as is_admin.
  destruct is_admin; [done|keeps].
Qed.

Lemma triple_admin_or_owner_v1 (func : Request → M (World KS) Response)
    request :
  triple Inv (func request) (λ _, Inv) Inv →
  triple Inv (ApiV1.admin_or_owner func request) (λ _, Inv) Inv.
Proof.
  intros Hf. unfold ApiV1.admin_or_owner. over as roles.
  case_bool_decide; [done|keeps].
Qed.

Lemma triple_RegistrationDetail_post_v1 u request :
  triple Inv (ApiV1.RegistrationDetail_post u request) (λ _, Inv) Inv.
Proof.
  apply triple_admin_v1. unfold ApiV1.RegistrationDetail_post_.
  eapply triple_bind; [apply triple_Registration_objects_get|intros [r|]];
    [|keeps].
  case_bool_decide; [|keeps]. destruct (completed r); [keeps|]. over as t.
  eapply triple_bind; [apply triple_Registration_save_approved|intros []].
  over as rows. over as [[[acts valid] need_token]|resp]; [|keeps].
  destruct valid; [|keeps].
  by apply (triple_finish_v1 (set_approved t r)).
Qed.

Lemma triple_check_token_v1 id :
  triple Inv (ApiV1.check_token id) checked_ok_v1 Inv.
Proof.
  intros w HI. unfold ApiV1.check_token, mbind, M_bind, bind. simpl.
  destruct (tokens w !! id) as [tok|] eqn:Htok; simpl; [|done].
  assert (Inv (with_ticks (S (ticks w)) w)) as HI' by done.
  case_bool_decide; simpl.
  - eapply stable_Inv; [|exact HI'].
    repeat split; simpl; [apply delete_subseteq|lia].
  - split; [done|]. destruct HI as (H1 & H2 & H3). by apply (H2 id).
Qed.

Lemma triple_token_registration tok :
  triple (Appr (tok_registration tok)) (token_registration (KS:=KS) tok)
    (λ r w, Appr (uuid r) w ∧ approved r = true) Inv.
Proof.
  intros w [HI (r & Hr & Hap)].
  unfold token_registration, Registration_objects_get, gets, mbind, M_bind,
    bind.
  rewrite Hr. simpl. split; [|done]. split; [done|]. exists r.
  destruct HI as (H1 & _). by destruct (H1 _ _ Hr) as [-> _].
Qed.

Lemma triple_TokenDetail_get_v1 id request :
  triple Inv (ApiV1.TokenDetail_get id request) (λ _, Inv) Inv.
Proof.
  unfold ApiV1.TokenDetail_get.
  eapply triple_bind; [apply triple_check_token_v1|intros [tok|resp]];
    [|keeps].
  eapply triple_bind; [apply triple_token_registration|intros r].
  apply (triple_pure Inv True); [by intros w [[] _]|intros _]. keeps.
Qed.

Lemma triple_TokenDetail_post_v1 id request :
  triple Inv (ApiV1.TokenDetail_post id request) (λ _, Inv) Inv.
Proof.
  unfold ApiV1.TokenDetail_post.
  eapply triple_bind; [apply triple_check_token_v1|intros [tok|resp]];
    [|keeps].
  eapply triple_bind; [apply triple_token_registration|intros r].
  apply (triple_pure (Appr (uuid r)) (approved r = true)); [done|intros Hap].
  over as rows. over as [required_fields acts].
  destruct (collect_fields _ _) as [data_ errors].
  destruct (negb _); [keeps|]. over as [[]|resp]; [|keeps]. over as t.
  eapply triple_bind; [by apply triple_Registration_save_completed|intros []].
  keeps.
Qed.

Lemma triple_process_actions_v1 self request :
  triple Inv (ApiV1.process_actions self request) processed_ok Inv.
Proof.
  unfold ApiV1.process_actions. over as [act_list valid].
  destruct valid; [|by apply triple_ret].
  eapply triple_bind; [apply triple_Registration_objects_create|intros r].
  over as [[]|errors].
  - by apply triple_ret.
  - apply triple_ret. intros w. apply InDB_Inv.
Qed.

Lemma triple_approve_v1 r :
  triple (InDB r) (ApiV1.approve r) (λ _, Inv) Inv.
Proof.
  unfold ApiV1.approve. over as t.
  eapply triple_bind; [apply triple_Registration_save_approved|intros []].
  over as rows. over as [acts valid]. destruct valid; [|keeps].
  over as [[valid need_token]|resp]; [|keeps].
  destruct valid; [|keeps].
  by apply (triple_finish_v1 (set_approved t r)).
Qed.

Lemma triple_processed_v1 p (k : Registration → M (World KS) Response) :
  (∀ r, triple (InDB r) (k r) (λ _, Inv) Inv) →
  triple (processed_ok p)
    (match processed_errors p with
     | Some resp => ret resp
     | None => registration ← processed_registration p; k registration
     end) (λ _, Inv) Inv.
Proof.
  intros Hk. destruct p as [r|errors|errors]; simpl.
  - eapply triple_bind; [|intros r'; apply Hk].
    intros w Hw. done.
  - case_bool_decide; [|keeps].
    eapply triple_bind; [|intros r'; apply Hk]. intros w Hw. done.
  - case_bool_decide; [|keeps].
    eapply triple_bind; [|intros r'; apply Hk]. intros w Hw. done.
Qed.

Lemma triple_dispatch_v1 e request :
  triple Inv (ApiV1.dispatch e request) (λ _, Inv) Inv.
Proof.
  destruct e; simpl.
  - unfold ApiV1.CreateProject_post.
    eapply triple_bind; [apply triple_process_actions_v1|intros p].
    apply triple_processed_v1. intros r. keeps.
  - apply triple_admin_or_owner_v1. unfold ApiV1.AttachUser_post_.
    eapply triple_bind; [apply triple_process_actions_v1|intros p].
    apply triple_processed_v1. apply triple_approve_v1.
  - unfold ApiV1.ResetPassword_post.
    eapply triple_bind; [apply triple_process_actions_v1|intros p].
    apply triple_processed_v1. apply triple_approve_v1.
  - apply triple_RegistrationDetail_post_v1.
  - apply triple_TokenDetail_get_v1.
  - apply triple_TokenDetail_post_v1.
Qed.

Lemma reachable_Inv_v1 w : ApiV1.reachable w → Inv w.
Proof.
  induction 1 as [k|w e request _ IH|w k _ IH].
  - apply Inv_empty_world.
  - pose proof (triple_dispatch_v1 e request w IH) as H.
    by destruct (ApiV1.dispatch e request w) as [[?|?] ?].
  - done.
Qed.

End ApiV1Invariant.

(** ** Token lifetimes *)
Section Issued.
Context {KS : Type} `{!Env KS}.
Implicit Types w : World KS.

Global Instance issued_lax : @Lax KS issued.
Proof.
  split_lax; try (intros; split; simpl; [lia|intros; by left]).
  intros w1 w2 w3 [Hle1 H1] [Hle2 H2]. split; [lia|].
  intros k t Hk. destruct (H2 _ _ Hk) as [Hk2|(n & Hn & He)].
  - destruct (H1 _ _ Hk2) as [?|(n & Hn & He)]; [by left|].
    right. exists n. split; [lia|done].
  - right. exists n. split; [lia|done].
Qed.

Lemma issued_same_tokens w w' :
  (ticks w ≤ ticks w')%nat → tokens w' ⊆ tokens w → issued w w'.
Proof.
  intros Hle Hsub. split; [done|]. intros k t Hk. left.
  by eapply lookup_weaken.
Qed.

Lemma issued_uuid4_hex : respects issued uuid4_hex.
Proof. intros w. by apply issued_same_tokens. Qed.

Lemma issued_Token_delete t : respects issued (Token_delete t).
Proof. intros w. apply issued_same_tokens; [done|apply delete_subseteq]. Qed.

Lemma issued_delete_expired (t : Z) :
  respects issued
    (modify (with_tokens (KS:=KS)
               (filter (λ kt : nat * Token, ¬ (expires (snd kt) < t)%Z)))).
Proof.
  intros w. apply issued_same_tokens; [done|apply map_filter_subseteq].
Qed.

Lemma issued_with_registrations f :
  respects issued (modify (with_registrations (KS:=KS) f)).
Proof. intros w. by apply issued_same_tokens. Qed.

Lemma issued_create_token r : respects issued (create_token r).
Proof.
  intros w. split; simpl; [lia|].
  intros k t [[<- <-]|[_ H]]%lookup_insert_Some; [|by left].
  right. exists (ticks w). split; [lia|]. simpl. unfold timedelta_hours. lia.
Qed.

Hint Resolve issued_uuid4_hex issued_Token_delete issued_delete_expired
  issued_with_registrations issued_create_token : respects.

Lemma issued_Registration_objects_create ip ku v :
  respects issued (Registration_objects_create ip ku v).
Proof. unfold Registration_objects_create. respects_auto. Qed.

Lemma issued_Registration_save r : respects issued (Registration_save r).
Proof. unfold Registration_save. respects_auto. Qed.

Hint Resolve issued_Registration_objects_create issued_Registration_save
  respects_registration_tokens : respects.

Lemma issued_admin (func : Request → M (World KS) Response) request :
  respects issued (func request) →
  respects issued (StackTask.admin func request).
Proof. intros. unfold StackTask.admin. respects_auto. Qed.

Lemma issued_finish view r acts nt failed :
  (∀ e, respects issued (failed e)) →
  respects issued (StackTask.finish view r acts nt failed).
Proof.
  intros. unfold StackTask.finish, StackTask.issue_token, StackTask.complete.
  respects_auto.
Qed.

Lemma issued_process_actions self request :
  respects issued (StackTask.process_actions self request).
Proof. unfold StackTask.process_actions. respects_auto. Qed.

Lemma issued_approve self r : respects issued (StackTask.approve self r).
Proof.
  unfold StackTask.approve. respects_auto. apply issued_finish.
  intros. respects_auto.
Qed.

Hint Resolve issued_process_actions issued_approve : respects.

Lemma issued_dispatch e request :
  respects issued (StackTask.dispatch e request).
Proof.
  destruct e; simpl; try apply issued_admin.
  - unfold StackTask.CreateProject_post. respects_auto.
  - unfold StackTask.AttachUser_post, StackTask.admin_or_owner,
      StackTask.AttachUser_post_. respects_auto.
  - unfold StackTask.ResetPassword_post. respects_auto.
  - unfold StackTask.RegistrationDetail_put_. respects_auto.
  - unfold StackTask.RegistrationDetail_post_. respects_auto.
    apply issued_finish. intros. respects_auto.
  - unfold StackTask.TokenList_post_, StackTask.issue_token. respects_auto.
  - unfold StackTask.TokenList_delete_. respects_auto.
  - unfold StackTask.TokenDetail_get, StackTask.check_token. respects_auto.
  - unfold StackTask.TokenDetail_post, StackTask.check_token. respects_auto.
  - unfold StackTask.NotificationList_post_. respects_auto.
  - unfold StackTask.NotificationDetail_post_. respects_auto.
Qed.

Lemma issued_finish_v1 r acts nt : respects issued (ApiV1.finish r acts nt).
Proof. unfold ApiV1.finish. respects_auto. Qed.

Lemma issued_process_actions_v1 self request :
  respects issued (ApiV1.process_actions self request).
Proof. unfold ApiV1.process_actions. respects_auto. Qed.

Lemma issued_approve_v1 r : respects issued (ApiV1.approve r).
Proof.
  unfold ApiV1.approve. respects_auto; apply issued_finish_v1.
Qed.

Hint Resolve issued_finish_v1 issued_process_actions_v1 issued_approve_v1
  : respects.

Lemma issued_dispatch_v1 e request :
  respects issued (ApiV1.dispatch e request).
Proof.
  destruct e; simpl.
  - unfold ApiV1.CreateProject_post. respects_auto.
  - unfold ApiV1.AttachUser_post, ApiV1.admin_or_owner,
      ApiV1.AttachUser_post_. respects_auto.
  - unfold ApiV1.ResetPassword_post. respects_auto.
  - unfold ApiV1.RegistrationDetail_post, ApiV1.admin,
      ApiV1.RegistrationDetail_post_. respects_auto.
  - unfold ApiV1.TokenDetail_get, ApiV1.check_token. respects_auto.
  - unfold ApiV1.TokenDetail_post, ApiV1.check_token. respects_auto.
Qed.

Lemma lifetimes_issued w w' : lifetimes_ok w → issued w w' → lifetimes_ok w'.
Proof.
  intros Hw [Hle Hi] k t Hk. destruct (Hi _ _ Hk) as [Hk'|(n & Hn & He)].
  - destruct (Hw _ _ Hk') as (n & Hn & He). exists n. split; [lia|done].
  - exists n. split; [lia|done].
Qed.

Lemma reachable_lifetimes w : StackTask.reachable w → lifetimes_ok w.
Proof.
  induction 1 as [k|w e request _ IH|w k _ IH].
  - intros ? ? Hl. simpl in Hl. by rewrite lookup_empty in Hl.
  - eapply lifetimes_issued; [exact IH|apply issued_dispatch].
  - done.
Qed.

Lemma reachable_lifetimes_v1 w : ApiV1.reachable w → lifetimes_ok w.
Proof.
  induction 1 as [k|w e request _ IH|w k _ IH].
  - intros ? ? Hl. simpl in Hl. by rewrite lookup_empty in Hl.
  - eapply lifetimes_issued; [exact IH|apply issued_dispatch_v1].
  - done.
Qed.

End Issued.

(** ** What the intake and the redemption compute *)
Section Functional.
Context {KS : Type} `{!Env KS}.
Implicit Types w : World KS.

Lemma run_serializers_loop names request w acc_list acc_valid :
  Forall (λ n, is_Some (ACTION_CLASSES !! n)) names →
  ∃ act_list,
    foldM names (acc_list, acc_valid)
      (λ action '(act_list, valid),
         entry ← getitem ACTION_CLASSES action;
         let serializer :=
           (λ f : Serializer, f (req_data request)) <$> snd entry in
         ret (act_list ++ [{| ae_name := action; ae_action := fst entry;
                              ae_serializer := serializer |}],
              match serializer with
              | Some s => if is_valid s then valid else false
              | None => valid
              end)) w
    = (Ok (acc_list ++ act_list,
           acc_valid && all_valid (configured_serializers names request)), w) ∧
    ae_serializer <$> act_list = configured_serializers names request.
Proof.
  intros Hnames. revert acc_list acc_valid.
  induction Hnames as [|n names [entry Hn] _ IH]; intros acc_list acc_valid.
  - exists []. simpl. unfold ret. by rewrite app_nil_r, andb_true_r.
  - rewrite run_foldM_cons, run_bind, (run_getitem_Some _ _ _ _ Hn).
    cbv beta iota zeta. unfold ret at 1.
    edestruct IH as (act_list & -> & Hsers).
    eexists (_ :: act_list). split.
    + f_equal. f_equal. f_equal; [by rewrite <- app_assoc|].
      unfold all_valid. simpl. rewrite Hn.
      destruct (snd entry) as [f|]; simpl; [|done].
      destruct (is_valid _); simpl; [done|]. by rewrite andb_false_r.
    + simpl. rewrite Hn. by f_equal.
Qed.

Lemma run_serializers_spec names request w :
  Forall (λ n, is_Some (ACTION_CLASSES !! n)) names →
  ∃ act_list,
    run_serializers names request w
    = (Ok (act_list, all_valid (configured_serializers names request)), w) ∧
    ae_serializer <$> act_list = configured_serializers names request.
Proof.
  intros Hnames.
  destruct (run_serializers_loop names request w [] true Hnames)
    as (act_list & Hrun & Hsers).
  exists act_list. split; [|done]. exact Hrun.
Qed.

(** The merged errors are the union of the validators' errors: every
    field of the result is reported by some failing validator, with that
    validator's messages, and every field a failing validator reports is
    in the result. *)
Lemma collect_errors_acc sers acc :
  foldl (λ errors ser,
           match ser with
           | Some s => serializer_errors s ∪ errors
           | None => errors
           end) acc sers
  = collect_errors sers ∪ acc.
Proof.
  revert acc. unfold collect_errors.
  induction sers as [|ser sers IH]; intros acc; simpl.
  - by rewrite (left_id_L ∅ (∪)).
  - rewrite IH, (IH (match ser with Some s => _ | None => _ end)).
    destruct ser as [s|]; [|by rewrite (right_id_L ∅ (∪))].
    by rewrite (right_id_L ∅ (∪)), (assoc_L (∪)).
Qed.

Lemma collect_errors_lookup sers k v :
  collect_errors sers !! k = Some v →
  ∃ e, SerInvalid e ∈ omap id sers ∧ e !! k = Some v.
Proof.
  induction sers as [|ser sers IH]; unfold collect_errors; simpl.
  - by rewrite lookup_empty.
  - rewrite collect_errors_acc.
    intros [Hk|[_ Hk]]%lookup_union_Some_raw.
    + destruct (IH Hk) as (e & He & Hek). exists e. split; [|done].
      destruct ser; simpl; [by right|done].
    + destruct ser as [[d|e]|]; simpl in Hk;
        rewrite ?(right_id_L ∅ (∪)), ?lookup_empty in Hk; try done.
      exists e. split; [by left|done].
Qed.

Lemma collect_errors_dom sers e k :
  SerInvalid e ∈ omap id sers → is_Some (e !! k) →
  is_Some (collect_errors sers !! k).
Proof.
  induction sers as [|ser sers IH]; unfold collect_errors; simpl.
  - by intros ?%elem_of_nil.
  - rewrite collect_errors_acc. intros Hin Hk.
    apply lookup_union_is_Some.
    destruct ser as [s|]; simpl in Hin; [|left; by apply IH].
    apply elem_of_cons in Hin as [<-|Hin]; [|left; by apply IH].
    right. simpl. by rewrite (right_id_L ∅ (∪)).
Qed.

End Functional.

(** ** The claims *)
Section Claims.
Context {KS : Type} `{!Env KS}.
Implicit Types w : World KS.

(** C4.  In every world the service can reach, through any sequence of
    requests to either generation of the views (intake, approval, token
    redemption, token re-issue, update, purge, acknowledgement) and any
    change of the identity backend, a completed registration is an
    approved one. *)
Theorem completed_implies_approved w :
  StackTask.reachable w ∨ ApiV1.reachable w →
  ∀ u r, registrations w !! u = Some r →
         completed r = true → approved r = true.
Proof.
  intros Hw u r Hr Hc.
  assert (Inv w) as (H1 & _).
  { destruct Hw; [by apply reachable_Inv|by apply reachable_Inv_v1]. }
  by apply (H1 u r Hr).
Qed.

(** C9.  Intake is all-or-nothing.  When the configured actions resolve
    and some field validator fails, [process_actions] (of either
    generation) leaves the world as it was - no Registration, no Action -
    and answers with the merged field errors; the merged errors are the
    union of the failing validators' errors: each entry is an entry of a
    failing validator, and every field a failing validator reports is
    present.  Hence a Registration is created only when every validator
    succeeds. *)
Theorem intake_is_all_or_nothing (request : Request) w (names : list string) :
  Forall (λ n, is_Some (ACTION_CLASSES !! n)) names →
  let sers := configured_serializers names request in
  let errors := collect_errors sers in
  (all_valid sers = false →
   (∀ self, StackTask.view_actions self = names →
            StackTask.process_actions self request w
            = (Ok (ProcFieldErrors errors), w)) ∧
   (∀ self, ApiV1.view_actions self = names →
            ApiV1.process_actions self request w
            = (Ok (ProcFieldErrors errors), w))) ∧
  (∀ k v, errors !! k = Some v →
          ∃ e, SerInvalid e ∈ omap id sers ∧ e !! k = Some v) ∧
  (∀ e k, SerInvalid e ∈ omap id sers → is_Some (e !! k) →
          is_Some (errors !! k)) ∧
  (∀ self, StackTask.view_actions self = names →
           registrations (snd (StackTask.process_actions self request w))
           ≠ registrations w →
           all_valid sers = true) ∧
  (∀ self, ApiV1.view_actions self = names →
           registrations (snd (ApiV1.process_actions self request w))
           ≠ registrations w →
           all_valid sers = true).
Proof.
  intros Hnames sers errors.
  destruct (run_serializers_spec names request w Hnames)
    as (act_list & Hrun & Hsers). fold sers in Hrun, Hsers.
  assert (all_valid sers = false →
    (∀ self, StackTask.view_actions self = names →
            StackTask.process_actions self request w
            = (Ok (ProcFieldErrors errors), w)) ∧
    (∀ self, ApiV1.view_actions self = names →
            ApiV1.process_actions self request w
            = (Ok (ProcFieldErrors errors), w))) as Hfail.
  { intros Hinv. rewrite Hinv in Hrun. split; intros self Hself.
    - unfold StackTask.process_actions. rewrite Hself, run_bind, Hrun.
      cbv beta iota. unfold errors. by rewrite Hsers.
    - unfold ApiV1.process_actions. rewrite Hself, run_bind, Hrun.
      cbv beta iota. unfold errors. by rewrite Hsers. }
  split; [done|]. split; [apply collect_errors_lookup|].
  split; [apply collect_errors_dom|].
  split; intros self Hself Hne; destruct (all_valid sers) eqn:Hall; try done;
    destruct (Hfail eq_refl) as [H1 H2]; exfalso; apply Hne.
  - by rewrite (H1 self Hself).
  - by rewrite (H2 self Hself).
Qed.

(** C6.  Token redemption checks its preconditions in order.  In
    [stacktask/api/v1/views.py]: an unknown token id is answered with the
    not-found error and nothing changes; a token of a completed
    registration is answered with the already-completed error and nothing
    changes (whether or not the token has expired); a token of an
    uncompleted registration that has expired is deleted and answered with
    the expiry error.  In [api_v1/views.py] there is no completed check:
    an unknown id is answered with the not-found error, and an expired
    token is deleted and answered with the expiry error, completed or not.
    In none of these cases does a call of [submit] enter the history, and
    the Action table and the backend are as before. *)
Theorem token_redemption_preconditions (id : nat) (request : Request) w :
  (tokens w !! id = None →
   StackTask.TokenDetail_post id request w = (Ok StackTask.no_token, w) ∧
   ApiV1.TokenDetail_post id request w = (Ok ApiV1.no_token, w)) ∧
  (∀ tok r,
     tokens w !! id = Some tok →
     registrations w !! tok_registration tok = Some r →
     completed r = true →
     StackTask.TokenDetail_post id request w
     = (Ok StackTask.already_completed, w)) ∧
  (∀ tok r,
     tokens w !! id = Some tok →
     registrations w !! tok_registration tok = Some r →
     completed r = false →
     (expires tok < timezone_now (ticks w))%Z →
     StackTask.TokenDetail_post id request w
     = (Ok StackTask.token_expired,
        with_tokens (delete (token tok)) (with_ticks (S (ticks w)) w))) ∧
  (∀ tok,
     tokens w !! id = Some tok →
     (expires tok < timezone_now (ticks w))%Z →
     let w' := with_tokens (delete (token tok)) (with_ticks (S (ticks w)) w) in
     ApiV1.TokenDetail_post id request w = (Ok ApiV1.token_expired, w') ∧
     calls w' = calls w ∧ actions w' = actions w ∧ ks w' = ks w ∧
     registrations w' = registrations w).
Proof.
  unfold StackTask.TokenDetail_post, ApiV1.TokenDetail_post,
    StackTask.check_token, ApiV1.check_token, Token_objects_get,
    token_registration, Registration_objects_get, Token_delete, now.
  repeat split.
  - rewrite !run_bind. unfold gets. by rewrite H.
  - rewrite !run_bind. unfold gets. by rewrite H.
  - intros tok r Htok Hr Hc. rewrite !run_bind. unfold gets.
    rewrite Htok. cbv beta iota. rewrite !run_bind. rewrite Hr.
    cbv beta iota. unfold ret at 1. cbv beta iota. by rewrite Hc.
  - intros tok r Htok Hr Hc Hexp. rewrite !run_bind. unfold gets.
    rewrite Htok. cbv beta iota. rewrite !run_bind. rewrite Hr.
    cbv beta iota. unfold ret at 1. cbv beta iota. rewrite Hc.
    rewrite !run_bind. cbv beta iota.
    rewrite bool_decide_eq_true_2 by done. reflexivity.
  - rewrite !run_bind. unfold gets. rewrite H. cbv beta iota.
    rewrite !run_bind. cbv beta iota.
    rewrite bool_decide_eq_true_2 by done. reflexivity.
Qed.

(** C10.  Token lifetime.  [create_token] never fails; the token it
    inserts belongs to the given registration and expires exactly 24 hours
    (86400 seconds) after the clock reading [create_token] takes on entry;
    neither a request nor a setting is consulted.  And in every world
    either generation of the service can reach, every token in the table
    expires 24 hours after one of the clock readings taken so far. *)
Theorem token_expires_after_24_hours :
  (∀ (registration : Registration) w,
     ∃ tok,
       fst (create_token registration w) = Ok tok ∧
       tokens (snd (create_token registration w))
       = <[token tok := tok]> (tokens w) ∧
       tok_registration tok = uuid registration ∧
       expires tok = (timezone_now (ticks w) + 24 * 3600)%Z) ∧
  (∀ w, StackTask.reachable w ∨ ApiV1.reachable w →
        ∀ k t, tokens w !! k = Some t →
               ∃ n, (n < ticks w)%nat ∧
                    expires t = (timezone_now n + 24 * 3600)%Z).
Proof.
  split.
  - intros registration w. eexists. split; [reflexivity|]. simpl.
    split; [done|]. split; [done|]. unfold timedelta_hours. lia.
  - intros w [Hw|Hw].
    + by apply reachable_lifetimes.
    + by apply reachable_lifetimes_v1.
Qed.

End Claims.

(** ** What a step leaves alone, and the approval mark *)
Section MoreRelations.
Context {KS : Type} `{!Env KS}.
Implicit Types w : World KS.

Global Instance bookkeeping_quiet : @Quiet KS bookkeeping.
Proof.
  split; [split|..]; try (intros; by repeat split).
  intros w1 w2 w3 (?&?&?&?&?&?&?) (?&?&?&?&?&?&?).
  repeat split; congruence.
Qed.

Global Instance kept_rows : @Rows KS kept.
Proof.
  split; [split; [split|..]|..]; try (intros; by repeat split).
  intros w1 w2 w3 (?&?&?&?) (?&?&?&?). repeat split; congruence.
Qed.

Global Instance stays_approved_lax u t : @Lax KS (stays_approved u t).
Proof.
  split_lax; try (by intros ? ?); try (intros; by intros ?).
  intros w1 w2 w3 H1 H2 ?. by apply H2, H1.
Qed.

Lemma bookkeeping_kept w w' : bookkeeping w w' → kept w w'.
Proof. intros (?&?&?&?&?&?&?). by repeat split. Qed.

Lemma kept_unchanged w w' : kept w w' → unchanged w w'.
Proof. intros (?&?&?&?). by repeat split. Qed.

Lemma stays_approved_create_token u t r :
  respects (stays_approved u t) (create_token r).
Proof. intros w H. exact H. Qed.

Lemma stays_approved_Registration_save u t r :
  (uuid r = u → approved r = true ∧ approved_on r = Some t) →
  respects (stays_approved (KS:=KS) u t) (Registration_save r).
Proof.
  intros Hr w (r0 & Hr0 & Hap). unfold approved_at. simpl.
  destruct (decide (uuid r = u)) as [He|Hne].
  - exists r. rewrite <- He, lookup_insert_eq. by destruct (Hr He).
  - exists r0. by rewrite lookup_insert_ne.
Qed.

End MoreRelations.

#[global] Hint Resolve stays_approved_create_token : respects.

Section Approval.
Context {KS : Type} `{!Env KS}.
Implicit Types w : World KS.

Lemma stays_approved_finish view r t acts need_token failed :
  (∀ e, respects (stays_approved (uuid r) t) (failed e)) →
  respects (stays_approved (uuid r) t)
    (StackTask.finish view (set_approved t r) acts need_token failed).
Proof.
  intros Hf. unfold StackTask.finish, StackTask.issue_token, StackTask.complete.
  destruct need_token; [respects_auto|].
  respects_auto. by apply stays_approved_Registration_save.
Qed.

Lemma stays_approved_finish_v1 r t acts need_token :
  respects (stays_approved (uuid r) t)
    (ApiV1.finish (set_approved t r) acts need_token).
Proof.
  unfold ApiV1.finish. destruct need_token; [respects_auto|].
  respects_auto. by apply stays_approved_Registration_save.
Qed.

Lemma approved_at_saved r t w :
  approved_at (uuid r) t (snd (Registration_save (set_approved t r) w)).
Proof. exists (set_approved t r). simpl. by rewrite lookup_insert_eq. Qed.

Lemma approve_marks self r w :
  approved_at (uuid r) (timezone_now (ticks w))
    (snd (StackTask.approve self r w)).
Proof.
  unfold StackTask.approve. rewrite run_bind. unfold now at 1.
  cbv beta iota. rewrite run_bind. unfold Registration_save at 1, modify at 1.
  cbv beta iota.
  match goal with |- approved_at _ _ (snd (?m ?w1)) =>
    assert (respects (stays_approved (uuid r) (timezone_now (ticks w))) m)
      as Hm end.
  { respects_auto. apply stays_approved_finish. intros e. respects_auto. }
  apply Hm. exact (approved_at_saved r _ _).
Qed.

Lemma approve_marks_v1 r w :
  approved_at (uuid r) (timezone_now (ticks w)) (snd (ApiV1.approve r w)).
Proof.
  unfold ApiV1.approve. rewrite run_bind. unfold now at 1.
  cbv beta iota. rewrite run_bind. unfold Registration_save at 1, modify at 1.
  cbv beta iota.
  match goal with |- approved_at _ _ (snd (?m ?w1)) =>
    assert (respects (stays_approved (uuid r) (timezone_now (ticks w))) m)
      as Hm end.
  { respects_auto. apply stays_approved_finish_v1. }
  apply Hm. exact (approved_at_saved r _ _).
Qed.

Lemma RegistrationDetail_post_marks_v1 u request r w :
  registrations w !! u = Some r →
  req_data request !! "approved" = Some (VBool true) →
  completed r = false →
  approved_at (uuid r) (timezone_now (ticks w))
    (snd (ApiV1.RegistrationDetail_post_ u request w)).
Proof.
  intros Hr Hreq Hc. unfold ApiV1.RegistrationDetail_post_.
  rewrite run_bind. unfold Registration_objects_get at 1, gets at 1.
  rewrite Hr. cbv beta iota. rewrite bool_decide_eq_true_2 by done.
  rewrite Hc. rewrite run_bind. unfold now at 1.
  cbv beta iota. rewrite run_bind. unfold Registration_save at 1, modify at 1.
  cbv beta iota.
  match goal with |- approved_at _ _ (snd (?m ?w1)) =>
    assert (respects (stays_approved (uuid r) (timezone_now (ticks w))) m)
      as Hm end.
  { respects_auto. apply stays_approved_finish_v1. }
  apply Hm. exact (approved_at_saved r _ _).
Qed.

Lemma RegistrationDetail_post_run u request r w :
  registrations w !! u = Some r →
  req_data request !! "approved" = Some (VBool true) →
  completed r = false →
  StackTask.RegistrationDetail_post_ u request w
  = (r1 ← post_approve_rows
            (merge_sort order_le
               (filter (λ a, act_registration a = uuid r) (actions w)))
            (StackTask.step_failed_notes StackTask.approving_fmt r);
     match r1 with
     | inr resp => ret resp
     | inl (acts, valid, need_token) =>
         if valid : bool then
           t ← now;
           let registration := set_approved t r in
           _ ← Registration_save registration;
           StackTask.finish (action_view registration) registration acts
             need_token
             (StackTask.step_failed_notes StackTask.submitting_fmt
                registration)
         else ret StackTask.actions_invalid
     end) w.
Proof.
  intros Hr Hreq Hc. unfold StackTask.RegistrationDetail_post_.
  rewrite run_bind. unfold Registration_objects_get at 1, gets at 1.
  rewrite Hr. cbv beta iota. rewrite bool_decide_eq_true_2 by done.
  rewrite Hc. reflexivity.
Qed.

Lemma RegistrationDetail_post_gated u request r w :
  registrations w !! u = Some r →
  req_data request !! "approved" = Some (VBool true) →
  completed r = false →
  let rows := merge_sort order_le
                (filter (λ a, act_registration a = uuid r) (actions w)) in
  let '(res, w1) :=
    post_approve_rows rows
      (StackTask.step_failed_notes StackTask.approving_fmt r) w in
  registrations w1 = registrations w ∧
  match res with
  | Ok (inl (acts, true, need_token)) =>
      approved_at (uuid r) (timezone_now (ticks w1))
        (snd (StackTask.RegistrationDetail_post_ u request w))
  | Ok (inl (acts, false, need_token)) =>
      StackTask.RegistrationDetail_post_ u request w
      = (Ok StackTask.actions_invalid, w1)
  | Ok (inr resp) =>
      StackTask.RegistrationDetail_post_ u request w = (Ok resp, w1)
  | Raise e =>
      StackTask.RegistrationDetail_post_ u request w = (Raise e, w1)
  end.
Proof.
  intros Hr Hreq Hc rows.
  pose proof (respects_post_approve_rows unchanged rows
    (StackTask.step_failed_notes StackTask.approving_fmt r)
    ltac:(intros; respects_auto) w) as Hun.
  rewrite (RegistrationDetail_post_run u request r w Hr Hreq Hc).
  fold rows. rewrite run_bind.
  destruct (post_approve_rows rows _ w) as [[[[[acts valid] nt]|resp]|e] w1];
    simpl in Hun; destruct Hun as (Hregs & _); (split; [done|]); try done.
  destruct valid; [|done].
  rewrite run_bind. unfold now at 1.
  cbv beta iota. rewrite run_bind. unfold Registration_save at 1, modify at 1.
  cbv beta iota.
  match goal with |- approved_at _ _ (snd (?m ?w2)) =>
    assert (respects (stays_approved (uuid r) (timezone_now (ticks w1))) m)
      as Hm end.
  { apply stays_approved_finish. intros e. respects_auto. }
  apply Hm. exact (approved_at_saved r _ _).
Qed.

(** C2.  Where the approval is recorded.  [ActionView.approve] (of
    either generation) and the [RegistrationDetail.post] of
    [api_v1/views.py] mark the registration approved, with the first clock
    reading of the call as approval time, before [post_approve] runs and
    whatever the outcome.  The [RegistrationDetail.post] of
    [stacktask/api/v1/views.py] does not: it runs [post_approve] on every
    action first and marks the registration only when none raised and all
    are valid; when an action is invalid or a [post_approve] raised, the
    Registration table is left as it was. *)
Theorem approval_is_recorded :
  (∀ self r w,
     approved_at (uuid r) (timezone_now (ticks w))
       (snd (StackTask.approve self r w))) ∧
  (∀ r w,
     approved_at (uuid r) (timezone_now (ticks w)) (snd (ApiV1.approve r w))) ∧
  (∀ u request r w,
     registrations w !! u = Some r →
     req_data request !! "approved" = Some (VBool true) →
     completed r = false →
     approved_at (uuid r) (timezone_now (ticks w))
       (snd (ApiV1.RegistrationDetail_post_ u request w))) ∧
  (∀ u request r w,
     registrations w !! u = Some r →
     req_data request !! "approved" = Some (VBool true) →
     completed r = false →
     let rows := merge_sort order_le
                   (filter (λ a, act_registration a = uuid r) (actions w)) in
     let '(res, w1) :=
       post_approve_rows rows
         (StackTask.step_failed_notes StackTask.approving_fmt r) w in
     registrations w1 = registrations w ∧
     match res with
     | Ok (inl (acts, true, need_token)) =>
         approved_at (uuid r) (timezone_now (ticks w1))
           (snd (StackTask.RegistrationDetail_post_ u request w))
     | Ok (inl (acts, false, need_token)) =>
         StackTask.RegistrationDetail_post_ u request w
         = (Ok StackTask.actions_invalid, w1)
     | Ok (inr resp) =>
         StackTask.RegistrationDetail_post_ u request w = (Ok resp, w1)
     | Raise e =>
         StackTask.RegistrationDetail_post_ u request w = (Raise e, w1)
     end).
Proof.
  split; [apply approve_marks|]. split; [apply approve_marks_v1|].
  split; [apply RegistrationDetail_post_marks_v1|].
  apply RegistrationDetail_post_gated.
Qed.

End Approval.

(** ** The two outcomes of an approval *)
Section Outcome.
Context {KS : Type} `{!Env KS}.
Implicit Types w : World KS.

Global Instance order_le_total : Total order_le.
Proof. intros a b. unfold order_le. lia. Qed.

Global Instance order_le_trans : Transitive order_le.
Proof. intros a b c. unfold order_le. lia. Qed.

(** [registration.actions] reads the rows of the registration in
    ascending [order]. *)
Lemma registration_actions_sorted u w :
  ∃ rows, registration_actions u w = (Ok rows, w) ∧
          StronglySorted order_le rows ∧
          rows ≡ₚ filter (λ a, act_registration a = u) (actions w).
Proof.
  eexists. split; [reflexivity|]. split.
  - apply StronglySorted_merge_sort; apply _.
  - apply merge_sort_Permutation.
Qed.

Lemma get_action_id row w act w' :
  get_action row w = (Ok act, w') → ba_id act = act_id row ∧ w' = w.
Proof.
  unfold get_action. rewrite run_bind. unfold getitem.
  destruct (ACTION_CLASSES !! action_name row) as [entry|]; [|done].
  unfold ret at 1. cbv beta iota. rewrite run_bind. unfold lift_result.
  destruct (cls_new entry.1 (action_data row)); [|done].
  unfold ret. by intros [= <- <-].
Qed.

(** The loops that wrap the rows keep their order. *)
Lemma wrap_actions_ids rows w acts v w' :
  wrap_actions rows w = (Ok (acts, v), w') →
  ba_id <$> acts = act_id <$> rows.
Proof.
  unfold wrap_actions.
  enough (∀ acc v0,
    foldM rows (acc, v0)
      (λ action '(acts, valid),
         act ← get_action action;
         v ← action_valid act;
         ret (acts ++ [act], if v : bool then valid else false)) w
    = (Ok (acts, v), w') →
    ba_id <$> acts = (ba_id <$> acc) ++ (act_id <$> rows)) as H.
  { intros Hrun. by apply (H [] true). }
  revert w. induction rows as [|row rows IH]; intros w acc v0.
  - simpl. unfold ret. intros [= <- <- <-]. by rewrite app_nil_r.
  - rewrite run_foldM_cons, run_bind.
    destruct (get_action row w) as [[act|e] w1] eqn:Hact; [|done].
    apply get_action_id in Hact as [Hid ->].
    rewrite run_bind. unfold action_valid at 1, gets at 1. cbv beta iota.
    unfold ret at 1. intros Hrun%IH.
    rewrite Hrun, fmap_app. simpl. rewrite Hid, <- app_assoc. done.
Qed.

Lemma post_approve_rows_ids rows failed w acts v nt w' :
  post_approve_rows rows failed w = (Ok (inl (acts, v, nt)), w') →
  ba_id <$> acts = act_id <$> rows.
Proof.
  unfold post_approve_rows.
  enough (∀ acc v0 nt0,
    for_ rows (acc, v0, nt0)
      (λ action '(acts, valid, need_token),
         act_model ← get_action action;
         r ← try_except (_ ← post_approve act_model; ret None)
                        (λ e, resp ← failed e; ret (Some resp));
         match r with
         | Some resp => ret (inr resp)
         | None =>
             v ← action_valid act_model;
             nt ← action_need_token act_model;
             ret (inl (acts ++ [act_model],
                       if v : bool then valid else false,
                       if nt : bool then true else need_token))
         end) w
    = (Ok (inl (acts, v, nt)), w') →
    ba_id <$> acts = (ba_id <$> acc) ++ (act_id <$> rows)) as H.
  { intros Hrun. by apply (H [] true false). }
  revert w. induction rows as [|row rows IH]; intros w acc v0 nt0.
  - simpl. unfold ret. intros [= <- <- <- <-]. by rewrite app_nil_r.
  - rewrite run_for_cons, run_bind.
    destruct (get_action row w) as [[act|e] w1] eqn:Hact; [|done].
    apply get_action_id in Hact as [Hid ->].
    rewrite run_bind.
    destruct (try_except _ _ w) as [[[resp|]|e] w1]; [done| |done].
    rewrite run_bind. unfold action_valid at 1, gets at 1. cbv beta iota.
    rewrite run_bind. unfold action_need_token at 1, gets at 1.
    cbv beta iota. unfold ret at 1. intros Hrun%IH.
    rewrite Hrun, fmap_app. simpl. rewrite Hid, <- app_assoc. done.
Qed.

(** The submit loop: [submit] is called on the actions in their order,
    up to and including the first one that raises, whose handler gives
    the result; the tables of registrations and tokens are not touched. *)
Lemma submit_all_calls acts d failed w :
  (∀ e, respects kept (failed e)) →
  let '(res, w') := StackTask.submit_all acts d failed w in
  registrations w' = registrations w ∧ tokens w' = tokens w ∧
  uuids w' = uuids w ∧
  ∃ n, (n ≤ length acts)%nat ∧
       calls w' = calls w ++ ((λ a, CallSubmit (ba_id a) d) <$> take n acts) ∧
       match res with
       | Ok (inl _) => n = length acts
       | Ok (inr resp) =>
           (0 < n)%nat ∧ ∃ e w2, fst (failed e w2) = Ok resp
       | Raise e' =>
           (0 < n)%nat ∧ ∃ e w2, fst (failed e w2) = Raise e'
       end.
Proof.
  intros Hf. unfold StackTask.submit_all. revert w.
  induction acts as [|a acts IH]; intros w.
  - simpl. repeat split; try done. exists 0%nat. simpl.
    by rewrite app_nil_r.
  - rewrite run_for_cons. unfold try_except at 1. rewrite run_bind.
    unfold submit at 1. rewrite run_bind. unfold modify at 1.
    cbv beta iota.
    set (w1 := with_calls (λ l, l ++ [CallSubmit (ba_id a) d]) w).
    pose proof (respects_run_method kept (ba_id a) (obj_submit (ba_obj a) d) w1)
      as Hrun.
    destruct (run_method _ _ w1) as [[notes|e] w2];
      simpl in Hrun; destruct Hrun as (Hr & Ht & Hu & Hc);
      subst w1; simpl in Hr, Ht, Hu, Hc.
    + unfold ret at 1. cbv beta iota. specialize (IH w2).
      destruct (for_ acts tt _ w2) as [res w'].
      destruct IH as (Hr' & Ht' & Hu' & n & Hn & Hc' & Hres).
      split; [congruence|]. split; [congruence|]. split; [congruence|].
      exists (S n). split; [simpl; lia|]. split.
      * rewrite Hc', Hc. simpl. by rewrite <- app_assoc.
      * destruct res as [[|]|]; simpl; [lia|..];
          (split; [lia|by destruct Hres]).
    + rewrite run_bind. pose proof (Hf e w2) as Hfe.
      destruct (failed e w2) as [[resp|e'] w3] eqn:Hfail; simpl in Hfe;
        destruct Hfe as (Hr' & Ht' & Hu' & Hc').
      * unfold ret.
        split; [congruence|]. split; [congruence|]. split; [congruence|].
        exists 1%nat. split; [simpl; lia|]. split.
        -- rewrite Hc', Hc. simpl. by destruct acts.
        -- split; [lia|]. exists e, w2. by rewrite Hfail.
      * split; [congruence|]. split; [congruence|]. split; [congruence|].
        exists 1%nat. split; [simpl; lia|]. split.
        -- rewrite Hc', Hc. simpl. by destruct acts.
        -- split; [lia|]. exists e, w2. by rewrite Hfail.
Qed.

(** The handlers of a failed step answer, with status 500. *)
Lemma step_failed_generic_status r e w :
  ∃ resp, fst (StackTask.step_failed_generic StackTask.submitting_fmt r e w)
          = Ok resp ∧ status resp = 500.
Proof. eexists. split; reflexivity. Qed.

Lemma step_failed_notes_status r e w :
  ∃ resp, fst (StackTask.step_failed_notes StackTask.submitting_fmt r e w)
          = Ok resp ∧ status resp = 500.
Proof. eexists. split; reflexivity. Qed.

Lemma step_failed_v1_status r e w :
  ∃ resp, fst (ApiV1.step_failed ApiV1.submitting_fmt r e w)
          = Ok resp ∧ status resp = 500.
Proof. eexists. split; reflexivity. Qed.

Global Instance later_lax : @Lax KS later.
Proof.
  split_lax; repeat intros ?; unfold later in *; simpl; lia.
Qed.

Lemma finish_token view r acts failed w :
  token_outcome r w (snd (StackTask.finish view r acts true failed w)).
Proof.
  unfold StackTask.finish, StackTask.issue_token. rewrite run_bind.
  destruct (create_token r w) as [res w1] eqn:Hc.
  unfold create_token in Hc. simpl in Hc. injection Hc as <- <-.
  match goal with |- token_outcome _ _ (snd (?m ?w1)) =>
    assert (respects bookkeeping m) as Hm by respects_auto;
    specialize (Hm w1) end.
  destruct Hm as (Hr & Ht & Hu & Ha & Hk & Hrc & Hcalls).
  unfold token_outcome. rewrite Hr, Ht, Ha, Hk, Hcalls. simpl.
  unfold timedelta_hours. by repeat split.
Qed.

Lemma finish_token_v1 r acts w :
  fst (ApiV1.finish r acts true w)
  = Ok (ApiV1.Response_ {["notes" := VList ["created token"]]} 200) ∧
  token_outcome r w (snd (ApiV1.finish r acts true w)).
Proof.
  split; [reflexivity|]. unfold token_outcome. simpl.
  unfold timedelta_hours. by repeat split.
Qed.

Lemma finish_submit view r acts failed w :
  (∀ e, respects kept (failed e)) →
  (∀ e, respects later (failed e)) →
  (∀ e w, ∃ resp, fst (failed e w) = Ok resp ∧ status resp = 500) →
  let '(res, w') := StackTask.finish view r acts false failed w in
  submit_outcome r acts w res w'.
Proof.
  intros Hk Hlat Hs. unfold StackTask.finish. rewrite run_bind.
  pose proof (submit_all_calls acts ∅ failed w Hk) as Hsub.
  pose proof (respects_submit_all later acts ∅ failed Hlat w) as Hl.
  destruct (StackTask.submit_all acts ∅ failed w) as [res w1].
  destruct Hsub as (Hr & Ht & Hu & n & Hn & Hc & Hres). simpl in Hl.
  destruct res as [[[]|resp]|e'].
  - unfold StackTask.complete. rewrite run_bind. unfold now at 1.
    cbv beta iota. rewrite run_bind.
    unfold Registration_save at 1, modify at 1. cbv beta iota.
    match goal with |- context [ ?m ?w2 ] =>
      lazymatch m with
      | mbind _ _ =>
          assert (respects bookkeeping m) as Hm by respects_auto;
          specialize (Hm w2); destruct (m w2) as [res w']
      end
    end.
    destruct Hm as (Hr' & Ht' & _ & _ & _ & _ & Hc'). simpl in *.
    split; [congruence|]. exists n. split; [done|]. split; [congruence|].
    left. split; [done|]. exists (ticks w1). split; [done|].
    by rewrite Hr', Hr.
  - unfold ret. split; [done|]. exists n. split; [done|]. split; [done|].
    right. destruct Hres as (Hpos & e & w2 & Hf). split; [done|].
    split; [done|]. destruct (Hs e w2) as (resp' & Hf' & Hst).
    exists resp. split; [done|]. congruence.
  - destruct Hres as (_ & e & w2 & Hf).
    destruct (Hs e w2) as (resp' & Hf' & _). congruence.
Qed.

Lemma finish_submit_v1 r acts w :
  let '(res, w') := ApiV1.finish r acts false w in
  submit_outcome r acts w res w' ∧
  (registrations w' ≠ registrations w →
   res = Ok (ApiV1.Response_
               {["notes" := VStr "Registration completed successfully."]}
               200)).
Proof.
  unfold ApiV1.finish. rewrite run_bind.
  change (ApiV1.submit_all acts ∅ r ApiV1.submitting_fmt)
    with (StackTask.submit_all acts ∅
            (ApiV1.step_failed ApiV1.submitting_fmt r)).
  set (failed := ApiV1.step_failed ApiV1.submitting_fmt r).
  assert (∀ e, respects kept (failed e)) as Hk
    by (intros; subst failed; respects_auto).
  assert (∀ e, respects later (failed e)) as Hlat
    by (intros; subst failed; respects_auto).
  pose proof (submit_all_calls acts ∅ failed w Hk) as Hsub.
  pose proof (respects_submit_all later acts ∅ failed Hlat w) as Hl.
  destruct (StackTask.submit_all acts ∅ failed w) as [res w1].
  destruct Hsub as (Hr & Ht & Hu & n & Hn & Hc & Hres). simpl in Hl.
  destruct res as [[[]|resp]|e'].
  - simpl. split; [|done].
    split; [done|]. exists n. split; [done|]. split; [done|].
    left. split; [done|]. exists (ticks w1). split; [done|].
    simpl. by rewrite Hr.
  - unfold ret. split; [|done].
    split; [done|]. exists n. split; [done|]. split; [done|].
    right. destruct Hres as (Hpos & e & w2 & Hf). split; [done|].
    split; [done|].
    destruct (step_failed_v1_status r e w2) as (resp' & Hf' & Hst).
    exists resp. split; [done|]. subst failed. congruence.
  - destruct Hres as (_ & e & w2 & Hf).
    destruct (step_failed_v1_status r e w2) as (resp' & Hf' & _).
    subst failed. congruence.
Qed.


End Outcome.

(** ** Intake creates a registration whatever the table holds *)
Section Intake.
Context {KS : Type} `{!Env KS}.
Implicit Types w : World KS.

(** C1.  Intake has no duplicate-submission guard.  Whenever the
    configured actions resolve and every field validator succeeds,
    [process_actions] (of either generation) inserts a new, unapproved
    and incomplete registration under a fresh uuid, whatever the
    Registration table holds - in particular when it holds an incomplete
    registration of the same requester with the same payload; every other
    row of the table is as before.  The sources' own test
    [test_duplicate_tasks_new_project] expects the second of two
    identical submissions to be refused with status 409. *)
Theorem intake_has_no_duplicate_guard (request : Request) w
    (names : list string) :
  Forall (λ n, is_Some (ACTION_CLASSES !! n)) names →
  all_valid (configured_serializers names request) = true →
  (∀ self, StackTask.view_actions self = names →
     registrations (snd (StackTask.process_actions self request w))
     = <[uuids w := new_registration request (StackTask.class_name self) w]>
         (registrations w)) ∧
  (∀ self, ApiV1.view_actions self = names →
     registrations (snd (ApiV1.process_actions self request w))
     = <[uuids w := new_registration request "" w]> (registrations w)).
Proof.
  intros Hnames Hall.
  destruct (run_serializers_spec names request w Hnames)
    as (act_list & Hrun & Hsers).
  rewrite Hall in Hrun. split; intros self Hself.
  - unfold StackTask.process_actions. rewrite Hself, run_bind, Hrun.
    cbv beta iota. rewrite run_bind.
    destruct (Registration_objects_create _ _ _ w) as [res w1] eqn:Hc.
    unfold Registration_objects_create in Hc. simpl in Hc.
    injection Hc as <- <-.
    match goal with |- registrations (snd (?m ?w1)) = _ =>
      assert (respects unchanged m) as Hm by respects_auto;
      destruct (Hm w1) as (-> & _) end.
    reflexivity.
  - unfold ApiV1.process_actions. rewrite Hself, run_bind, Hrun.
    cbv beta iota. rewrite run_bind.
    destruct (Registration_objects_create _ _ _ w) as [res w1] eqn:Hc.
    unfold Registration_objects_create in Hc. simpl in Hc.
    injection Hc as <- <-.
    match goal with |- registrations (snd (?m ?w1)) = _ =>
      assert (respects unchanged m) as Hm by respects_auto;
      destruct (Hm w1) as (-> & _) end.
    reflexivity.
Qed.

End Intake.

(** ** Validation never clears the flag *)
Section Validation.
Context {KS : Type} `{!IdentityManager KS}.

Global Instance sticky_preorder : PreOrder (sticky (KS:=KS)).
Proof. split; [by intros ? ?|]. intros a b c H1 H2 ?. by apply H2, H1. Qed.

Lemma sticky_id_manager {A} (m : M KS A) : respects sticky (id_manager m).
Proof. intros st Hv. unfold id_manager. by destruct (m (st_ks st)). Qed.

Lemma sticky_save_action f :
  (∀ a, valid a = true → valid (f a) = true) →
  respects (sticky (KS:=KS)) (save_action f).
Proof. intros Hf st Hv. by apply Hf. Qed.

Lemma sticky_self_registration :
  respects (sticky (KS:=KS)) self_registration.
Proof. unfold self_registration. respects_auto. Qed.

Lemma sticky_getattr cls attrs field :
  respects (sticky (KS:=KS)) (getattr cls attrs field).
Proof. unfold getattr. respects_auto. Qed.

Lemma sticky_py_in n v : respects (sticky (KS:=KS)) (py_in n v).
Proof. unfold py_in. respects_auto. Qed.

Hint Resolve sticky_id_manager sticky_self_registration sticky_getattr
  sticky_py_in : respects.

Lemma sticky_NewProject_check_user attrs user :
  respects (sticky (KS:=KS)) (NewProject_check_user attrs user).
Proof.
  unfold NewProject_check_user. respects_auto;
    apply sticky_save_action; by intros.
Qed.

Lemma sticky_NewUser_validate attrs : respects sticky (NewUser_validate attrs).
Proof.
  unfold NewUser_validate. respects_auto;
    apply sticky_save_action; by intros.
Qed.

Lemma sticky_ResetUser_validate attrs :
  respects sticky (ResetUser_validate attrs).
Proof.
  unfold ResetUser_validate. respects_auto;
    apply sticky_save_action; by intros.
Qed.

Lemma sticky_NewProject_validate_user attrs :
  respects sticky (NewProject_validate_user attrs).
Proof.
  unfold NewProject_validate_user. respects_auto.
  apply sticky_NewProject_check_user.
Qed.

(** C7.  Validation never clears the [valid] flag on account of the
    user checks.  If the row was valid before a run of [NewUser._validate],
    [ResetUser._validate], [NewProject._validate_user] or the user half
    of [NewProject._validate_project], it is valid after the run,
    whatever the checks of this run found and whether it returned or
    raised: a run whose checks fail leaves [valid] true from an earlier
    run. *)
Theorem failed_validation_keeps_valid (attrs : gmap string string)
    (st : ActSt KS) :
  valid (st_action st) = true →
  valid (st_action (snd (NewUser_validate attrs st))) = true ∧
  valid (st_action (snd (ResetUser_validate attrs st))) = true ∧
  valid (st_action (snd (NewProject_validate_user attrs st))) = true ∧
  (∀ user,
     valid (st_action (snd (NewProject_check_user attrs user st))) = true).
Proof.
  intros Hv. split; [by apply sticky_NewUser_validate|].
  split; [by apply sticky_ResetUser_validate|].
  split; [by apply sticky_NewProject_validate_user|].
  intros user. by apply sticky_NewProject_check_user.
Qed.

End Validation.

(** ** What a failed step answers *)
Section Failures.
Context {KS : Type} `{!Env KS}.
Implicit Types w : World KS.

Lemma step_failed_notes_approving r e w :
  fst (StackTask.step_failed_notes StackTask.approving_fmt r e w)
  = Ok (StackTask.Response_ (failure_notes "approving" e r) 500) ∧
  notified (failure_notes "approving" e r) r w
    (snd (StackTask.step_failed_notes StackTask.approving_fmt r e w)).
Proof. split; reflexivity. Qed.

Lemma step_failed_notes_submitting r e w :
  fst (StackTask.step_failed_notes StackTask.submitting_fmt r e w)
  = Ok (StackTask.Response_ (failure_notes "submitting" e r) 500) ∧
  notified (failure_notes "submitting" e r) r w
    (snd (StackTask.step_failed_notes StackTask.submitting_fmt r e w)).
Proof. split; reflexivity. Qed.

Lemma step_failed_v1_submitting r e w :
  fst (ApiV1.step_failed ApiV1.submitting_fmt r e w)
  = Ok (ApiV1.Response_ (failure_notes "submitting" e r) 500) ∧
  notified (failure_notes "submitting" e r) r w
    (snd (ApiV1.step_failed ApiV1.submitting_fmt r e w)).
Proof. split; reflexivity. Qed.

Lemma step_failed_generic_answer fmt r e w resp :
  fst (StackTask.step_failed_generic fmt r e w) = Ok resp →
  resp = StackTask.Response_ {["errors" := VList server_error]} 500.
Proof.
  unfold StackTask.step_failed_generic, error_notes.
  rewrite !run_bind. unfold lift_result at 1.
  destruct (py_format fmt [exn_str e]); [|done].
  simpl. by intros [= <-].
Qed.

(** The early answer of the [post_approve] loop is the answer of the
    handler to an exception that a [post_approve] raised. *)
Lemma post_approve_rows_early rows failed w resp w' :
  post_approve_rows rows failed w = (Ok (inr resp), w') →
  ∃ act e w0 w1, post_approve act w0 = (Raise e, w1) ∧
                 failed e w1 = (Ok resp, w').
Proof.
  unfold post_approve_rows.
  enough (∀ acc : list (BoundAction KS) * bool * bool,
    for_ rows acc
      (λ action '(acts, valid, need_token),
         act_model ← get_action action;
         r ← try_except (_ ← post_approve act_model; ret None)
                        (λ e, resp ← failed e; ret (Some resp));
         match r with
         | Some resp => ret (inr resp)
         | None =>
             v ← action_valid act_model;
             nt ← action_need_token act_model;
             ret (inl (acts ++ [act_model],
                       if v : bool then valid else false,
                       if nt : bool then true else need_token))
         end) w
    = (Ok (inr resp), w') →
    ∃ act e w0 w1, post_approve act w0 = (Raise e, w1) ∧
                   failed e w1 = (Ok resp, w')) as H by apply H.
  revert w. induction rows as [|row rows IH]; intros w [[acc v0] nt0].
  - done.
  - rewrite run_for_cons, run_bind.
    destruct (get_action row w) as [[act|e] w1] eqn:Hact; [|done].
    apply get_action_id in Hact as [Hid ->].
    rewrite run_bind. unfold try_except at 1. rewrite run_bind.
    destruct (post_approve act w) as [[notes|e] w1] eqn:Hpost.
    + unfold ret at 1. cbv beta iota.
      rewrite run_bind. unfold action_valid at 1, gets at 1. cbv beta iota.
      rewrite run_bind. unfold action_need_token at 1, gets at 1.
      cbv beta iota. unfold ret at 1. apply IH.
    + rewrite run_bind.
      destruct (failed e w1) as [[resp'|e'] w2] eqn:Hf; [|done].
      unfold ret. intros [= <- <-]. by exists act, e, w, w1.
Qed.

Lemma submit_all_early acts d failed w resp w' :
  StackTask.submit_all acts d failed w = (Ok (inr resp), w') →
  ∃ act e w0 w1, submit act d w0 = (Raise e, w1) ∧
                 failed e w1 = (Ok resp, w').
Proof.
  unfold StackTask.submit_all.
  revert w. induction acts as [|act acts IH]; intros w.
  - done.
  - rewrite run_for_cons. unfold try_except at 1. rewrite run_bind.
    destruct (submit act d w) as [[notes|e] w1] eqn:Hsub.
    + unfold ret at 1. cbv beta iota. apply IH.
    + rewrite run_bind.
      destruct (failed e w1) as [[resp'|e'] w2] eqn:Hf; [|done].
      unfold ret. intros [= <- <-]. by exists act, e, w, w1.
Qed.

(** C8.  What the caller sees when a step raises.  In the
    [RegistrationDetail.post] of [stacktask/api/v1/views.py], when a
    [post_approve] or a [submit] raises, and in [api_v1/views.py], when a
    [submit] raises, a Notification is created with the text of the
    exception and the uuid of the registration - and the response, of
    status 500, carries the same notes: the text of the exception is sent
    to the caller.  The sibling paths of [stacktask/api/v1/views.py]
    ([ActionView.approve], [TokenDetail.post], [RegistrationDetail.put])
    answer with the fixed server error instead. *)
Theorem failed_step_answer (r : Registration) :
  (∀ rows w resp w',
     post_approve_rows rows
       (StackTask.step_failed_notes StackTask.approving_fmt r) w
     = (Ok (inr resp), w') →
     ∃ act e w0 w1,
       post_approve act w0 = (Raise e, w1) ∧
       resp = StackTask.Response_ (failure_notes "approving" e r) 500 ∧
       notified (failure_notes "approving" e r) r w1 w') ∧
  (∀ acts d w resp w',
     StackTask.submit_all acts d
       (StackTask.step_failed_notes StackTask.submitting_fmt r) w
     = (Ok (inr resp), w') →
     ∃ act e w0 w1,
       submit act d w0 = (Raise e, w1) ∧
       resp = StackTask.Response_ (failure_notes "submitting" e r) 500 ∧
       notified (failure_notes "submitting" e r) r w1 w') ∧
  (∀ acts d w resp w',
     ApiV1.submit_all acts d r ApiV1.submitting_fmt w
     = (Ok (inr resp), w') →
     ∃ act e w0 w1,
       submit act d w0 = (Raise e, w1) ∧
       resp = ApiV1.Response_ (failure_notes "submitting" e r) 500 ∧
       notified (failure_notes "submitting" e r) r w1 w') ∧
  (∀ fmt e w resp,
     fst (StackTask.step_failed_generic fmt r e w) = Ok resp →
     resp = StackTask.Response_ {["errors" := VList server_error]} 500).
Proof.
  split.
  { intros rows w resp w' (act & e & w0 & w1 & Hp & Hf)%post_approve_rows_early.
    exists act, e, w0, w1. split; [done|].
    destruct (step_failed_notes_approving r e w1) as [H1 H2].
    rewrite Hf in H1, H2. simpl in H1, H2. split; [congruence|done]. }
  split.
  { intros acts d w resp w' (act & e & w0 & w1 & Hp & Hf)%submit_all_early.
    exists act, e, w0, w1. split; [done|].
    destruct (step_failed_notes_submitting r e w1) as [H1 H2].
    rewrite Hf in H1, H2. simpl in H1, H2. split; [congruence|done]. }
  split.
  { intros acts d w resp w' (act & e & w0 & w1 & Hp & Hf)%submit_all_early.
    exists act, e, w0, w1. split; [done|].
    destruct (step_failed_v1_submitting r e w1) as [H1 H2].
    rewrite Hf in H1, H2. simpl in H1, H2. split; [congruence|done]. }
  intros fmt e w resp. apply step_failed_generic_answer.
Qed.

End Failures.

(** ** Closed examples on the test bench *)
Module Scenarios.
Import Bench.

Lemma bench_resolves name :
  bool_decide (is_Some (ACTION_CLASSES !! name)) = true →
  Forall (λ n, is_Some (ACTION_CLASSES !! n)) [name].
Proof. intros H%bool_decide_eq_true_1. by repeat constructor. Defined.

(** Two identical signups in a row: the second one is accepted as
    well, and stored as a second registration. *)
Lemma intake_has_no_duplicate_guard_witness :
  let w1 := after (StackTask.CreateProject_post signup) w0 in
  (keystone_user <$> registrations w1 !! 0%nat,
   action_data <$> actions w1 !! 0%nat)
  = (Some (req_keystone_user signup),
     Some (<["project_name" := "test_project"]>
           (<["username" := "alice"]> {["email" := "alice@example.com"]}))) ∧
  (completed <$> registrations w1 !! 0%nat) = Some false ∧
  status <$> (match fst (StackTask.CreateProject_post signup w1) with
              | Ok resp => Some resp
              | Raise _ => None
              end) = Some 200 ∧
  registrations (snd (StackTask.process_actions StackTask.CreateProject
                        signup w1))
  = <[uuids w1 := new_registration signup "CreateProject" w1]>
      (registrations w1) ∧
  uuids w1 = 1%nat.
Proof.
  intros w1.
  split; [vm_compute; reflexivity|]. split; [vm_compute; reflexivity|].
  split; [vm_compute; reflexivity|]. split; [|vm_compute; reflexivity].
  refine (proj1 (intake_has_no_duplicate_guard signup w1 ["NewProject"]
                   (bench_resolves "NewProject" _) _)
            StackTask.CreateProject _); vm_compute; reflexivity.
Defined.

(** C2, refuted for [stacktask/api/v1/views.py].  A signup for a project
    that exists: the administrator's approval runs [post_approve], which
    finds the action invalid, and answers "actions invalid" - and the
    registration is not marked approved. *)
Lemma invalid_approval_is_not_recorded :
  let w1 := after (StackTask.CreateProject_post signup)
                  (empty_world backend_with_project) in
  let '(res, w2) := StackTask.RegistrationDetail_post 0 approval w1 in
  res = Ok StackTask.actions_invalid ∧
  calls w2 = [CallPreApprove 0; CallPostApprove 0] ∧
  ((λ r, (approved r, approved_on r, completed r)) <$> registrations w2 !! 0%nat)
  = Some (false, None, false).
Proof. vm_compute. by repeat split. Qed.

(** The same approval in [api_v1/views.py] marks the registration. *)
Lemma invalid_approval_is_recorded_v1 :
  let w1 := after (ApiV1.CreateProject_post signup)
                  (empty_world backend_with_project) in
  let '(res, w2) := ApiV1.RegistrationDetail_post 0 approval w1 in
  res = Ok ApiV1.actions_invalid ∧
  ((λ r, (approved r, approved_on r, completed r)) <$> registrations w2 !! 0%nat)
  = Some (true, Some 1003, false).
Proof. vm_compute. by repeat split. Qed.


(** C6, refuted for [api_v1/views.py].  A password reset approved
    twice has two tokens.  Redeeming the first completes the
    registration; redeeming the second is not refused: [submit] runs
    again and the password changes again. *)
Lemma completed_task_is_redeemed_again_v1 :
  let w1 := after (ApiV1.ResetPassword_post
                     (anonymous (reset_data "alice@example.com"))) w0 in
  let w2 := after (ApiV1.RegistrationDetail_post 0 approval) w1 in
  let w3 := after (ApiV1.TokenDetail_post 1
                     (anonymous {["password" := VStr "first"]})) w2 in
  let '(res, w4) :=
    ApiV1.TokenDetail_post 2 (anonymous {["password" := VStr "second"]}) w3 in
  (completed <$> registrations w3 !! 0%nat) = Some true ∧
  is_Some (tokens w3 !! 2%nat) ∧
  res = Ok (ApiV1.Response_
              {["notes" := VStr "Token submitted successfully."]} 200) ∧
  calls w4 = calls w3 ++ [CallSubmit 0 {["password" := VStr "second"]}] ∧
  snd <$> fk_users (ks w3) = [VStr "first"] ∧
  snd <$> fk_users (ks w4) = [VStr "second"].
Proof. vm_compute. repeat split; by eexists. Qed.

(** The same requests to [stacktask/api/v1/views.py]: the second
    redemption is refused. *)
Lemma completed_task_is_refused :
  let w1 := after (StackTask.ResetPassword_post
                     (anonymous (reset_data "alice@example.com"))) w0 in
  let w2 := after (StackTask.RegistrationDetail_post 0 approval) w1 in
  let w3 := after (StackTask.TokenDetail_post 1
                     (anonymous {["password" := VStr "first"]})) w2 in
  StackTask.TokenDetail_post 2 (anonymous {["password" := VStr "second"]}) w3
  = (Ok StackTask.already_completed, w3).
Proof. vm_compute. reflexivity. Qed.

(** C3.  The answer to a password reset tells whether the user
    exists.  With the settings of the test-suite (the e-mail address is
    the user name), a reset for the address of a known user is answered
    with status 200 and "created token"; a reset for an address no user
    has is answered with status 400 and "actions invalid".  For the
    unknown address no token is issued, no [post_approve] or [submit]
    runs and the backend is as before.  The sources' own test
    [test_reset_user_no_existing] expects status 200 and the same note as
    for a known user. *)
Theorem password_reset_reveals_user :
  let known := anonymous {["email" := VStr "alice@example.com"]} in
  let unknown := anonymous {["email" := VStr "nobody@example.com"]} in
  let w := empty_world backend_by_email in
  let '(res, w') := @StackTask.ResetPassword_post _ bench_env_email known w in
  let '(res_unknown, w_unknown) :=
    @StackTask.ResetPassword_post _ bench_env_email unknown w in
  res = Ok (StackTask.Response_ {["notes" := VList ["created token"]]} 200) ∧
  size (tokens w') = 1%nat ∧
  res_unknown = Ok StackTask.actions_invalid ∧
  tokens w_unknown = ∅ ∧
  calls w_unknown = [CallPreApprove 0] ∧
  ks w_unknown = backend_by_email.
Proof. vm_compute. by repeat split. Qed.

(** A password reset, redeemed: the registration is completed, and
    approved. *)
Lemma completed_implies_approved_witness :
  let w1 := after (StackTask.dispatch StackTask.POST_reset
                     (anonymous (reset_data "alice@example.com"))) w0 in
  let w2 := after (StackTask.dispatch (StackTask.POST_token 1)
                     (anonymous {["password" := VStr "new_password"]})) w1 in
  ∃ r, registrations w2 !! 0%nat = Some r ∧
       completed r = true ∧ approved r = true.
Proof.
  intros w1 w2.
  assert (StackTask.reachable w2) as Hreach.
  { apply StackTask.reachable_request.
    apply StackTask.reachable_request.
    apply StackTask.reachable_init. }
  destruct (registrations w2 !! 0%nat) as [r|] eqn:Hr;
    [|vm_compute in Hr; discriminate Hr].
  exists r. split; [reflexivity|].
  assert (completed r = true) as Hc.
  { pose proof (f_equal (fmap completed) Hr) as Hc. vm_compute in Hc.
    by injection Hc. }
  split; [exact Hc|].
  exact (completed_implies_approved w2 (or_introl Hreach) 0%nat r Hr Hc).
Defined.

(** A signup that lacks the user name and the e-mail address: both
    are reported, and nothing is stored. *)
Lemma intake_is_all_or_nothing_witness :
  let request := anonymous {["project_name" := VStr "test_project"]} in
  StackTask.process_actions StackTask.CreateProject request w0
  = (Ok (ProcFieldErrors
           (<["username" := ["This field is required."]]>
            {["email" := ["This field is required."]]})), w0) ∧
  ApiV1.process_actions ApiV1.CreateProject request w0
  = (Ok (ProcFieldErrors
           (<["username" := ["This field is required."]]>
            {["email" := ["This field is required."]]})), w0).
Proof.
  intros request.
  pose proof (intake_is_all_or_nothing request w0 ["NewProject"]
                (bench_resolves "NewProject" eq_refl)) as H.
  cbv zeta in H. destruct H as (H & _).
  destruct (H ltac:(vm_compute; reflexivity)) as [H1 H2].
  assert (collect_errors (configured_serializers ["NewProject"] request)
          = <["username" := ["This field is required."]]>
            {["email" := ["This field is required."]]}) as <-
    by (vm_compute; reflexivity).
  split; [exact (H1 StackTask.CreateProject eq_refl)
         |exact (H2 ApiV1.CreateProject eq_refl)].
Defined.

(** A run of [NewUser._validate] on a valid row, for a user known
    under another e-mail address: the check fails and the row stays
    valid. *)
Lemma failed_validation_keeps_valid_witness :
  valid (st_action valid_state) = true ∧
  fst (NewUser_validate other_email_attrs valid_state)
  = Ok ["Existing user with non-matching email."] ∧
  valid (st_action (snd (NewUser_validate other_email_attrs valid_state)))
  = true.
Proof.
  split; [reflexivity|]. split; [vm_compute; reflexivity|].
  exact (proj1 (failed_validation_keeps_valid other_email_attrs valid_state
                  eq_refl)).
Defined.

(** The stale flag at work.  A signup for a user the backend does not
    know is valid at intake.  Before the approval the user appears in the
    backend, under another e-mail address.  The approval finds "Existing
    user with non-matching email", the flag stays set, and the project
    is created and a token issued. *)
Lemma stale_valid_flag_lets_approval_through :
  let w1 := after (StackTask.CreateProject_post signup)
                  (empty_world empty_backend) in
  let w2 := with_backend backend_with_other_alice (registration_cache w1) w1 in
  let '(res, w3) := StackTask.RegistrationDetail_post 0 approval w2 in
  valid <$> actions w1 = [true] ∧
  res = Ok (StackTask.Response_ {["notes" := VList ["created token"]]} 200) ∧
  valid <$> actions w3 = [true] ∧
  fk_projects (ks w3) = [test_project] ∧
  size (tokens w3) = 1%nat.
Proof. vm_compute. by repeat split. Qed.

(** An approval while the backend is down: the caller reads the
    message of the backend's exception. *)
Lemma failed_step_answer_witness :
  let w1 := after (StackTask.CreateProject_post signup) w0 in
  let w2 := with_backend
              (backend_down "Unable to establish connection to keystone"
                 backend_with_alice) ∅ w1 in
  let r := default admin_registration (registrations w2 !! 0%nat) in
  let resp :=
    StackTask.Response_
      (failure_notes "approving"
         (ClientException "Unable to establish connection to keystone") r)
      500 in
  fst (StackTask.RegistrationDetail_post 0 approval w2) = Ok resp ∧
  ∃ act e wa wb,
    post_approve act wa = (Raise e, wb) ∧
    resp = StackTask.Response_ (failure_notes "approving" e r) 500 ∧
    notified (failure_notes "approving" e r) r wb
      (snd (post_approve_rows (actions w2)
              (StackTask.step_failed_notes StackTask.approving_fmt r) w2)).
Proof.
  intros w1 w2 r resp. split; [vm_compute; reflexivity|].
  apply (proj1 (failed_step_answer r) (actions w2) w2 resp).
  vm_compute. reflexivity.
Defined.

(** A token on the bench: it expires 86400 seconds after the first
    clock reading of [create_token]. *)
Lemma token_expires_after_24_hours_witness :
  let w1 := after (StackTask.dispatch StackTask.POST_reset
                     (anonymous (reset_data "alice@example.com"))) w0 in
  ∃ t n, tokens w1 !! 1%nat = Some t ∧ (n < ticks w1)%nat ∧
         expires t = (timezone_now n + 24 * 3600)%Z.
Proof.
  intros w1.
  assert (StackTask.reachable w1) as Hreach.
  { apply StackTask.reachable_request. apply StackTask.reachable_init. }
  destruct (tokens w1 !! 1%nat) as [t|] eqn:Ht;
    [|vm_compute in Ht; discriminate Ht].
  destruct (proj2 token_expires_after_24_hours w1 (or_introl Hreach) 1%nat t Ht)
    as (n & Hn & He).
  exists t, n. split; [reflexivity|]. split; [exact Hn|exact He].
Defined.

(** Redeeming a token that does not exist. *)
Lemma token_redemption_preconditions_witness :
  StackTask.TokenDetail_post 7 (anonymous ∅) w0 = (Ok StackTask.no_token, w0) ∧
  ApiV1.TokenDetail_post 7 (anonymous ∅) w0 = (Ok ApiV1.no_token, w0).
Proof.
  exact (proj1 (token_redemption_preconditions 7 (anonymous ∅) w0) eq_refl).
Defined.

End Scenarios.

(** * Part IV: further properties of the code *)

(** ** More about the views *)
Section MoreViews.
Context {KS : Type} `{!Env KS}.
Implicit Types w : World KS.

(** X1.  In every world either generation of the service can reach,
    every token belongs to a registration that is in the table, under
    the uuid the token names, and that is approved. *)
Theorem tokens_belong_to_approved_registrations w :
  StackTask.reachable w ∨ ApiV1.reachable w →
  ∀ k t, tokens w !! k = Some t →
         ∃ r, registrations w !! tok_registration t = Some r ∧
              uuid r = tok_registration t ∧ approved r = true.
Proof.
  intros Hw k t Hk.
  assert (Inv w) as (H1 & H2 & _).
  { destruct Hw; [by apply reachable_Inv|by apply reachable_Inv_v1]. }
  destruct (H2 k t Hk) as (r & Hr & Hap). exists r.
  split; [done|]. split; [|done]. by destruct (H1 _ _ Hr).
Qed.

(** X2.  [TokenList.delete] deletes exactly the tokens whose expiry lies
    before the clock reading it takes (a token that expires at that very
    instant is kept), answers with status 200, and touches neither the
    registrations, nor the actions, nor the call history. *)
Theorem purge_deletes_the_expired_tokens (request : Request) w :
  let '(res, w') := StackTask.TokenList_delete_ request w in
  res = Ok (StackTask.Response_
              {["notes" := VList ["Deleted all expired tokens."]]} 200) ∧
  (∀ k t, tokens w' !! k = Some t ↔
          tokens w !! k = Some t ∧ (timezone_now (ticks w) ≤ expires t)%Z) ∧
  registrations w' = registrations w ∧ actions w' = actions w ∧
  calls w' = calls w.
Proof.
  simpl. split; [done|]. split; [|done].
  intros k t. rewrite map_lookup_filter_Some. simpl. split.
  - intros [? ?]. split; [done|lia].
  - intros [? ?]. split; [done|lia].
Qed.

Global Instance reading_quiet : @Quiet KS reading.
Proof.
  split; [split|..]; try (intros; by repeat split).
  intros w1 w2 w3 (?&?&?&?&?) (?&?&?&?&?).
  repeat split; try congruence. by etrans.
Qed.

Lemma reading_Token_delete t : respects (reading (KS:=KS)) (Token_delete t).
Proof. intros w. repeat split. simpl. apply delete_subseteq. Qed.

Hint Resolve reading_Token_delete : respects.

(** X3.  [TokenDetail.get] (of either generation) is a read: whatever
    it answers, the Registration table, the Action table, the backend and
    the call history are as before, and the only change to the Token
    table is the deletion of an expired token. *)
Theorem token_details_are_read_only (id : nat) (request : Request) w :
  reading w (snd (StackTask.TokenDetail_get id request w)) ∧
  reading w (snd (ApiV1.TokenDetail_get id request w)).
Proof.
  split.
  - assert (respects reading (StackTask.TokenDetail_get id request)) as H;
      [|apply H].
    unfold StackTask.TokenDetail_get, StackTask.check_token. respects_auto.
  - assert (respects reading (ApiV1.TokenDetail_get id request)) as H;
      [|apply H].
    unfold ApiV1.TokenDetail_get, ApiV1.check_token. respects_auto.
Qed.

(** X4.  The expiry check is strict: a token of an uncompleted
    registration whose expiry is not before the clock reading passes the
    checks of [TokenDetail] (of either generation) - also at the very
    instant it expires - and nothing but the clock reading changes. *)
Theorem token_is_valid_until_after_its_expiry (id : nat) w tok r :
  tokens w !! id = Some tok →
  registrations w !! tok_registration tok = Some r →
  completed r = false →
  (timezone_now (ticks w) ≤ expires tok)%Z →
  StackTask.check_token id w = (Ok (inl (tok, r)), with_ticks (S (ticks w)) w) ∧
  ApiV1.check_token id w = (Ok (inl tok), with_ticks (S (ticks w)) w).
Proof.
  intros Htok Hr Hc Hexp.
  unfold StackTask.check_token, ApiV1.check_token, Token_objects_get,
    token_registration, Registration_objects_get, now.
  rewrite !run_bind. unfold gets. rewrite Htok. cbv beta iota.
  rewrite !run_bind. rewrite Hr. cbv beta iota. unfold ret at 1.
  cbv beta iota. rewrite Hc. rewrite !run_bind. cbv beta iota.
  rewrite bool_decide_eq_false_2 by lia. done.
Qed.

Lemma NotificationDetail_post_spec (pk : nat) (request : Request) w :
  let '(res, w') := StackTask.NotificationDetail_post_ pk request w in
  match notifications w !! pk with
  | None =>
      res = Ok (StackTask.Response_
                  {["errors" := VList ["No notification with this id."]]} 404) ∧
      w' = w
  | Some n =>
      if bool_decide (req_data request !! "acknowledged" = Some (VBool true))
      then
        res = Ok (StackTask.Response_
                    {["notes" := VList ["Notification acknowledged."]]} 200) ∧
        notifications w' = <[pk := set_acknowledged n]> (notifications w) ∧
        registrations w' = registrations w ∧ tokens w' = tokens w
      else
        res = Ok (StackTask.Response_
                    {["acknowledged" := VList ["this field is required."]]}
                    400) ∧
        w' = w
  end.
Proof.
  unfold StackTask.NotificationDetail_post_. rewrite run_bind. unfold gets.
  destruct (notifications w !! pk) as [n|]; [|done].
  cbv beta iota. by case_bool_decide.
Qed.

Lemma NotificationList_post_spec (request : Request) w :
  let '(res, w') := StackTask.NotificationList_post_ (KS:=KS) request w in
  match req_data request !! "notifications" with
  | Some (VInts (pk :: pks)) =>
      res = Ok (StackTask.Response_
                  {["notes" := VList ["Notifications acknowledged."]]} 200) ∧
      length (notifications w') = length (notifications w) ∧
      ∀ i n, notifications w !! i = Some n →
             notifications w' !! i
             = Some (if bool_decide (i ∈ pk :: pks)
                     then set_acknowledged n else n)
  | _ => status <$> (match res with Ok r => Some r | Raise _ => None end)
         = Some 400 ∧ w' = w
  end.
Proof.
  unfold StackTask.NotificationList_post_.
  destruct (req_data request !! "notifications") as [[| | |[|pk pks]| |]|];
    try done.
  simpl. split; [done|]. split; [by rewrite length_imap|].
  intros i n Hi. rewrite list_lookup_imap, Hi. done.
Qed.


(** X6.  [RegistrationDetail.put] never changes the Registration table
    or the Token table (it does not approve, complete or issue a token),
    whatever it answers; an unknown uuid is answered with the not-found
    error and a completed registration with the already-completed error,
    and then nothing at all changes. *)
Theorem update_keeps_registrations_and_tokens (u : nat) (request : Request) w :
  unchanged w (snd (StackTask.RegistrationDetail_put_ u request w)) ∧
  (registrations w !! u = None →
   StackTask.RegistrationDetail_put_ u request w
   = (Ok StackTask.no_registration, w)) ∧
  (∀ r, registrations w !! u = Some r → completed r = true →
        StackTask.RegistrationDetail_put_ u request w
        = (Ok StackTask.already_completed, w)).
Proof.
  split; [|split].
  - assert (respects unchanged (StackTask.RegistrationDetail_put_ u request))
      as H; [|apply H].
    unfold StackTask.RegistrationDetail_put_. respects_auto.
  - intros Hr. unfold StackTask.RegistrationDetail_put_. rewrite run_bind.
    unfold Registration_objects_get, gets. by rewrite Hr.
  - intros r Hr Hc. unfold StackTask.RegistrationDetail_put_. rewrite run_bind.
    unfold Registration_objects_get, gets. rewrite Hr. cbv beta iota.
    by rewrite Hc.
Qed.

End MoreViews.

#[global] Hint Resolve reading_Token_delete : respects.

(** ** The decorators *)
Section Decorators.
Context {KS : Type} `{!Env KS}.
Implicit Types w : World KS.

(** X7.  The [@admin] decorator of [stacktask/api/v1/views.py]: either
    the request is authenticated, ["admin" in roles] holds and the view
    runs, or the view does not run, nothing changes and the answer is 401
    (not authenticated) or 403 (authenticated, not admin) - or a
    [TypeError] when [roles] is not a container. *)
Theorem admin_guards (func : Request → M (World KS) Response)
    (request : Request) w :
  (StackTask.authenticated request = true ∧
   fst (py_in "admin" (StackTask.request_roles request) w) = Ok true ∧
   StackTask.admin func request w = func request w) ∨
  (snd (StackTask.admin func request w) = w ∧
   match fst (StackTask.admin func request w) with
   | Ok resp => status resp = 401 ∧ StackTask.authenticated request = false ∨
                status resp = 403 ∧ StackTask.authenticated request = true
   | Raise e => ∃ msg, e = TypeError msg
   end).
Proof.
  unfold StackTask.admin.
  destruct (StackTask.authenticated request) eqn:Hauth; simpl.
  - destruct (StackTask.request_roles request) as [s|b|l|l|d|u]; simpl;
      try (right; split; [done|]; by eauto).
    + destruct (str_contains "admin" s); simpl; [by left|right; by eauto].
    + case_bool_decide; simpl; [by left|right; by eauto].
    + case_bool_decide; simpl; [by left|right; by eauto].
  - right. by eauto.
Qed.

(** X8.  The [@admin_or_owner] decorator of
    [stacktask/api/v1/views.py]: either the request is authenticated, one
    of its roles is [admin], [project_owner] or [project_mod] and the view
    runs, or the view does not run, nothing changes and the answer is 401
    or 403 (or a [TypeError] when [roles] is not iterable). *)
Theorem admin_or_owner_guards (func : Request → M (World KS) Response)
    (request : Request) w :
  (StackTask.authenticated request = true ∧
   (∃ roles, fst (py_set (StackTask.request_roles request) w) = Ok roles ∧
             ∃ r, r ∈ roles ∧ r ∈ ["admin"; "project_owner"; "project_mod"]) ∧
   StackTask.admin_or_owner func request w = func request w) ∨
  (snd (StackTask.admin_or_owner func request w) = w ∧
   match fst (StackTask.admin_or_owner func request w) with
   | Ok resp => status resp = 401 ∧ StackTask.authenticated request = false ∨
                status resp = 403 ∧ StackTask.authenticated request = true
   | Raise e => ∃ msg, e = TypeError msg
   end).
Proof.
  unfold StackTask.admin_or_owner.
  destruct (StackTask.authenticated request) eqn:Hauth; simpl;
    [|right; by eauto].
  rewrite run_bind.
  destruct (StackTask.request_roles request) as [s|b|l|l|d|u]; simpl;
    try (right; split; [done|]; by eauto);
    (case_bool_decide as Hex;
     [left; split; [done|]; split; [|done]; eexists; split; [done|];
      by apply Exists_exists in Hex
     |right; split; [reflexivity|]; right; split; reflexivity]).
Qed.

End Decorators.

(** ** More about the actions *)
Section MoreActions.
Context {KS : Type} `{!IdentityManager KS}.

Lemma BaseAction_init_spec (required : list string)
    (data : gmap string string) :
  match BaseAction_init required data with
  | Ok attrs =>
      ∀ f, attrs !! f = if bool_decide (f ∈ required) then data !! f else None
  | Raise e =>
      ∃ before f after,
        required = before ++ f :: after ∧ e = KeyError f ∧
        data !! f = None ∧ Forall (λ g, is_Some (data !! g)) before
  end.
Proof.
  induction required as [|field rest IH]; cbn [BaseAction_init].
  - intros f. rewrite bool_decide_eq_false_2 by apply not_elem_of_nil.
    apply lookup_empty.
  - destruct (data !! field) as [v|] eqn:Hfield.
    + destruct (BaseAction_init rest data) as [attrs|e]; cbn [result_map].
      * intros f. destruct (decide (f = field)) as [->|Hne].
        -- rewrite lookup_insert_eq, bool_decide_eq_true_2; [done|].
           apply elem_of_cons; by left.
        -- rewrite lookup_insert_ne by done. rewrite IH.
           apply (f_equal (λ b : bool, if b then data !! f else None)).
           apply bool_decide_ext. rewrite elem_of_cons.
           split; [by right|by intros [?|?]].
      * destruct IH as (before & f & after & -> & -> & Hf & Hbefore).
        exists (field :: before), f, after. split; [done|]. split; [done|].
        split; [done|]. constructor; [by rewrite Hfield|done].
    + exists [], field, rest. by repeat split.
Qed.

(** X9.  [BaseAction.__init__] copies exactly the required fields out
    of the data: when it returns, the instance has every required field
    with the value the data gives it, and no other field; it raises
    [KeyError] for the first required field, in the order of [required],
    that the data lacks. *)
Theorem BaseAction_init_copies_the_required_fields (required : list string)
    (data : gmap string string) :
  match BaseAction_init required data with
  | Ok attrs =>
      ∀ f, attrs !! f = if bool_decide (f ∈ required) then data !! f else None
  | Raise e =>
      ∃ before f after,
        required = before ++ f :: after ∧ e = KeyError f ∧
        data !! f = None ∧ Forall (λ g, is_Some (data !! g)) before
  end.
Proof. apply BaseAction_init_spec. Qed.

(** X10.  With [USERNAME_IS_EMAIL], an instance that [UserAction.__init__]
    builds has the e-mail address of the data as its [username] (and as
    its [email]); the data need not name a user, and apart from
    [username] the instance has exactly the other required fields. *)
Theorem username_is_the_email (cls : string) (required : list string)
    (data : gmap string string) (attrs : gmap string string) :
  UserAction_init true cls required data = Ok attrs →
  ∃ email, data !! "email" = Some email ∧
           attrs !! "email" = Some email ∧
           attrs !! "username" = Some email ∧
           ∀ f, f ≠ "username" →
                attrs !! f = if bool_decide (f ∈ list_remove "username" required)
                             then data !! f else None.
Proof.
  unfold UserAction_init.
  pose proof (BaseAction_init_spec (list_remove "username" required) data)
    as H.
  destruct (BaseAction_init _ data) as [attrs0|e]; [|done].
  destruct (attrs0 !! "email") as [email|] eqn:Hemail; [|done].
  intros [= <-]. exists email.
  assert (data !! "email" = Some email) as Hd.
  { rewrite H in Hemail. by case_bool_decide. }
  split; [done|]. split; [by rewrite lookup_insert_ne|].
  split; [by rewrite lookup_insert_eq|].
  intros f Hf. by rewrite lookup_insert_ne.
Qed.

Global Instance same_flags_preorder : PreOrder (same_flags (KS:=KS)).
Proof.
  split; [by intros ?|]. intros a b c [? ?] [? ?]. split; congruence.
Qed.

Global Instance same_action_preorder : PreOrder (same_action (KS:=KS)).
Proof.
  split; [by intros ?|]. intros a b c ? ?. unfold same_action in *.
  congruence.
Qed.

Lemma same_flags_id_manager {A} (m : M KS A) :
  respects same_flags (id_manager m).
Proof. intros st. unfold id_manager. by destruct (m (st_ks st)). Qed.

Lemma same_flags_save_action f :
  (∀ a, need_token (f a) = need_token a ∧ state (f a) = state a) →
  respects (same_flags (KS:=KS)) (save_action f).
Proof. intros Hf st. apply Hf. Qed.

Lemma same_flags_getattr cls attrs field :
  respects (same_flags (KS:=KS)) (getattr cls attrs field).
Proof. unfold getattr. respects_auto. Qed.

Hint Resolve same_flags_id_manager same_flags_getattr : respects.

Lemma same_flags_ResetUser_validate attrs :
  respects same_flags (ResetUser_validate attrs).
Proof.
  unfold ResetUser_validate. respects_auto.
  apply same_flags_save_action. by intros.
Qed.

(** X11.  A [ResetUser] action never changes the [need_token] flag or
    the [state] of its row, neither in [_validate] nor in [_submit],
    whether it returns or raises: a row created with [need_token] set
    keeps it, so a password reset is never completed by the approval
    alone. *)
Theorem password_reset_always_needs_a_token (attrs : gmap string string)
    (token_data : gmap string pyval) (st : ActSt KS) :
  same_flags st (snd (ResetUser_validate attrs st)) ∧
  same_flags st (snd (ResetUser_submit attrs token_data st)).
Proof.
  split; [apply same_flags_ResetUser_validate|].
  assert (respects same_flags (ResetUser_submit attrs token_data)) as H;
    [|apply H].
  unfold ResetUser_submit, self_valid. respects_auto.
  apply same_flags_ResetUser_validate.
Qed.

Lemma same_action_id_manager {A} (m : M KS A) :
  respects same_action (id_manager m).
Proof. intros st. unfold id_manager. by destruct (m (st_ks st)). Qed.

Lemma same_action_set_registration_cache k v :
  respects (same_action (KS:=KS)) (set_registration_cache k v).
Proof.
  unfold set_registration_cache, self_registration. respects_auto.
  by intros st.
Qed.

Lemma same_action_getattr cls attrs field :
  respects (same_action (KS:=KS)) (getattr cls attrs field).
Proof. unfold getattr. respects_auto. Qed.

Hint Resolve same_action_id_manager same_action_set_registration_cache
  same_action_getattr : respects.

Lemma same_action_grant_roles user project roles :
  respects same_action (NewProject_grant_roles user project roles).
Proof. induction roles; simpl; respects_auto. Qed.

Lemma bind_Ok_inv {S A B} (m : M S A) (f : A → M S B) s b s' :
  (m ≫= f) s = (Ok b, s') →
  ∃ a s1, m s = (Ok a, s1) ∧ f a s1 = (Ok b, s').
Proof.
  rewrite run_bind. destruct (m s) as [[a|e] s1]; [|done]. by eauto.
Qed.

Lemma roles_format_raises (a b c : string) :
  py_format " with roles: %s" [a; b; c]
  = Raise (TypeError "not all arguments converted during string formatting").
Proof. reflexivity. Qed.

Lemma same_action_get_cache key :
  respects (same_action (KS:=KS)) (get_cache key).
Proof. unfold get_cache. respects_auto. Qed.

Hint Resolve same_action_get_cache same_action_grant_roles : respects.

(** X12.  [NewProject._submit] never returns normally for a valid
    action in state ["existing"]: the last note of that branch applies a
    format with one conversion to three arguments, which raises
    [TypeError] after the roles have been granted. *)
Theorem NewProject_submit_fails_for_an_existing_user
    (attrs : gmap string string) (token_data : gmap string pyval)
    (st : ActSt KS) notes st' :
  NewProject_submit attrs token_data st = (Ok notes, st') →
  valid (st_action st') = true →
  state (st_action st') ≠ "existing".
Proof.
  unfold NewProject_submit.
  intros (notes0 & s1 & _ & H)%bind_Ok_inv.
  apply bind_Ok_inv in H as (v & s2 & Hv & H).
  unfold self_valid, gets in Hv. injection Hv as <- <-.
  destruct (valid (st_action s1)) eqn:Hvalid.
  2:{ unfold ret in H. injection H as <- <-. congruence. }
  intros _ Hex.
  match type of H with ?K _ = _ =>
    assert (respects same_action K) as HK by respects_auto end.
  specialize (HK s1). rewrite H in HK. unfold same_action in HK.
  simpl in HK. rewrite HK in Hex. clear HK.
  apply bind_Ok_inv in H as (project_id & s3 & H3 & H).
  pose proof (same_action_get_cache "project_id" s1) as E3.
  rewrite H3 in E3. unfold same_action in E3. simpl in E3.
  apply bind_Ok_inv in H as ([] & s4 & H4 & H).
  pose proof (same_action_set_registration_cache "project_id" project_id s3)
    as E4.
  rewrite H4 in E4. unfold same_action in E4. simpl in E4.
  apply bind_Ok_inv in H as (project & s5 & H5 & H).
  pose proof (same_action_id_manager (get_project project_id) s4) as E5.
  rewrite H5 in E5. unfold same_action in E5. simpl in E5.
  apply bind_Ok_inv in H as (stt & s6 & H6 & H).
  unfold gets in H6. injection H6 as <- <-.
  rewrite E5, E4, E3, Hex in H.
  rewrite bool_decide_eq_false_2, bool_decide_eq_true_2 in H by done.
  apply bind_Ok_inv in H as (? & ? & _ & H).
  apply bind_Ok_inv in H as (? & ? & _ & H).
  apply bind_Ok_inv in H as (? & ? & _ & H).
  apply bind_Ok_inv in H as (? & ? & _ & H).
  apply bind_Ok_inv in H as (? & ? & _ & H).
  apply bind_Ok_inv in H as (? & ? & Hfmt & H).
  unfold lift_result in Hfmt. by rewrite roles_format_raises in Hfmt.
Qed.

End MoreActions.

(** ** Token fields, manageable roles and e-mail *)
Section Fields.
Context {KS : Type} `{!Env KS}.
Implicit Types w : World KS.

Lemma collect_fields_loop (fields : list string)
    (request_data : gmap string pyval) (d0 : gmap string pyval)
    (e0 : gmap string (list string)) :
  let '(d, e) :=
    foldl (λ '(data_, errors) field,
             match request_data !! field with
             | Some v => (<[field := v]> data_, errors)
             | None => (data_, <[field := ["This field is required."]]> errors)
             end) (d0, e0) fields in
  ∀ f, d !! f = (if bool_decide (f ∈ fields)
                 then match request_data !! f with
                      | Some v => Some v
                      | None => d0 !! f
                      end
                 else d0 !! f) ∧
       e !! f = (if bool_decide (f ∈ fields)
                 then match request_data !! f with
                      | Some v => e0 !! f
                      | None => Some ["This field is required."]
                      end
                 else e0 !! f).
Proof.
  revert d0 e0. induction fields as [|field fields IH]; intros d0 e0.
  - cbn [foldl]. intros f.
    by rewrite bool_decide_eq_false_2 by apply not_elem_of_nil.
  - cbn [foldl].
    destruct (request_data !! field) as [v|] eqn:Hfield.
    + specialize (IH (<[field := v]> d0) e0).
      destruct (foldl _ _ fields) as [d e]. intros f.
      destruct (IH f) as [-> ->].
      destruct (decide (f = field)) as [->|Hne].
      * rewrite Hfield, lookup_insert_eq.
        rewrite (bool_decide_eq_true_2 (field ∈ field :: fields))
          by (apply elem_of_cons; by left).
        by case_bool_decide.
      * rewrite lookup_insert_ne by done.
        rewrite (bool_decide_ext (f ∈ field :: fields) (f ∈ fields)); [done|].
        rewrite elem_of_cons. split; [by intros [?|?]|by right].
    + specialize (IH d0 (<[field := ["This field is required."]]> e0)).
      destruct (foldl _ _ fields) as [d e]. intros f.
      destruct (IH f) as [-> ->].
      destruct (decide (f = field)) as [->|Hne].
      * rewrite Hfield, lookup_insert_eq.
        rewrite (bool_decide_eq_true_2 (field ∈ field :: fields))
          by (apply elem_of_cons; by left).
        by case_bool_decide.
      * rewrite lookup_insert_ne by done.
        rewrite (bool_decide_ext (f ∈ field :: fields) (f ∈ fields)); [done|].
        rewrite elem_of_cons. split; [by intros [?|?]|by right].
Qed.

(** X13.  The field check of [TokenDetail.post]: the data handed to
    [submit] are the request data restricted to the required token
    fields, there is one "This field is required." error for each
    required field the request lacks and no other error, and there is no
    error exactly when the request has every required field. *)
Theorem collect_fields_spec (required_fields : gset string)
    (request_data : gmap string pyval) :
  let '(d, e) := collect_fields required_fields request_data in
  (∀ f, d !! f = if bool_decide (f ∈ required_fields)
                 then request_data !! f else None) ∧
  (∀ f, e !! f = if bool_decide (f ∈ required_fields ∧
                                 request_data !! f = None)
                 then Some ["This field is required."] else None) ∧
  (e = ∅ ↔ ∀ f, f ∈ required_fields → is_Some (request_data !! f)).
Proof.
  unfold collect_fields.
  pose proof (collect_fields_loop (elements required_fields) request_data ∅ ∅)
    as H.
  destruct (foldl _ _ (elements required_fields)) as [d e].
  assert (∀ f, e !! f = if bool_decide (f ∈ required_fields ∧
                                        request_data !! f = None)
                        then Some ["This field is required."] else None) as He.
  { intros f. destruct (H f) as [_ ->]. rewrite lookup_empty.
    destruct (decide (f ∈ required_fields)) as [Hin|Hnin].
    - rewrite bool_decide_eq_true_2 by by apply elem_of_elements.
      destruct (request_data !! f).
      + by rewrite bool_decide_eq_false_2 by by intros [_ ?].
      + by rewrite bool_decide_eq_true_2.
    - rewrite bool_decide_eq_false_2 by by rewrite elem_of_elements.
      by rewrite bool_decide_eq_false_2 by by intros [? _]. }
  split; [|split; [done|]].
  - intros f. destruct (H f) as [-> _]. rewrite lookup_empty.
    destruct (decide (f ∈ required_fields)) as [Hin|Hnin].
    + rewrite !bool_decide_eq_true_2; [by destruct (request_data !! f)|done|].
      by apply elem_of_elements.
    + rewrite !bool_decide_eq_false_2; [done|done|].
      by rewrite elem_of_elements.
  - split.
    + intros -> f Hf. specialize (He f). rewrite lookup_empty in He.
      destruct (request_data !! f) eqn:Hd; [by eauto|].
      by rewrite bool_decide_eq_true_2 in He.
    + intros Hall. apply map_eq. intros f. rewrite He, lookup_empty.
      rewrite bool_decide_eq_false_2; [done|]. intros [Hin Hnone].
      destruct (Hall f Hin) as [v Hv]. congruence.
Qed.

(** X14.  The loop of [TokenDetail.get] that gathers the required
    fields: the result holds exactly the fields gathered so far and the
    new ones, starts with the fields gathered so far in their order, and
    repeats no field. *)
Theorem list_union_spec (l fields : list string) :
  (∀ x, x ∈ list_union l fields ↔ x ∈ l ∨ x ∈ fields) ∧
  (NoDup l → NoDup (list_union l fields)) ∧
  l `prefix_of` list_union l fields.
Proof.
  revert l. induction fields as [|f fields IH]; intros l; simpl.
  - split; [|done]. intros x. rewrite elem_of_nil. tauto.
  - destruct (IH (if bool_decide (f ∈ l) then l else l ++ [f]))
      as (Hin & Hnd & Hpre).
    case_bool_decide as Hf.
    + split; [|done]. intros x. rewrite Hin, elem_of_cons.
      split; [tauto|]. intros [?|[->|?]]; tauto.
    + split; [|split].
      * intros x. rewrite Hin, elem_of_app, !elem_of_cons, elem_of_nil.
        tauto.
      * intros Hl. apply Hnd. apply NoDup_app. split; [done|].
        split; [|apply NoDup_singleton].
        intros x Hx ->%list_elem_of_singleton. done.
      * etrans; [|exact Hpre]. by apply prefix_app_r.
Qed.

(** X15.  [get_managable_roles]: a role is manageable exactly when
    [ROLES_MAPPING] lists it for one of the user's roles; a role of the
    user without an entry in the mapping contributes nothing. *)
Theorem managable_roles_spec (mapping : gmap string (list string))
    (user_roles : list string) (mrole : string) :
  mrole ∈ get_managable_roles mapping user_roles ↔
  ∃ role mroles, role ∈ user_roles ∧ mapping !! role = Some mroles ∧
                 mrole ∈ mroles.
Proof.
  unfold get_managable_roles. rewrite elem_of_list_to_set, list_elem_of_bind.
  split.
  - intros (role & Hm & Hrole).
    destruct (mapping !! role) as [mroles|] eqn:Hmap; [by eauto|].
    by apply elem_of_nil in Hm.
  - intros (role & mroles & Hrole & Hmap & Hm). exists role.
    by rewrite Hmap.
Qed.

(** X16.  [send_email] changes nothing but the clock reading counter,
    the log and the notifications - whatever it does and whether it
    returns or raises - and it does nothing at all when the e-mail
    configuration is [None] or empty. *)
Theorem send_email_only_notifies (registration : Registration)
    (email_conf : option (gmap string string)) (token_ : option Token) w :
  bookkeeping w (snd (StackTask.send_email registration email_conf token_ w)) ∧
  (email_conf = None ∨ email_conf = Some ∅ →
   StackTask.send_email registration email_conf token_ w = (Ok tt, w)).
Proof.
  split; [apply (respects_send_email bookkeeping)|].
  by intros [->| ->].
Qed.

End Fields.

Section TabledViews.
Context {KS : Type} `{!Env KS} (R : relation (World KS)) `{!Tabled R}.

Hint Resolve tabled_uuid4_hex tabled_Token_delete tabled_purge
  tabled_registrations tabled_create_token : respects.
Hint Extern 1 (Lax _) => typeclasses eauto : respects.

Lemma tabled_Registration_objects_create ip ku v :
  respects R (Registration_objects_create ip ku v).
Proof. unfold Registration_objects_create. respects_auto. Qed.

Lemma tabled_Registration_save r : respects R (Registration_save r).
Proof. unfold Registration_save. respects_auto. Qed.

Lemma tabled_registration_tokens r :
  respects R (StackTask.registration_tokens r).
Proof. unfold StackTask.registration_tokens. respects_auto. Qed.

Hint Resolve tabled_Registration_objects_create tabled_Registration_save
  tabled_registration_tokens : respects.

Lemma tabled_admin (func : Request → M (World KS) Response) request :
  respects R (func request) → respects R (StackTask.admin func request).
Proof. intros. unfold StackTask.admin. respects_auto. Qed.

Lemma tabled_finish view r acts nt failed :
  (∀ e, respects R (failed e)) →
  respects R (StackTask.finish view r acts nt failed).
Proof.
  intros. unfold StackTask.finish, StackTask.issue_token, StackTask.complete.
  respects_auto.
Qed.

Lemma tabled_process_actions self request :
  respects R (StackTask.process_actions self request).
Proof. unfold StackTask.process_actions. respects_auto. Qed.

Lemma tabled_approve self r : respects R (StackTask.approve self r).
Proof.
  unfold StackTask.approve. respects_auto. apply tabled_finish.
  intros. respects_auto.
Qed.

Hint Resolve tabled_process_actions tabled_approve : respects.

Lemma tabled_dispatch e request : respects R (StackTask.dispatch e request).
Proof.
  destruct e; simpl; try apply tabled_admin.
  - unfold StackTask.CreateProject_post. respects_auto.
  - unfold StackTask.AttachUser_post, StackTask.admin_or_owner,
      StackTask.AttachUser_post_. respects_auto.
  - unfold StackTask.ResetPassword_post. respects_auto.
  - unfold StackTask.RegistrationDetail_put_. respects_auto.
  - unfold StackTask.RegistrationDetail_post_. respects_auto.
    apply tabled_finish. intros. respects_auto.
  - unfold StackTask.TokenList_post_, StackTask.issue_token. respects_auto.
  - unfold StackTask.TokenList_delete_. respects_auto.
  - unfold StackTask.TokenDetail_get, StackTask.check_token. respects_auto.
  - unfold StackTask.TokenDetail_post, StackTask.check_token. respects_auto.
  - unfold StackTask.NotificationList_post_. respects_auto.
  - unfold StackTask.NotificationDetail_post_. respects_auto.
Qed.

Lemma tabled_finish_v1 r acts nt : respects R (ApiV1.finish r acts nt).
Proof. unfold ApiV1.finish. respects_auto. Qed.

Lemma tabled_process_actions_v1 self request :
  respects R (ApiV1.process_actions self request).
Proof. unfold ApiV1.process_actions. respects_auto. Qed.

Lemma tabled_approve_v1 r : respects R (ApiV1.approve r).
Proof. unfold ApiV1.approve. respects_auto; apply tabled_finish_v1. Qed.

Hint Resolve tabled_finish_v1 tabled_process_actions_v1 tabled_approve_v1
  : respects.

Lemma tabled_dispatch_v1 e request : respects R (ApiV1.dispatch e request).
Proof.
  destruct e; simpl.
  - unfold ApiV1.CreateProject_post. respects_auto.
  - unfold ApiV1.AttachUser_post, ApiV1.admin_or_owner,
      ApiV1.AttachUser_post_. respects_auto.
  - unfold ApiV1.ResetPassword_post. respects_auto.
  - unfold ApiV1.RegistrationDetail_post, ApiV1.admin,
      ApiV1.RegistrationDetail_post_. respects_auto.
  - unfold ApiV1.TokenDetail_get, ApiV1.check_token. respects_auto.
  - unfold ApiV1.TokenDetail_post, ApiV1.check_token. respects_auto.
Qed.

End TabledViews.

Section Keys.
Context {KS : Type} `{!Env KS}.
Implicit Types w : World KS.

Global Instance keyed_tabled : Tabled (keyed (KS:=KS)).
Proof.
  split; [split_lax|..]; try (by intros ? ?); try (intros; by intros ?).
  - intros w1 w2 w3 H1 H2 ?. by apply H2, H1.
  - intros w Hw k t Hk. simpl in *. destruct (Hw k t Hk). split; [done|lia].
  - intros t w Hw k t' Hk. simpl in *.
    apply lookup_delete_Some in Hk as [_ Hk]. by apply Hw.
  - intros t w Hw k t' Hk. simpl in *.
    apply map_lookup_filter_Some in Hk as [Hk _]. by apply Hw.
  - intros f w Hw. exact Hw.
  - intros r w Hw k t Hk. simpl in *.
    apply lookup_insert_Some in Hk as [[<- <-]|[_ Hk]]; simpl; [lia|].
    destruct (Hw k t Hk). lia.
Qed.

Lemma reachable_keys_ok w :
  StackTask.reachable w ∨ ApiV1.reachable w → keys_ok w.
Proof.
  intros [H|H].
  - induction H as [k|w e request _ IH|w k _ IH].
    + intros ? ? Hl. simpl in Hl. by rewrite lookup_empty in Hl.
    + by apply (tabled_dispatch keyed e request w).
    + done.
  - induction H as [k|w e request _ IH|w k _ IH].
    + intros ? ? Hl. simpl in Hl. by rewrite lookup_empty in Hl.
    + by apply (tabled_dispatch_v1 keyed e request w).
    + done.
Qed.

(** X17.  In every world either generation of the service can reach,
    every token is stored under its own token string and every
    registration under its own uuid, and both have been drawn from the
    uuid source. *)
Theorem tokens_are_stored_under_fresh_keys w :
  StackTask.reachable w ∨ ApiV1.reachable w →
  (∀ k t, tokens w !! k = Some t → token t = k ∧ (k < uuids w)%nat) ∧
  (∀ u r, registrations w !! u = Some r → uuid r = u ∧ (u < uuids w)%nat).
Proof.
  intros Hw. split; [by apply reachable_keys_ok|].
  assert (Inv w) as (H1 & _ & H3).
  { destruct Hw; [by apply reachable_Inv|by apply reachable_Inv_v1]. }
  intros u r Hr. split; [by destruct (H1 u r Hr)|by apply (H3 u r)].
Qed.

End Keys.

Section Redemption.
Context {KS : Type} `{!Env KS}.
Implicit Types w : World KS.

Lemma check_token_inv id w checked w1 :
  StackTask.check_token id w = (Ok checked, w1) →
  match checked with
  | inl (tok, r) =>
      tokens w !! id = Some tok ∧
      registrations w !! tok_registration tok = Some r ∧
      completed r = false ∧ bookkeeping w w1
  | inr resp => status resp ≠ 200
  end.
Proof.
  unfold StackTask.check_token, Token_objects_get, token_registration,
    Registration_objects_get, now, Token_delete.
  rewrite run_bind. unfold gets at 1.
  destruct (tokens w !! id) as [tok|] eqn:Htok; cbv beta iota.
  2:{ unfold ret. by intros [= <- <-]. }
  rewrite !run_bind. unfold gets at 1.
  destruct (registrations w !! tok_registration tok) as [r|] eqn:Hr;
    cbv beta iota; [|done].
  unfold ret at 1. cbv beta iota.
  destruct (completed r) eqn:Hc.
  { unfold ret. by intros [= <- <-]. }
  rewrite run_bind. cbv beta iota. case_bool_decide.
  - rewrite run_bind. unfold modify, ret. by intros [= <- <-].
  - unfold ret. intros [= <- <-]. by repeat split.
Qed.

Lemma complete_token_run (registration : Registration) (tok : Token)
    (t : Z) w2 resp w' :
  (_ ← Registration_save (set_completed t registration);
   _ ← Token_delete tok;
   _ ← StackTask.send_email (set_completed t registration)
         (StackTask.optional_email_conf
            (action_view (set_completed t registration)) "completed") None;
   ret (StackTask.Response_
          {["notes" := VStr "Token submitted successfully."]} 200)) w2
  = (Ok resp, w') →
  tokens w' = delete (token tok) (tokens w2) ∧
  registrations w'
  = <[uuid registration := set_completed t registration]> (registrations w2).
Proof.
  rewrite run_bind. unfold Registration_save at 1, modify at 1.
  cbv beta iota. rewrite run_bind. unfold Token_delete at 1, modify at 1.
  cbv beta iota. intros H.
  match type of H with ?m ?w3 = _ =>
    assert (respects bookkeeping m) as Hm by respects_auto;
    specialize (Hm w3); rewrite H in Hm end.
  destruct Hm as (Hr & Ht & _). simpl in Hr, Ht. by rewrite Hr, Ht.
Qed.

(** X18.  Tokens are single-use.  In a reachable world, when
    [TokenDetail.post] of [stacktask/api/v1/views.py] answers with status
    200, the token is no longer in the table and its registration is
    completed. *)
Theorem redeemed_token_is_spent (id : nat) (request : Request) w resp w' :
  StackTask.reachable w →
  StackTask.TokenDetail_post id request w = (Ok resp, w') →
  status resp = 200 →
  tokens w' !! id = None ∧
  ∃ tok r, tokens w !! id = Some tok ∧
           registrations w' !! tok_registration tok = Some r ∧
           completed r = true.
Proof.
  intros Hreach Hrun Hstatus.
  pose proof (reachable_keys_ok w (or_introl Hreach)) as Hkeys.
  pose proof (reachable_Inv w Hreach) as (Hregs & _ & _).
  unfold StackTask.TokenDetail_post in Hrun.
  apply bind_Ok_inv in Hrun as (checked & w1 & Hcheck & Hrun).
  apply check_token_inv in Hcheck.
  destruct checked as [[tok r]|resp0].
  2:{ unfold ret in Hrun. injection Hrun as <- <-. done. }
  destruct Hcheck as (Htok & Hr & Hc & Hb).
  destruct (Hkeys id tok Htok) as [Hid _].
  destruct (Hregs _ _ Hr) as [Huuid _].
  apply bind_Ok_inv in Hrun as (rows & w1' & Hrows & Hrun).
  unfold registration_actions, gets in Hrows. injection Hrows as <- <-.
  apply bind_Ok_inv in Hrun as ([required_fields acts] & w2 & Hfold & Hrun).
  match type of Hfold with ?m ?w0 = _ =>
    assert (respects bookkeeping m) as Hm by respects_auto;
    specialize (Hm w0); rewrite Hfold in Hm; simpl in Hm end.
  destruct (collect_fields required_fields (req_data request))
    as [data_ errors].
  destruct (bool_decide (errors = ∅)); simpl in Hrun.
  2:{ unfold ret in Hrun. injection Hrun as <- <-. done. }
  apply bind_Ok_inv in Hrun as (res & w3 & Hsub & Hrun).
  match type of Hsub with StackTask.submit_all _ _ ?f _ = _ =>
    pose proof (submit_all_calls acts data_ f w2
                  ltac:(intros; respects_auto)) as Hcalls end.
  rewrite Hsub in Hcalls.
  destruct Hcalls as (Hr3 & Ht3 & _ & n & _ & _ & Hres).
  destruct res as [[]|resp1].
  2:{ unfold ret in Hrun. injection Hrun as <- <-.
      destruct Hres as (_ & e & w0 & Hf).
      apply step_failed_generic_answer in Hf. by subst resp1. }
  apply bind_Ok_inv in Hrun as (t & w4 & Hnow & Hrun).
  unfold now in Hnow. injection Hnow as <- <-.
  apply complete_token_run in Hrun as [Htok' Hreg']. simpl in Htok', Hreg'.
  split.
  - rewrite Htok', Hid. apply lookup_delete_eq.
  - exists tok, (set_completed (timezone_now (ticks w3)) r).
    split; [done|]. split; [|done].
    by rewrite Hreg', Huuid, lookup_insert_eq.
Qed.

(** X19.  When [TokenDetail.post] of [stacktask/api/v1/views.py]
    answers with status 400 or 404 (unknown token, completed
    registration, expired token, missing field), no [submit] has run: the
    Registration table, the Action table, the backend and the call history
    are as before, and no token was added. *)
Theorem refused_redemption_submits_nothing (id : nat) (request : Request)
    w resp w' :
  StackTask.TokenDetail_post id request w = (Ok resp, w') →
  status resp = 400 ∨ status resp = 404 →
  reading w w'.
Proof.
  intros Hrun Hstatus.
  unfold StackTask.TokenDetail_post in Hrun.
  apply bind_Ok_inv in Hrun as (checked & w1 & Hcheck & Hrun).
  assert (reading w w1) as Hw1.
  { assert (respects reading (StackTask.check_token id)) as Hm
      by (unfold StackTask.check_token; respects_auto).
    specialize (Hm w). by rewrite Hcheck in Hm. }
  destruct checked as [[tok r]|resp0].
  2:{ unfold ret in Hrun. by injection Hrun as <- <-. }
  apply bind_Ok_inv in Hrun as (rows & w1' & Hrows & Hrun).
  unfold registration_actions, gets in Hrows. injection Hrows as <- <-.
  apply bind_Ok_inv in Hrun as ([required_fields acts] & w2 & Hfold & Hrun).
  match type of Hfold with ?m ?w0 = _ =>
    assert (respects reading m) as Hm by respects_auto;
    specialize (Hm w0); rewrite Hfold in Hm; simpl in Hm end.
  destruct (collect_fields required_fields (req_data request))
    as [data_ errors].
  destruct (bool_decide (errors = ∅)); simpl in Hrun.
  2:{ unfold ret in Hrun. injection Hrun as <- <-. by etrans. }
  exfalso.
  apply bind_Ok_inv in Hrun as (res & w3 & Hsub & Hrun).
  match type of Hsub with StackTask.submit_all _ _ ?f _ = _ =>
    pose proof (submit_all_calls acts data_ f w2
                  ltac:(intros; respects_auto)) as Hcalls end.
  rewrite Hsub in Hcalls.
  destruct Hcalls as (_ & _ & _ & n & _ & _ & Hres).
  destruct res as [[]|resp1].
  - apply bind_Ok_inv in Hrun as (t & w4 & _ & Hrun).
    apply bind_Ok_inv in Hrun as (? & ? & _ & Hrun).
    apply bind_Ok_inv in Hrun as (? & ? & _ & Hrun).
    apply bind_Ok_inv in Hrun as (? & ? & _ & Hrun).
    unfold ret in Hrun. injection Hrun as <- <-. simpl in Hstatus.
    by destruct Hstatus.
  - unfold ret in Hrun. injection Hrun as <- <-.
    destruct Hres as (_ & e & w0 & Hf).
    apply step_failed_generic_answer in Hf. subst resp1. simpl in Hstatus.
    by destruct Hstatus.
Qed.

(** X20.  When a view is configured with an action that
    [settings.ACTION_CLASSES] does not know, [process_actions] (of either
    generation) raises [KeyError] for the first such action and nothing
    is written, whatever the request. *)
Theorem unknown_action_aborts_the_intake (request : Request) w
    (before : list string) (name : string) (after : list string) :
  Forall (λ n, is_Some (ACTION_CLASSES !! n)) before →
  ACTION_CLASSES !! name = None →
  (∀ self, StackTask.view_actions self = before ++ name :: after →
           StackTask.process_actions self request w
           = (Raise (KeyError name), w)) ∧
  (∀ self, ApiV1.view_actions self = before ++ name :: after →
           ApiV1.process_actions self request w
           = (Raise (KeyError name), w)).
Proof.
  intros Hbefore Hname.
  assert (run_serializers (before ++ name :: after) request w
          = (Raise (KeyError name), w)) as Hrun.
  { unfold run_serializers.
    enough (∀ acc : list (ActEntry (KS:=KS)) * bool,
      foldM (before ++ name :: after) acc
        (λ action '(act_list, valid),
           entry ← getitem ACTION_CLASSES action;
           let serializer :=
             (λ f : Serializer, f (req_data request)) <$> snd entry in
           ret (act_list ++ [{| ae_name := action; ae_action := fst entry;
                                ae_serializer := serializer |}],
                match serializer with
                | Some s => if is_valid s then valid else false
                | None => valid
                end)) w
      = (Raise (KeyError name), w)) as H by apply H.
    induction Hbefore as [|n before [entry Hn] _ IH]; intros [acc v].
    - simpl. unfold bind, getitem. by rewrite Hname.
    - simpl app. rewrite run_foldM_cons, run_bind,
        (run_getitem_Some _ _ _ _ Hn).
      cbv beta iota zeta. unfold ret at 1. apply IH. }
  split; intros self Hself.
  - unfold StackTask.process_actions. by rewrite Hself, run_bind, Hrun.
  - unfold ApiV1.process_actions. by rewrite Hself, run_bind, Hrun.
Qed.

End Redemption.

Section ProjectId.
Context {KS : Type} `{!IdentityManager KS}.


End ProjectId.

Module MoreScenarios.
Import Bench.

Lemma reset_requested_reachable : StackTask.reachable reset_requested.
Proof.
  apply StackTask.reachable_request. apply StackTask.reachable_init.
Defined.

Lemma tokens_belong_to_approved_registrations_witness :
  ∃ t r, tokens reset_requested !! 1%nat = Some t ∧
         registrations reset_requested !! tok_registration t = Some r ∧
         uuid r = tok_registration t ∧ approved r = true.
Proof.
  destruct (tokens reset_requested !! 1%nat) as [t|] eqn:Ht;
    [|vm_compute in Ht; discriminate Ht].
  destruct (tokens_belong_to_approved_registrations reset_requested
              (or_introl reset_requested_reachable) 1%nat t Ht)
    as (r & Hr & Hu & Ha).
  exists t, r. split; [reflexivity|]. split; [exact Hr|].
  split; [exact Hu|exact Ha].
Defined.

Lemma tokens_are_stored_under_fresh_keys_witness :
  ∃ t, tokens reset_requested !! 1%nat = Some t ∧
       token t = 1%nat ∧ (1 < uuids reset_requested)%nat.
Proof.
  destruct (tokens reset_requested !! 1%nat) as [t|] eqn:Ht;
    [|vm_compute in Ht; discriminate Ht].
  destruct (proj1 (tokens_are_stored_under_fresh_keys reset_requested
                     (or_introl reset_requested_reachable)) 1%nat t Ht)
    as [Hk Hlt].
  exists t. split; [reflexivity|]. split; [exact Hk|exact Hlt].
Defined.

Lemma token_is_valid_until_after_its_expiry_witness :
  ∃ tok r,
    StackTask.check_token 1 reset_requested
    = (Ok (inl (tok, r)),
       with_ticks (S (ticks reset_requested)) reset_requested) ∧
    ApiV1.check_token 1 reset_requested
    = (Ok (inl tok), with_ticks (S (ticks reset_requested)) reset_requested).
Proof.
  destruct (tokens reset_requested !! 1%nat) as [tok|] eqn:Ht;
    [|vm_compute in Ht; discriminate Ht].
  pose proof Ht as E. vm_compute in E. injection E as <-.
  destruct (registrations reset_requested !! 0%nat) as [r|] eqn:Hr;
    [|vm_compute in Hr; discriminate Hr].
  pose proof Hr as E. vm_compute in E. injection E as <-.
  eexists _, _.
  apply (token_is_valid_until_after_its_expiry 1 reset_requested _ _ Ht Hr);
    [reflexivity|vm_compute; discriminate].
Defined.

Lemma username_is_the_email_witness :
  UserAction_init true "ResetUser" ["username"; "email"] email_data
  = Ok email_attrs ∧
  ∃ email, email_data !! "email" = Some email ∧
           email_attrs !! "username" = Some email.
Proof.
  assert (UserAction_init true "ResetUser" ["username"; "email"] email_data
          = Ok email_attrs) as H by (vm_compute; reflexivity).
  split; [exact H|].
  destruct (username_is_the_email "ResetUser" ["username"; "email"]
              email_data email_attrs H) as (email & Hd & _ & Hu & _).
  exists email. split; [exact Hd|exact Hu].
Defined.

Lemma NewProject_submit_fails_for_an_existing_user_witness :
  let run := NewProject_submit signup_attrs {["password" := VStr "secret"]}
               approved_state in
  (fst run = Ok ["No user present with username 'alice'.";
                 "New user 'alice' created for project test_project " +:+
                 "with roles: ['Member', 'project_owner']"]) ∧
  state (st_action (snd run)) ≠ "existing".
Proof.
  intros run. split; [vm_compute; reflexivity|].
  apply (NewProject_submit_fails_for_an_existing_user signup_attrs
           {["password" := VStr "secret"]} approved_state
           ["No user present with username 'alice'.";
            "New user 'alice' created for project test_project " +:+
            "with roles: ['Member', 'project_owner']"] (snd run));
    vm_compute; reflexivity.
Defined.

Lemma redeemed_token_is_spent_witness :
  let request := anonymous {["password" := VStr "new_password"]} in
  let w' := snd (StackTask.TokenDetail_post 1 request reset_requested) in
  tokens w' !! 1%nat = None ∧
  ∃ tok r, tokens reset_requested !! 1%nat = Some tok ∧
           registrations w' !! tok_registration tok = Some r ∧
           completed r = true.
Proof.
  intros request w'.
  apply (redeemed_token_is_spent 1 request reset_requested
           (StackTask.Response_
              {["notes" := VStr "Token submitted successfully."]} 200) w'
           reset_requested_reachable);
    [vm_compute; reflexivity|reflexivity].
Defined.

Lemma refused_redemption_submits_nothing_witness :
  let '(res, w') := StackTask.TokenDetail_post 1 (anonymous ∅)
                      reset_requested in
  res = Ok (field_errors_response
              {["password" := ["This field is required."]]}) ∧
  reading reset_requested w'.
Proof.
  destruct (StackTask.TokenDetail_post 1 (anonymous ∅) reset_requested)
    as [res w'] eqn:Hrun.
  assert (res = Ok (field_errors_response
                      {["password" := ["This field is required."]]})) as ->.
  { pose proof (f_equal fst Hrun) as E. vm_compute in E. by rewrite <- E. }
  split; [reflexivity|].
  exact (refused_redemption_submits_nothing 1 (anonymous ∅) reset_requested
           _ w' Hrun (or_introl eq_refl)).
Defined.

Lemma unknown_action_aborts_the_intake_witness :
  StackTask.process_actions misconfigured_view signup w0
  = (Raise (KeyError "NoSuchAction"), w0).
Proof.
  refine (proj1 (unknown_action_aborts_the_intake signup w0 [] "NoSuchAction"
                   [] (Forall_nil_2 _) _) misconfigured_view _);
    vm_compute; reflexivity.
Defined.


End MoreScenarios.
